(** * LinkedIn finder: query synthesis, candidate selection, record processing

    A shallow embedding of [linkedin_finder/find_linkedins.py] (the Serper
    pipeline) and [linkedin_finder/find_linkedins_cse.py] (the Google CSE
    pipeline), and the properties of their query synthesizer, candidate
    selector and per-record orchestration.

    Modelling conventions.
    - A Python [str] is a [string]; the characters are the ASCII ones, and
      [lower], [split], [strip] and the regular expression class [\s] act on
      them as CPython does on code points below 128.
    - A Python [int] score is a [Z]; a [len] is a [nat].
    - [Optional[str]] arguments that the code reads as [x or ""] are strings
      ([None] is the empty string); [Optional[List[str]]] read as [x or []]
      are lists.
    - A candidate [Dict[str, str]] is a record of the three keys the code
      reads with [cand.get(k)]; an absent key is [None].
    - The search provider is the environment: a function from the number of
      the call and its query to what the call does, which is to return a
      payload of result items or to raise an exception with a message. The
      world counts the calls and records calls and sleeps in a trace; a
      backoff of [n] seconds, an exact small float in the code, is the
      integer [n].
    - The API key is taken as set, and a record enters [process_record] with
      the fields the loop body has derived from the input row. *)

From Stdlib Require Import String Ascii ZArith List Lia Bool.
From Stdlib Require DecimalString.
From stdpp Require Import base gmap sets list strings.
From Equations Require Import Equations.

Open Scope string_scope.
Open Scope list_scope.

(** ** Python string primitives *)

Module Py.

(** [str.isspace] on ASCII: TAB, LF, VT, FF, CR, FS, GS, RS, US, SPACE. The
  same set drives [str.split()], [str.strip()] and the pattern [\s]. *)
Definition is_space (c : ascii) : bool :=
let n := nat_of_ascii c in
((9 <=? n)%nat && (n <=? 13)%nat) || ((28 <=? n)%nat && (n <=? 32)%nat).

Definition lower_char (c : ascii) : ascii :=
let n := nat_of_ascii c in
if ((65 <=? n)%nat && (n <=? 90)%nat) then ascii_of_nat (n + 32) else c.

(** [s.lower()] *)
Fixpoint lower (s : string) : string :=
match s with
| EmptyString => EmptyString
| String c s' => String (lower_char c) (lower s')
end.

(** [s.startswith(p)] *)
Definition startswith (s p : string) : bool := String.prefix p s.

(** [needle in hay] *)
Fixpoint contains (needle hay : string) : bool :=
String.prefix needle hay ||
match hay with
| EmptyString => false
| String _ hay' => contains needle hay'
end.

(** [s.endswith(suf)]: some tail of [s] is [suf]. *)
Fixpoint endswith (s suf : string) : bool :=
String.eqb s suf ||
match s with
| EmptyString => false
| String _ s' => endswith s' suf
end.

(** truthiness of a string: [if s] *)
Definition truthy (s : string) : bool :=
match s with EmptyString => false | String _ _ => true end.

Definition cons_word (w : string) (ws : list string) : list string :=
if truthy w then w :: ws else ws.

(** The word being read at the front of [s] and the words after it,
  where [sep] tells the separator characters. *)
Fixpoint words_aux (sep : ascii -> bool) (s : string) : string * list string :=
match s with
| EmptyString => (EmptyString, [])
| String c s' =>
    let '(w, ws) := words_aux sep s' in
    if sep c then (EmptyString, cons_word w ws) else (String c w, ws)
end.

(** [s.split()]: the maximal runs of non-whitespace characters. *)
Definition split (s : string) : list string :=
let '(w, ws) := words_aux is_space s in cons_word w ws.

(** [s.split(sep)] for a one-character separator: the pieces between the
  occurrences, empty pieces kept; never the empty list. *)
Fixpoint split_on (sep : ascii) (s : string) : list string :=
match s with
| EmptyString => [EmptyString]
| String c s' =>
    if Ascii.eqb c sep then EmptyString :: split_on sep s'
    else match split_on sep s' with
         | w :: ws => String c w :: ws
         | [] => [String c EmptyString]
         end
end.

(** [re.split(pat, s)] where [pat] is one or more characters of the class
  [sep]: the pieces between the maximal runs, empty end pieces kept. *)
Fixpoint re_split_go (sep : ascii -> bool) (in_run : bool) (s : string) : list string :=
match s with
| EmptyString => [EmptyString]
| String c s' =>
    if sep c then
      if in_run then re_split_go sep true s'
      else EmptyString :: re_split_go sep true s'
    else match re_split_go sep false s' with
         | w :: ws => String c w :: ws
         | [] => [String c EmptyString]
         end
end.

Definition re_split (sep : ascii -> bool) (s : string) : list string :=
re_split_go sep false s.

(** [re.sub(r"\s+", " ", s)]: every maximal whitespace run becomes one
  space (the last character of a run emits it). *)
Fixpoint re_sub_spaces (s : string) : string :=
match s with
| EmptyString => EmptyString
| String c s' =>
    if is_space c then
      match s' with
      | EmptyString => " "
      | String c' _ => if is_space c' then re_sub_spaces s' else String " " (re_sub_spaces s')
      end
    else String c (re_sub_spaces s')
end.

Fixpoint lstrip (s : string) : string :=
match s with
| EmptyString => EmptyString
| String c s' => if is_space c then lstrip s' else s
end.

Fixpoint rstrip (s : string) : string :=
match s with
| EmptyString => EmptyString
| String c s' =>
    let r := rstrip s' in
    if is_space c && negb (truthy r) then EmptyString else String c r
end.

(** [s.strip()] *)
Definition strip (s : string) : string := lstrip (rstrip s).

(** [sep.join(ws)] *)
Fixpoint join (sep : string) (ws : list string) : string :=
match ws with
| [] => EmptyString
| [w] => w
| w :: ws' => w +:+ sep +:+ join sep ws'
end.

(** [sum(1 for x in l if p x)] *)
Definition count {A} (p : A -> bool) (l : list A) : Z :=
Z.of_nat (length (List.filter p l)).

(** [x or ""] for the result of [dict.get] *)
Definition or_empty (o : option string) : string :=
match o with Some s => s | None => EmptyString end.

(** The double-quote character, and [f'"{s}"']. *)
Definition dquote : string := String "034"%char EmptyString.
Definition quoted (s : string) : string := dquote +:+ s +:+ dquote.

End Py.

(** ** Text normalizer (the same four functions in both files) *)

Definition normalize_whitespace (s : string) : string :=
  Py.strip (Py.re_sub_spaces s).

Definition first_name_from (name : string) : string :=
  let name := normalize_whitespace name in
  if Py.truthy name then hd "" (Py.split_on " "%char name) else "".

Definition is_space_or_comma (c : ascii) : bool :=
  Py.is_space c || Ascii.eqb c ","%char.

Definition tokenize_location (loc : string) : list string :=
  let loc := normalize_whitespace loc in
  if negb (Py.truthy loc) then []
  else
    let tokens := Py.re_split is_space_or_comma loc in
    List.filter (fun t => (2 <=? String.length t)%nat) tokens.

Definition tokenize_skill (skill : string) : list string :=
  let s := normalize_whitespace skill in
  if negb (Py.truthy s) then []
  else List.filter Py.truthy (Py.re_split Py.is_space s).

(** ** Candidates *)

Record candidate := Candidate {
  url : option string;
  title : option string;
  snippet : option string
}.

Definition mk_candidate (u t s : string) : candidate :=
  Candidate (Some u) (Some t) (Some s).

(** The loop state of the selectors: [best_candidate], [best_score]. *)
Definition best := (option candidate * Z)%type.

(** ** Records, outcomes and the environment *)

(** One result item of a provider payload, with the keys the extractors
    read; [None] is an absent key. *)
Record item := Item {
  i_link : option string;
  i_title : option string;
  i_snippet : option string
}.

(** What one search call does: return a payload or raise an exception
    whose [str(e)] is [msg]. *)
Inductive response :=
| Payload (items : list item)
| Raises (msg : string).

Inductive event :=
| Politeness_sleep
| Search_call (q : string) (gl : option string)
| Backoff_sleep (seconds : Z)
| Save_checkpoint (rows : nat).

(** The number of search calls made so far and what was done, in order. *)
Record world := World {
  calls : nat;
  trace : list event
}.

(** The values [match_status] takes. *)
Inductive status := matched | needs_review | not_found | error.

(** A record after the field derivation at the top of the loop body of
    [process_records]: the name, location, role, country, category and
    skills the rest of the body works with. *)
Record profile := Profile {
  p_external_id : string;
  p_name : string;
  p_location : string;
  p_role : string;
  p_country : string;
  p_primary_category : string;
  p_skills : list string
}.

(** The per-record variables of [process_records]. *)
Record locals := Locals {
  best_url : string;
  match_status : status;
  query_used : string;
  all_candidates : list candidate
}.

(** An output row; [candidates_json] is kept as the list it encodes. *)
Record row := Row {
  row_external_id : string;
  row_name : string;
  row_location : string;
  linkedin_url : string;
  row_match_status : status;
  row_query_used : string;
  candidates_json : list candidate
}.

(** The [counts] dictionary. *)
Record counts := Counts {
  processed : nat;
  n_matched : nat;
  n_needs_review : nat;
  n_not_found : nat;
  n_error : nat
}.

Definition count_status (s : status) (c : counts) : counts :=
  match s with
  | matched => Counts (processed c) (S (n_matched c)) (n_needs_review c) (n_not_found c) (n_error c)
  | needs_review => Counts (processed c) (n_matched c) (S (n_needs_review c)) (n_not_found c) (n_error c)
  | not_found => Counts (processed c) (n_matched c) (n_needs_review c) (S (n_not_found c)) (n_error c)
  | error => Counts (processed c) (n_matched c) (n_needs_review c) (n_not_found c) (S (n_error c))
  end.

Definition count_processed (c : counts) : counts :=
  Counts (S (processed c)) (n_matched c) (n_needs_review c) (n_not_found c) (n_error c).

Definition log (e : event) (w : world) : world :=
  World (calls w) (trace w ++ [e]).

(** [records[start : min(len(records), end_idx)]], where [end_idx] is
    [start + limit], or [len(records)] without a limit. *)
Definition record_range (records : list profile) (start : nat) (limit : option Z) : list profile :=
  match limit with
  | None => drop start records
  | Some limit => take (Z.to_nat limit) (drop start records)
  end.

(** The two loops over the query strings that end [build_queries] and
    [build_cse_queries]: [seen] and [deduped]. *)
Definition dedupe_step (st : gset string * list string) (q : string) : gset string * list string :=
  let '(seen, deduped) := st in
  if decide (q ∈ seen) then (seen, deduped)
  else ({[q]} ∪ seen, deduped ++ [q]).

Definition dedupe (queries : list string) : list string :=
  snd (fold_left dedupe_step queries (∅, [])).

(** [is_truncated] of both synthesizers. *)
Definition is_truncated (name : string) : bool :=
  let name_parts := Py.split name in
  Nat.eqb (length name_parts) 2
  && (String.length (nth 1 name_parts "") <=? 2)%nat
  && Py.endswith (nth 1 name_parts "") ".".

(** The locals both synthesizers compute before they assemble queries. *)
Definition name_q_of (name : string) : string :=
  if Py.truthy name then Py.quoted (normalize_whitespace name) else "".

Definition first_q_of (name : string) : string :=
  let first_only := first_name_from name in
  if Py.truthy first_only then Py.quoted first_only else "".

(** [normalize_whitespace((skills or [None])[0] or "")] *)
Definition top_skill_of (skills : list string) : string :=
  normalize_whitespace (hd "" skills).

Definition is_nil {A} (l : list A) : bool :=
  match l with [] => true | _ :: _ => false end.

(** What the orchestrators derive from a record before the query loop. *)
Record identity := Identity {
  id_name : string;
  id_first_name : string;
  id_loc_tokens : list string;
  id_skill_tokens : list string;
  id_role_tokens : list string;
  id_gl : option string
}.

Definition site_suffix : string := " site:linkedin.com/in".

(** ** find_linkedins.py: the candidate selector *)

Module FindLinkedins.

(** "Bonus for full name or parts of full name": the points added inside
  the first-name branch. *)
Definition name_bonus (full_name_lower combined_text : string) : Z :=
let name_parts := Py.split full_name_lower in
if (1 <? length name_parts)%nat then
  let matching_parts :=
    Py.count (fun part => (1 <? String.length part)%nat && Py.contains part combined_text)
             name_parts in
  if (matching_parts >=? 2)%Z then 3
  else if (matching_parts =? 1)%Z && (2 <? String.length (nth 1 name_parts ""))%nat then 1
  else 0
else 0.

(** "Location matching" *)
Definition location_bonus (loc_tokens : list string) (combined_text : string) : Z :=
let location_matches :=
  Py.count (fun t => Py.contains (Py.lower t) combined_text) loc_tokens in
if (location_matches >? 0)%Z then Z.min (location_matches * 2) 4 else 0.

Definition context_keywords : list string :=
["freelancer"; "upwork"; "self employed"; "self-employed"; "consultant"].

(** "Professional context" *)
Definition context_bonus (combined_text : string) : Z :=
if existsb (fun k => Py.contains k combined_text) context_keywords then 2 else 0.

(** "URL pattern matching" *)
Definition url_bonus (fn full_name_lower url : string) : Z :=
if Py.startswith url ("https://www.linkedin.com/in/" +:+ fn)
   || Py.startswith url ("https://linkedin.com/in/" +:+ fn) then 2
else if existsb (fun part => Py.contains part url)
          (List.filter (fun part => (2 <? String.length part)%nat)
                       (Py.split full_name_lower)) then 1
else 0.

(** "Skills/role matching": one test, used for the role and for the skill
  tokens. *)
Definition support_bonus (tokens : list string) (combined_text : string) : Z :=
if negb (Nat.eqb (length tokens) 0)
   && existsb (fun t => Py.contains (Py.lower t) combined_text) tokens then 1 else 0.

(** One pass of the loop body up to the comparison with [best_score]:
  [None] is the [continue] of the first-name test, [Some score] the
  score reached at the end of the body. *)
Definition score_candidate (full_name first_name : string)
  (loc_tokens skill_tokens role_tokens : list string) (cand : candidate) : option Z :=
let fn := Py.lower first_name in
let full_name_lower := Py.lower full_name in
let title := Py.lower (Py.or_empty (title cand)) in
let snippet := Py.lower (Py.or_empty (snippet cand)) in
let url := Py.lower (Py.or_empty (url cand)) in
let combined_text := title +:+ " " +:+ snippet in
let score := 0%Z in
if Py.contains fn title then
  let score := (score + 3)%Z in
  let score := (score + name_bonus full_name_lower combined_text)%Z in
  let score := (score + location_bonus loc_tokens combined_text)%Z in
  let score := (score + context_bonus combined_text)%Z in
  let score := (score + url_bonus fn full_name_lower url)%Z in
  let score := (score + support_bonus role_tokens combined_text)%Z in
  let score := (score + support_bonus skill_tokens combined_text)%Z in
  Some score
else None.

(** "Keep track of best candidate" *)
Definition pick_step (full_name first_name : string)
  (loc_tokens skill_tokens role_tokens : list string) (st : best) (cand : candidate) : best :=
let '(best_candidate, best_score) := st in
match score_candidate full_name first_name loc_tokens skill_tokens role_tokens cand with
| None => (best_candidate, best_score)
| Some score =>
    if (score >? best_score)%Z then (Some cand, score) else (best_candidate, best_score)
end.

Definition pick_candidate (full_name first_name : string)
  (loc_tokens skill_tokens : list string) (candidates : list candidate)
  (role_tokens : list string) : option candidate :=
let '(best_candidate, best_score) :=
  fold_left (pick_step full_name first_name loc_tokens skill_tokens role_tokens)
            candidates (None, 0%Z) in
if (best_score >=? 5)%Z then best_candidate else None.

(** *** Query synthesizer *)

(** "Priority 1: For truncated names, try first name + context first" *)
Definition truncated_stage (first_q first_only loc_q top_skill : string) : list string :=
(if Py.truthy loc_q then
   [first_q +:+ " freelancer " +:+ loc_q +:+ site_suffix;
    first_q +:+ " " +:+ loc_q +:+ site_suffix]
 else [])
++ (if Py.truthy top_skill && Py.truthy loc_q then
      [first_q +:+ " " +:+ top_skill +:+ " " +:+ loc_q +:+ site_suffix]
    else [])
++ [first_only +:+ " freelancer " +:+ loc_q +:+ site_suffix].

(** "Priority 2: Original name queries" *)
Definition full_name_stage (name_q loc_q role_q top_skill : string) : list string :=
[name_q +:+ " freelancer " +:+ loc_q +:+ site_suffix;
 name_q +:+ " " +:+ loc_q +:+ site_suffix]
++ (if Py.truthy role_q then
      [name_q +:+ " " +:+ role_q +:+ " " +:+ loc_q +:+ site_suffix]
    else [])
++ (if Py.truthy top_skill then
      [name_q +:+ " " +:+ top_skill +:+ " " +:+ loc_q +:+ site_suffix]
    else []).

(** The list [queries] as it stands before de-duplication. *)
Definition assemble_queries (name location : string) (skills : list string)
  (role country : string) : list string :=
let name_q := name_q_of name in
let loc_q := normalize_whitespace location in
let country_q := normalize_whitespace country in
let role_q := normalize_whitespace role in
let top_skill := top_skill_of skills in
let first_only := first_name_from name in
let first_q := first_q_of name in
let queries : list string := [] in
let queries :=
  queries ++ (if is_truncated name && Py.truthy first_q
              then truncated_stage first_q first_only loc_q top_skill else []) in
let queries :=
  queries ++ (if Py.truthy name_q && Py.truthy loc_q
              then full_name_stage name_q loc_q role_q top_skill else []) in
let queries :=
  queries ++ (if Py.truthy name_q && Py.truthy country_q
                 && negb (String.eqb country_q loc_q)
              then [name_q +:+ " " +:+ country_q +:+ site_suffix] else []) in
let queries :=
  queries ++ (if Py.truthy name_q then [name_q +:+ site_suffix] else []) in
queries.

Definition build_queries (name location : string) (skills : list string)
  (role country primary_category : string) : list string :=
take 8 (dedupe (assemble_queries name location skills role country)).

(** *** Candidate extractor *)

Fixpoint extract_loop (cands : list candidate) (org : list item) : list candidate :=
match org with
| [] => cands
| item :: org' =>
    let link := Py.or_empty (i_link item) in
    let link_l :=
      hd "" (Py.split_on "#"%char (hd "" (Py.split_on "?"%char (Py.lower link)))) in
    if negb (Py.startswith link_l "https://www.linkedin.com/in/"
             || Py.startswith link_l "https://linkedin.com/in/"
             || Py.startswith link_l "https://www.linkedin.com/pub/"
             || Py.startswith link_l "https://linkedin.com/pub/")
    then extract_loop cands org'
    else
      let title := Py.or_empty (i_title item) in
      let snippet := Py.or_empty (i_snippet item) in
      let cands := cands ++ [mk_candidate link_l title snippet] in
      if (5 <=? length cands)%nat then cands else extract_loop cands org'
end.

Definition extract_candidates (org : list item) : list candidate :=
extract_loop [] org.

Definition gl_mapping : gmap string string :=
list_to_map
  [("united states", "us"); ("usa", "us"); ("u.s.", "us"); ("u.s.a", "us");
   ("pakistan", "pk"); ("india", "in"); ("nigeria", "ng"); ("philippines", "ph");
   ("bangladesh", "bd"); ("canada", "ca"); ("morocco", "ma"); ("albania", "al");
   ("venezuela", "ve"); ("united kingdom", "gb"); ("uk", "gb")].

Definition country_to_gl (country : string) : option string :=
let c := Py.lower (Py.strip country) in
if negb (Py.truthy c) then None else gl_mapping !! c.

(** *** Record processor *)

(** The test of the [except] branch on [str(e)]. *)
Definition retryable (msg : string) : bool :=
existsb (fun code => Py.contains code msg) ["429"; "500"; "502"; "503"; "504"].

Section Orchestrator.

(** The provider: what the call number [calls] answers to query [q]. *)
Variable provider : nat -> string -> response.

Definition search_serper (q : string) (gl : option string) (w : world) : response * world :=
  (provider (calls w) q, World (S (calls w)) (trace w ++ [Search_call q gl])).

(** The [while True] loop around one query; [attempts] and [backoff]
are its two counters, and the loop is left by [break] at the latest
when [attempts] reaches 3. *)
Equations search_with_retries (idn : identity) (q : string) (attempts : nat) (backoff : Z)
(w : world) (l : locals) : world * locals by wf (3 - attempts) lt :=
  search_with_retries idn q attempts backoff w l with search_serper q (id_gl idn) w => {
| (Payload items, w1) =>
    let cands := extract_candidates items in
    let all_candidates :=
      if is_nil (all_candidates l) && negb (is_nil cands)
      then cands else all_candidates l in
    match pick_candidate (id_name idn) (id_first_name idn) (id_loc_tokens idn)
            (id_skill_tokens idn) cands (id_role_tokens idn) with
    | Some cand => (w1, Locals (Py.or_empty (url cand)) matched q all_candidates)
    | None => (w1, Locals (best_url l) (match_status l) (query_used l) all_candidates)
    end
| (Raises msg, w1) with retryable msg, lt_dec (S attempts) 3 => {
    | true, left _ =>
        search_with_retries idn q (S attempts) (backoff * 2)
                (log (Backoff_sleep (Z.min 60 backoff)) w1) l
    | _, _ => (w1, Locals (best_url l) error q (all_candidates l)) } }.
Next Obligation. clear - l0. lia. Qed.

(** [for q in queries] *)
Fixpoint query_loop (idn : identity) (queries : list string) (w : world) (l : locals)
: world * locals :=
  match queries with
  | [] => (w, l)
  | q :: queries' =>
  let w := log Politeness_sleep w in
  let '(w, l) := search_with_retries idn q 0 5 w l in
  match match_status l with
  | matched | error => (w, l)
  | _ => query_loop idn queries' w l
  end
  end.

(** The body of the loop over records, from [build_queries] on. *)
Definition process_record (r : profile) (w : world) : world * row :=
  let name := p_name r in
  let location := p_location r in
  let role := p_role r in
  let country := p_country r in
  let skills := p_skills r in
  let queries := build_queries name location skills role country (p_primary_category r) in
  let first_skill := hd "" skills in
  let second_skill := nth 1 skills "" in
  let loc_tokens := tokenize_location location ++ tokenize_location country in
  let skill_tokens := tokenize_skill first_skill ++ tokenize_skill second_skill in
  let role_tokens := tokenize_skill role in
  let first_name := first_name_from name in
  let gl := country_to_gl country in
  let idn := Identity name first_name loc_tokens skill_tokens role_tokens gl in
  let l := Locals "" not_found "" [] in
  let '(w, l) :=
if is_nil queries then (w, l)
else
  let '(w, l) := query_loop idn queries w l in
  match match_status l with
  | not_found =>
      if negb (is_nil (all_candidates l)) then
        (w, Locals (best_url l) needs_review
              (if negb (Py.truthy (query_used l)) && negb (is_nil queries)
               then hd "" queries else query_used l)
              (all_candidates l))
      else (w, l)
  | _ => (w, l)
  end in
  (w, Row (p_external_id r) name location (best_url l) (match_status l) (query_used l)
      (take 5 (all_candidates l))).

(** [for idx in range(...)] with the rows and counters it builds. *)
Fixpoint records_loop (records : list profile) (w : world) (out_rows : list row)
(cnt : counts) : world * list row * counts :=
  match records with
  | [] => (w, out_rows, cnt)
  | r :: records' =>
  let '(w, out) := process_record r w in
  let out_rows := out_rows ++ [out] in
  let cnt := count_status (row_match_status out) (count_processed cnt) in
  let w :=
    if (processed cnt mod 100 =? 0)%nat
    then log (Save_checkpoint (length out_rows)) w else w in
  records_loop records' w out_rows cnt
  end.

Definition process_records (records : list profile) (start : nat) (limit : option Z)
(w : world) : world * list row * counts :=
  records_loop (record_range records start limit) w [] (Counts 0 0 0 0 0).

End Orchestrator.

End FindLinkedins.

(** ** find_linkedins_cse.py: the candidate selector *)

Module FindLinkedinsCse.

(** "Bonus for multiple name parts matching" *)
Definition name_bonus (full_name_lower combined_text : string) : Z :=
let name_parts := Py.split full_name_lower in
if (1 <? length name_parts)%nat then
  let matching_parts :=
    Py.count (fun part => (1 <? String.length part)%nat && Py.contains part combined_text)
             name_parts in
  if (matching_parts >=? 2)%Z then 4
  else if (matching_parts =? 1)%Z && (2 <? String.length (nth 1 name_parts ""))%nat then 1
  else 0
else 0.

Definition location_bonus (loc_tokens : list string) (combined_text : string) : Z :=
let location_matches :=
  Py.count (fun t => Py.contains (Py.lower t) combined_text) loc_tokens in
if (location_matches >? 0)%Z then Z.min (location_matches * 2) 4 else 0.

Definition context_keywords : list string :=
["freelancer"; "upwork"; "consultant"; "self employed"].

Definition context_bonus (combined_text : string) : Z :=
if existsb (fun k => Py.contains k combined_text) context_keywords then 2 else 0.

(** "URL pattern matching": the name-part test comes first here. *)
Definition url_bonus (fn full_name_lower url : string) : Z :=
if existsb (fun part => Py.contains part url)
     (List.filter (fun part => (2 <? String.length part)%nat)
                  (Py.split full_name_lower)) then 2
else if Py.startswith url ("https://www.linkedin.com/in/" +:+ fn) then 1
else 0.

Definition support_bonus (tokens : list string) (combined_text : string) : Z :=
if negb (Nat.eqb (length tokens) 0)
   && existsb (fun t => Py.contains (Py.lower t) combined_text) tokens then 1 else 0.

Definition score_candidate (full_name first_name : string)
  (loc_tokens skill_tokens role_tokens : list string) (cand : candidate) : option Z :=
let fn := Py.lower first_name in
let full_name_lower := Py.lower full_name in
let title := Py.lower (Py.or_empty (title cand)) in
let snippet := Py.lower (Py.or_empty (snippet cand)) in
let url := Py.lower (Py.or_empty (url cand)) in
let combined_text := title +:+ " " +:+ snippet in
let score := 0%Z in
if Py.contains fn title then
  let score := (score + 3)%Z in
  let score := (score + name_bonus full_name_lower combined_text)%Z in
  let score := (score + location_bonus loc_tokens combined_text)%Z in
  let score := (score + context_bonus combined_text)%Z in
  let score := (score + url_bonus fn full_name_lower url)%Z in
  let score := (score + support_bonus role_tokens combined_text)%Z in
  let score := (score + support_bonus skill_tokens combined_text)%Z in
  Some score
else None.

Definition pick_step (full_name first_name : string)
  (loc_tokens skill_tokens role_tokens : list string) (st : best) (cand : candidate) : best :=
let '(best_candidate, best_score) := st in
match score_candidate full_name first_name loc_tokens skill_tokens role_tokens cand with
| None => (best_candidate, best_score)
| Some score =>
    if (score >? best_score)%Z then (Some cand, score) else (best_candidate, best_score)
end.

Definition pick_best_linkedin_candidate (full_name first_name : string)
  (loc_tokens skill_tokens : list string) (candidates : list candidate)
  (role_tokens : list string) : option candidate :=
let '(best_candidate, best_score) :=
  fold_left (pick_step full_name first_name loc_tokens skill_tokens role_tokens)
            candidates (None, 0%Z) in
if (best_score >=? 5)%Z then best_candidate else None.

(** *** Query synthesizer *)

(** "For truncated names, try first name variations first" *)
Definition truncated_stage (first_q first_only loc_q top_skill : string) : list string :=
(if Py.truthy loc_q then
   [first_q +:+ " freelancer " +:+ loc_q +:+ site_suffix;
    first_q +:+ " " +:+ loc_q +:+ site_suffix]
 else [])
++ [first_only +:+ " freelancer " +:+ loc_q +:+ site_suffix]
++ (if Py.truthy top_skill && Py.truthy loc_q then
      [first_q +:+ " " +:+ top_skill +:+ " " +:+ loc_q +:+ site_suffix]
    else []).

(** "Original name queries", the part under [if loc_q] *)
Definition full_name_stage (name_q loc_q role_q top_skill : string) : list string :=
[name_q +:+ " freelancer " +:+ loc_q +:+ site_suffix;
 name_q +:+ " " +:+ loc_q +:+ site_suffix]
++ (if Py.truthy role_q then
      [name_q +:+ " " +:+ role_q +:+ " " +:+ loc_q +:+ site_suffix]
    else [])
++ (if Py.truthy top_skill then
      [name_q +:+ " " +:+ top_skill +:+ " " +:+ loc_q +:+ site_suffix]
    else []).

Definition assemble_queries (name location : string) (skills : list string)
  (role country : string) : list string :=
let name_q := name_q_of name in
let loc_q := normalize_whitespace location in
let country_q := normalize_whitespace country in
let role_q := normalize_whitespace role in
let top_skill := top_skill_of skills in
let first_only := first_name_from name in
let first_q := first_q_of name in
let queries : list string := [] in
let queries :=
  queries ++ (if is_truncated name && Py.truthy first_q
              then truncated_stage first_q first_only loc_q top_skill else []) in
let queries :=
  queries ++ (if Py.truthy name_q then
                (if Py.truthy loc_q
                 then full_name_stage name_q loc_q role_q top_skill else [])
                ++ (if Py.truthy country_q && negb (String.eqb country_q loc_q)
                    then [name_q +:+ " " +:+ country_q +:+ site_suffix] else [])
                ++ [name_q +:+ site_suffix]
              else []) in
queries.

Definition build_cse_queries (name location : string) (skills : list string)
  (role country : string) : list string :=
take 6 (dedupe (assemble_queries name location skills role country)).

(** *** Candidate extractor *)

Fixpoint extract_loop (candidates : list candidate) (items : list item) : list candidate :=
match items with
| [] => candidates
| item :: items' =>
    let link := Py.or_empty (i_link item) in
    let link_clean :=
      hd "" (Py.split_on "#"%char (hd "" (Py.split_on "?"%char (Py.lower link)))) in
    if negb (Py.startswith link_clean "https://www.linkedin.com/in/"
             || Py.startswith link_clean "https://linkedin.com/in/")
    then extract_loop candidates items'
    else
      let title := Py.or_empty (i_title item) in
      let snippet := Py.or_empty (i_snippet item) in
      let candidates := candidates ++ [mk_candidate link_clean title snippet] in
      if (5 <=? length candidates)%nat then candidates else extract_loop candidates items'
end.

Definition extract_linkedin_candidates (items : list item) : list candidate :=
extract_loop [] items.

(** *** Record processor *)

Section Orchestrator.

Variable provider : nat -> string -> response.

Definition search_google_cse (q : string) (w : world) : response * world :=
  (provider (calls w) q, World (S (calls w)) (trace w ++ [Search_call q None])).

(** The [try] statement of the query loop: one call, no second try. *)
Definition run_query (idn : identity) (q : string) (w : world) (l : locals)
: world * locals :=
  match search_google_cse q w with
  | (Payload items, w1) =>
  let candidates := extract_linkedin_candidates items in
  let all_candidates :=
    if is_nil (all_candidates l) && negb (is_nil candidates)
    then candidates else all_candidates l in
  match pick_best_linkedin_candidate (id_name idn) (id_first_name idn)
          (id_loc_tokens idn) (id_skill_tokens idn) candidates (id_role_tokens idn) with
  | Some best_candidate =>
      (w1, Locals (Py.or_empty (url best_candidate)) matched q all_candidates)
  | None => (w1, Locals (best_url l) (match_status l) (query_used l) all_candidates)
  end
  | (Raises msg, w1) => (w1, Locals (best_url l) error q (all_candidates l))
  end.

Fixpoint query_loop (idn : identity) (queries : list string) (w : world) (l : locals)
: world * locals :=
  match queries with
  | [] => (w, l)
  | q :: queries' =>
  let w := log Politeness_sleep w in
  let '(w, l) := run_query idn q w l in
  match match_status l with
  | matched | error => (w, l)
  | _ => query_loop idn queries' w l
  end
  end.

Definition process_record (r : profile) (w : world) : world * row :=
  let name := p_name r in
  let location := p_location r in
  let role := p_role r in
  let country := p_country r in
  let skills := p_skills r in
  let queries := build_cse_queries name location skills role country in
  let first_skill := hd "" skills in
  let second_skill := nth 1 skills "" in
  let loc_tokens := tokenize_location location in
  let skill_tokens := tokenize_skill first_skill ++ tokenize_skill second_skill in
  let role_tokens := tokenize_skill role in
  let first_name := first_name_from name in
  let idn := Identity name first_name loc_tokens skill_tokens role_tokens None in
  let l := Locals "" not_found "" [] in
  let '(w, l) :=
if is_nil queries then (w, l)
else
  let '(w, l) := query_loop idn queries w l in
  match match_status l with
  | not_found =>
      if negb (is_nil (all_candidates l)) then
        (w, Locals (best_url l) needs_review
              (if negb (Py.truthy (query_used l)) && negb (is_nil queries)
               then hd "" queries else query_used l)
              (all_candidates l))
      else (w, l)
  | _ => (w, l)
  end in
  (w, Row (p_external_id r) name location (best_url l) (match_status l) (query_used l)
      (take 5 (all_candidates l))).

Fixpoint records_loop (records : list profile) (w : world) (out_rows : list row)
(cnt : counts) : world * list row * counts :=
  match records with
  | [] => (w, out_rows, cnt)
  | r :: records' =>
  let '(w, out) := process_record r w in
  let out_rows := out_rows ++ [out] in
  let cnt := count_status (row_match_status out) (count_processed cnt) in
  let w :=
    if (processed cnt mod 50 =? 0)%nat
    then log (Save_checkpoint (length out_rows)) w else w in
  records_loop records' w out_rows cnt
  end.

Definition process_records (records : list profile) (start : nat) (limit : option Z)
(w : world) : world * list row * counts :=
  records_loop (record_range records start limit) w [] (Counts 0 0 0 0 0).

End Orchestrator.

End FindLinkedinsCse.

(** ** Vocabulary of the properties *)

Section SelectionVocabulary.

Variable score : candidate -> option Z.

(** The update of [best_candidate] and [best_score], for any scoring. *)
Definition select_step (st : best) (cand : candidate) : best :=
  let '(best_candidate, best_score) := st in
  match score cand with
  | None => (best_candidate, best_score)
  | Some s => if (s >? best_score)%Z then (Some cand, s) else (best_candidate, best_score)
  end.

(** [cand] is the first candidate of [cands] to reach the highest score
    [s] among the scored candidates. *)
Definition first_max (cands : list candidate) (cand : candidate) (s : Z) : Prop :=
  exists pre post,
    cands = pre ++ cand :: post
    /\ score cand = Some s
    /\ (forall x t, x ∈ pre -> score x = Some t -> (t < s)%Z)
    /\ (forall x t, x ∈ post -> score x = Some t -> (t <= s)%Z).

(** The loop and the threshold test that ends both selectors. *)
Definition select (cands : list candidate) : option candidate :=
  let '(best_candidate, best_score) := fold_left select_step cands (None, 0%Z) in
  if (best_score >=? 5)%Z then best_candidate else None.

End SelectionVocabulary.

(** The first-name test of both loop bodies: [fn in title]. *)
Definition gate (first_name : string) (cand : candidate) : bool :=
  Py.contains (Py.lower first_name) (Py.lower (Py.or_empty (title cand))).

(** Two search results for the record "Amna M." of Lahore. *)
Definition amna_profile_hit : candidate :=
  mk_candidate "https://www.linkedin.com/in/amna-mubarak-ab3302199"
               "Amna Mubarak - Freelancer - Upwork" "Lahore, Pakistan. Market research.".

Definition other_profile_hit : candidate :=
  mk_candidate "https://www.linkedin.com/in/someone" "Mubarak Ali - Consultant"
               "Lahore, Pakistan. Market research freelancer.".

(** [f"{title} {snippet}"] of a candidate, lower-cased as in the loop body. *)
Definition combined_text_of (cand : candidate) : string :=
  Py.lower (Py.or_empty (title cand)) +:+ " " +:+ Py.lower (Py.or_empty (snippet cand)).

(** The name parts of length above 1 found in the text. *)
Definition matching_parts_of (full_name_lower combined_text : string) : list string :=
  List.filter (fun part => (1 <? String.length part)%nat && Py.contains part combined_text)
              (Py.split full_name_lower).

(** Some name part of length above 2 occurs in the URL. *)
Definition part_in_url (full_name_lower url : string) : Prop :=
  exists part, part ∈ Py.split full_name_lower
               /\ (2 < String.length part)%nat /\ Py.contains part url = true.

(** Keep the first occurrence of each string, in order: the head stays and
    its later copies go. *)
Fixpoint first_occurrences (l : list string) : list string :=
  match l with
  | [] => []
  | q :: l' => q :: List.filter (fun x => negb (String.eqb x q)) (first_occurrences l')
  end.

(** [x not in seen] *)
Definition unseen (seen : gset string) (x : string) : bool := bool_decide (x ∉ seen).

(** What a successful call does with its payload, in both files. *)
Definition on_payload (pick : list candidate -> option candidate) (cands : list candidate)
    (q : string) (l : locals) : locals :=
  let all_candidates :=
    if is_nil (all_candidates l) && negb (is_nil cands) then cands else all_candidates l in
  match pick cands with
  | Some cand => Locals (Py.or_empty (url cand)) matched q all_candidates
  | None => Locals (best_url l) (match_status l) (query_used l) all_candidates
  end.

(** What the [except] branch does when it gives up. *)
Definition on_error (q : string) (l : locals) : locals :=
  Locals (best_url l) error q (all_candidates l).

(** The selectors applied to the identity of a record. *)
Definition pick_for (idn : identity) (cands : list candidate) : option candidate :=
  FindLinkedins.pick_candidate (id_name idn) (id_first_name idn) (id_loc_tokens idn)
    (id_skill_tokens idn) cands (id_role_tokens idn).

Definition pick_cse_for (idn : identity) (cands : list candidate) : option candidate :=
  FindLinkedinsCse.pick_best_linkedin_candidate (id_name idn) (id_first_name idn)
    (id_loc_tokens idn) (id_skill_tokens idn) cands (id_role_tokens idn).

(** A query either ends the record ([matched] or [error]) or leaves its
    status and [query_used] as they were. *)
Definition settles_or_keeps (l l' : locals) : Prop :=
  match_status l' = matched \/ match_status l' = error
  \/ (match_status l' = match_status l /\ query_used l' = query_used l).

(** The record of the scenarios: a truncated name, a city and a country. *)
Definition amna : profile :=
  Profile "u1" "Amna M." "Lahore, Pakistan" "" "Pakistan" "" ["Market Research"].

(** A result item with a profile link of somebody else, and its candidate. *)
Definition zed_item : item :=
  Item (Some "https://www.linkedin.com/in/zed?trk=x") (Some "Zed") (Some "nothing").

Definition zed : candidate :=
  mk_candidate "https://www.linkedin.com/in/zed" "Zed" "nothing".

(** Nothing for the first call, one profile of somebody else for the second,
    nothing afterwards. *)
Definition second_call_finds (n : nat) (q : string) : response :=
  match n with
  | 1 => Payload [zed_item]
  | _ => Payload []
  end.

(** Providers that fail every call: rate-limited, with a 500 status, with a
    501 status, and with a 400 status whose text happens to hold the digits
    500. *)
Definition always_429 (n : nat) (q : string) : response :=
  Raises "Google CSE error 429: quota exceeded".

Definition always_500 (n : nat) (q : string) : response :=
  Raises "Serper error 500: Internal Server Error".

Definition always_501 (n : nat) (q : string) : response :=
  Raises "Serper error 501: Not Implemented".

Definition always_400 (n : nat) (q : string) : response :=
  Raises "Serper error 400: at most 500 characters per query".

(** What [process_record] derives from that record, in [find_linkedins.py]. *)
Definition amna_identity : identity :=
  Identity "Amna M." "Amna" ["Lahore"; "Pakistan"; "Pakistan"] ["Market"; "Research"] []
    (Some "pk").

(** [s] starts with a whitespace character. *)
Definition starts_space (s : string) : bool :=
  match s with
  | EmptyString => false
  | String c _ => Py.is_space c
  end.

(** No character of [s] is a whitespace character. *)
Fixpoint spaceless (s : string) : bool :=
  match s with
  | EmptyString => true
  | String c s' => negb (Py.is_space c) && spaceless s'
  end.

(** What [str.split()] returns: non-empty strings without whitespace. *)
Definition word (t : string) : Prop := Py.truthy t = true /\ spaceless t = true.

(** ** Vocabulary of the further properties *)

(** The maximal runs of characters that are not separators: what
    [str.split()] returns when the separators are the whitespace
    characters. *)
Definition fields (sep : ascii -> bool) (s : string) : list string :=
  let '(w, ws) := Py.words_aux sep s in Py.cons_word w ws.

(** Every character of [s] passes the test [p]. *)
Fixpoint string_forall (p : ascii -> bool) (s : string) : bool :=
  match s with
  | EmptyString => true
  | String c s' => p c && string_forall p s'
  end.

(** A non-empty string without separator characters. *)
Definition field_of (sep : ascii -> bool) (t : string) : Prop :=
  Py.truthy t = true /\ string_forall (fun c => negb (sep c)) t = true.

(** A query that ends with the site restriction. *)
Definition site_restricted (q : string) : Prop :=
  exists body, q = body +:+ site_suffix.

(** [s.split(c)[0]]: the text before the first [c]. *)
Fixpoint before (c : ascii) (s : string) : string :=
  match s with
  | EmptyString => EmptyString
  | String d s' => if Ascii.eqb d c then EmptyString else String d (before c s')
  end.

(** The link as both extractors clean it: lower case, cut at the first
    question mark, then at the first hash. *)
Definition canonical_link (link : string) : string :=
  before "#"%char (before "?"%char (Py.lower link)).

Definition profile_prefixes : list string :=
  ["https://www.linkedin.com/in/"; "https://linkedin.com/in/";
   "https://www.linkedin.com/pub/"; "https://linkedin.com/pub/"].

Definition profile_prefixes_cse : list string :=
  ["https://www.linkedin.com/in/"; "https://linkedin.com/in/"].

(** The candidate an item gives when its cleaned link starts with one of
    the prefixes. *)
Definition candidate_of (prefixes : list string) (it : item) : option candidate :=
  let link := canonical_link (Py.or_empty (i_link it)) in
  if existsb (Py.startswith link) prefixes
  then Some (mk_candidate link (Py.or_empty (i_title it)) (Py.or_empty (i_snippet it)))
  else None.

(** A cleaned profile URL: lower case, no query string, no fragment, and
    one of the prefixes at its start. *)
Definition clean_profile_url (prefixes : list string) (u : string) : Prop :=
  Py.lower u = u
  /\ string_forall (fun c => negb (Ascii.eqb c "?"%char)) u = true
  /\ string_forall (fun c => negb (Ascii.eqb c "#"%char)) u = true
  /\ exists p, p ∈ prefixes /\ Py.startswith u p = true.

(** ** Vocabulary of the traces and rows *)

Definition is_call (e : event) : bool :=
  match e with Search_call _ _ => true | _ => false end.

Definition is_sleep (e : event) : bool :=
  match e with Politeness_sleep | Backoff_sleep _ => true | _ => false end.

(** The number of search calls of a trace. *)
Definition ncalls (t : list event) : nat := length (List.filter is_call t).

(** Every search call of the trace comes directly after a sleep; [slept]
    tells whether the event before the trace was one. *)
Fixpoint paced_from (slept : bool) (t : list event) : bool :=
  match t with
  | [] => true
  | e :: t' => (if is_call e then slept else true) && paced_from (is_sleep e) t'
  end.

Definition paced (t : list event) : bool := paced_from false t.

(** The events of [k] calls for one query: the calls, and between two of
    them the backoff sleep, whose length doubles. *)
Fixpoint attempts_trace (q : string) (gl : option string) (backoff : Z) (k : nat)
  : list event :=
  match k with
  | 0 => []
  | S k' =>
      Search_call q gl ::
        match k' with
        | 0 => []
        | S _ => Backoff_sleep (Z.min 60 backoff) :: attempts_trace q gl (backoff * 2) k'
        end
  end.

(** The events of one pass of the query loop that makes [k] calls. *)
Definition query_trace (gl : option string) (q : string) (k : nat) : list event :=
  Politeness_sleep :: attempts_trace q gl 5 k.

(** The events of a record whose first [length ks] queries are tried, the
    i-th with [ks !! i] calls. *)
Definition record_trace (gl : option string) (queries : list string) (ks : list nat)
  : list event :=
  concat (zip_with (query_trace gl) queries ks).

(** The last query tried when [n] queries have been. *)
Definition last_tried (queries : list string) (n : nat) : option string :=
  match n with 0 => None | S m => queries !! m end.

(** A candidate with a cleaned profile URL, as the extractors build them. *)
Definition profile_candidate (prefixes : list string) (cand : candidate) : Prop :=
  exists u, url cand = Some u /\ clean_profile_url prefixes u.

(** The rows of [checkpoint] events, in order. *)
Definition checkpoint_rows (e : event) : option nat :=
  match e with Save_checkpoint n => Some n | _ => None end.

(** The query loop and the rest of the loop body, for any way [run] of
    running one query. *)
Section RecordBody.

Variable run : string -> world -> locals -> world * locals.

Fixpoint query_loop_of (queries : list string) (w : world) (l : locals) : world * locals :=
  match queries with
  | [] => (w, l)
  | q :: queries' =>
      let '(w, l) := run q (log Politeness_sleep w) l in
      match match_status l with
      | matched | error => (w, l)
      | _ => query_loop_of queries' w l
      end
  end.

Definition process_record_of (queries : list string) (r : profile) (w : world) : world * row :=
  let l := Locals "" not_found "" [] in
  let '(w, l) :=
    if is_nil queries then (w, l)
    else
      let '(w, l) := query_loop_of queries w l in
      match match_status l with
      | not_found =>
          if negb (is_nil (all_candidates l)) then
            (w, Locals (best_url l) needs_review
                  (if negb (Py.truthy (query_used l)) && negb (is_nil queries)
                   then hd "" queries else query_used l)
                  (all_candidates l))
          else (w, l)
      | _ => (w, l)
      end in
  (w, Row (p_external_id r) (p_name r) (p_location r) (best_url l) (match_status l)
        (query_used l) (take 5 (all_candidates l))).

End RecordBody.

(** The loop over the records, for any record body and checkpoint period. *)
Section RecordsLoop.

Variable process : profile -> world -> world * row.
Variable period : nat.

Fixpoint records_loop_of (records : list profile) (w : world) (out_rows : list row)
    (cnt : counts) : world * list row * counts :=
  match records with
  | [] => (w, out_rows, cnt)
  | r :: records' =>
      let '(w, out) := process r w in
      let out_rows := out_rows ++ [out] in
      let cnt := count_status (row_match_status out) (count_processed cnt) in
      let w :=
        if (processed cnt mod period =? 0)%nat
        then log (Save_checkpoint (length out_rows)) w else w in
      records_loop_of records' w out_rows cnt
  end.

End RecordsLoop.

(** What the two files derive from a record before the query loop. *)
Definition identity_of (r : profile) : identity :=
  Identity (p_name r) (first_name_from (p_name r))
    (tokenize_location (p_location r) ++ tokenize_location (p_country r))
    (tokenize_skill (hd "" (p_skills r)) ++ tokenize_skill (nth 1 (p_skills r) ""))
    (tokenize_skill (p_role r)) (FindLinkedins.country_to_gl (p_country r)).

Definition identity_cse_of (r : profile) : identity :=
  Identity (p_name r) (first_name_from (p_name r))
    (tokenize_location (p_location r))
    (tokenize_skill (hd "" (p_skills r)) ++ tokenize_skill (nth 1 (p_skills r) ""))
    (tokenize_skill (p_role r)) None.

Definition queries_of (r : profile) : list string :=
  FindLinkedins.build_queries (p_name r) (p_location r) (p_skills r) (p_role r)
    (p_country r) (p_primary_category r).

Definition queries_cse_of (r : profile) : list string :=
  FindLinkedinsCse.build_cse_queries (p_name r) (p_location r) (p_skills r) (p_role r)
    (p_country r).

(** At most five candidates, each with a cleaned profile URL. *)
Definition cands_ok (prefixes : list string) (cands : list candidate) : Prop :=
  Forall (profile_candidate prefixes) cands /\ (length cands <= 5)%nat.

(** A matched row rests on the answer to the last call, made for the
    row's query: a payload in which the selector picks a candidate with the
    row's URL; an error row on a last call that raised. *)
Definition justified (provider : nat -> string -> response) (gl : option string)
    (pick : list candidate -> option candidate) (extract : list item -> list candidate)
    (w' : world) (out : row) : Prop :=
  match row_match_status out with
  | matched =>
      exists items cand,
        last (trace w') = Some (Search_call (row_query_used out) gl)
        /\ provider (calls w' - 1)%nat (row_query_used out) = Payload items
        /\ pick (extract items) = Some cand
        /\ url cand = Some (linkedin_url out)
  | error =>
      exists msg,
        last (trace w') = Some (Search_call (row_query_used out) gl)
        /\ provider (calls w' - 1)%nat (row_query_used out) = Raises msg
  | _ => True
  end.

(** How the fields of a row go together, by status. *)
Definition row_consistent (prefixes : list string) (queries : list string) (out : row)
  : Prop :=
  match row_match_status out with
  | matched =>
      clean_profile_url prefixes (linkedin_url out)
      /\ row_query_used out ∈ queries /\ candidates_json out <> []
  | needs_review =>
      linkedin_url out = "" /\ row_query_used out = hd "" queries
      /\ candidates_json out <> []
  | not_found =>
      linkedin_url out = "" /\ row_query_used out = "" /\ candidates_json out = []
  | error => linkedin_url out = "" /\ row_query_used out ∈ queries
  end.

(** A search call of the trace carries a site-restricted query. *)
Definition restricted_call (e : event) : Prop :=
  match e with Search_call q _ => site_restricted q | _ => True end.

Definition status_eqb (s t : status) : bool :=
  match s, t with
  | matched, matched | needs_review, needs_review
  | not_found, not_found | error, error => true
  | _, _ => false
  end.

(** The number of rows with a given status. *)
Definition rows_with (s : status) (rows : list row) : nat :=
  length (List.filter (fun out => status_eqb (row_match_status out) s) rows).

(** The counters agree with the rows. *)
Definition counts_agree (cnt : counts) (rows : list row) : Prop :=
  processed cnt = length rows
  /\ n_matched cnt = rows_with matched rows
  /\ n_needs_review cnt = rows_with needs_review rows
  /\ n_not_found cnt = rows_with not_found rows
  /\ n_error cnt = rows_with error rows
  /\ processed cnt = (n_matched cnt + n_needs_review cnt + n_not_found cnt + n_error cnt)%nat.

(** The row of a record: its identifying fields, and fields that go
    together, with the prefixes and queries of the file. *)
Definition row_of_record (prefixes : list string) (queries_of : profile -> list string)
    (r : profile) (out : row) : Prop :=
  row_external_id out = p_external_id r
  /\ row_name out = p_name r
  /\ row_location out = p_location r
  /\ row_consistent prefixes (queries_of r) out
  /\ cands_ok prefixes (candidates_json out).

(** ** The fields of a record *)

(** A value of an input record: [None], a string, a list, or any other
    value (a number, a boolean, an object), which is given by its
    truthiness and its [str()]. *)
#[warnings="-register-all"]
Inductive value :=
| VNone
| VStr (s : string)
| VList (items : list value)
| VOther (truth : bool) (str : string).

(** [bool(v)] *)
Definition value_truthy (v : value) : bool :=
  match v with
  | VNone => false
  | VStr s => Py.truthy s
  | VList items => negb (is_nil items)
  | VOther truth _ => truth
  end.

(** [a or b] *)
Definition or_else (a b : value) : value := if value_truthy a then a else b.

(** [r.get(k)] *)
Definition record_get (r : gmap string value) (k : string) : value :=
  default VNone (r !! k).

Section FieldDerivation.

(** [str()] of a list. *)
Variable str_list : list value -> string.

(** [str(v)] *)
Definition py_str (v : value) : string :=
  match v with
  | VNone => "None"
  | VStr s => s
  | VList items => str_list items
  | VOther _ str => str
  end.

(** [str(r.get(k1) or r.get(k2) or "").strip()] and the like. *)
Definition field1 (r : gmap string value) (k1 : string) : string :=
  Py.strip (py_str (or_else (record_get r k1) (VStr ""))).

Definition field2 (r : gmap string value) (k1 k2 : string) : string :=
  Py.strip (py_str (or_else (or_else (record_get r k1) (record_get r k2)) (VStr ""))).

Definition field3 (r : gmap string value) (k1 k2 k3 : string) : string :=
  Py.strip (py_str (or_else (or_else (or_else (record_get r k1) (record_get r k2))
                               (record_get r k3)) (VStr ""))).

Definition field4 (r : gmap string value) (k1 k2 k3 k4 : string) : string :=
  Py.strip (py_str (or_else (or_else (or_else (or_else (record_get r k1) (record_get r k2))
                                        (record_get r k3)) (record_get r k4)) (VStr ""))).

(** "Derive name" *)
Definition derive_name (r : gmap string value) : string :=
  let name := field3 r "name" "full_name" "Short Name" in
  if negb (Py.truthy name) then
    let first := field3 r "First Name" "first_name" "first" in
    let last := field3 r "Last Name" "last_name" "last" in
    Py.strip (first +:+ " " +:+ last)
  else name.

(** "Derive location" *)
Definition derive_location (r : gmap string value) : string :=
  let location := field1 r "location" in
  if negb (Py.truthy location) then
    let city := field2 r "City" "city" in
    let state := field2 r "State" "state" in
    let country := field2 r "Country" "country" in
    let parts := List.filter Py.truthy [city; state; country] in
    Py.join ", " parts
  else location.

(** The delimiter of a skills string: "CSV may have comma or semicolon
    separated skills". *)
Definition skills_delim (skills_raw : string) : ascii :=
  if Py.contains ";" skills_raw then ";"%char else ","%char.

(** "Skills may be a list or comma-separated string" *)
Definition derive_skills (r : gmap string value) : list string :=
  let skills_raw := or_else (record_get r "skills") (record_get r "Skills") in
  match skills_raw with
  | VList items => map py_str (List.filter value_truthy items)
  | VStr s =>
      if Py.truthy s then
        let delim := skills_delim s in
        map Py.strip (List.filter (fun s => Py.truthy (Py.strip s)) (Py.split_on delim s))
      else []
  | _ => []
  end.

(** The fields the loop body of [process_records] works with; the primary
    category is derived in find_linkedins.py only. *)
Definition derive_fields (r : gmap string value) : profile :=
  let name := derive_name r in
  let location := derive_location r in
  let role := field4 r "title" "Title" "headline" "Headline" in
  let country := field2 r "Country" "country" in
  let primary_category := field2 r "primaryCategory" "primary_category" in
  let skills := derive_skills r in
  Profile
    (py_str (or_else (or_else (record_get r "externalId") (record_get r "external_id"))
               (VStr "")))
    name location role country primary_category skills.

End FieldDerivation.

(** [s] neither starts nor ends with a whitespace character. *)
Definition stripped (s : string) : Prop :=
  starts_space s = false /\ Py.rstrip s = s.

(** ** The answer of the search service *)

(** [str(n)] of a status code. *)
Definition str_nat (n : nat) : string :=
  DecimalString.NilEmpty.string_of_uint (Nat.to_uint n).

(** What the HTTP request of a search function does: [requests.post] or
    [requests.get] raises (a timeout, a refused connection), or returns a
    response with a status code, a body text, and what [resp.json()] does
    on it, which is to return the payload or to raise when the body is not
    JSON. *)
Inductive http_outcome :=
| Http_raises (msg : string)
| Http_response (status_code : nat) (text : string) (json : response).

(** [search_serper] and [search_google_cse] after the request is built: an
    exception of the request goes through; a response with a status of 400
    or more raises, with the status and the first 200 characters of the
    body in the message; for any other response [resp.json()] is returned,
    or its exception raised. *)
Definition serper_answer (o : http_outcome) : response :=
  match o with
  | Http_raises msg => Raises msg
  | Http_response status_code text json =>
      if (400 <=? status_code)%nat
      then Raises ("Serper error " +:+ str_nat status_code +:+ ": " +:+ substring 0 200 text)
      else json
  end.

Definition google_cse_answer (o : http_outcome) : response :=
  match o with
  | Http_raises msg => Raises msg
  | Http_response status_code text json =>
      if (400 <=? status_code)%nat
      then Raises ("Google CSE error " +:+ str_nat status_code +:+ ": "
                   +:+ substring 0 200 text)
      else json
  end.

(** A response whose status is one of those the retry test names. *)
Definition retry_status (o : http_outcome) : bool :=
  match o with
  | Http_raises _ => false
  | Http_response status_code _ _ =>
      existsb (Nat.eqb status_code) [429; 500; 502; 503; 504]%nat
  end.

(** A response with a status below 400 whose body is the payload [items]. *)
Definition ok_answer (items : list item) (o : http_outcome) : Prop :=
  exists status_code text,
    (status_code < 400)%nat /\ o = Http_response status_code text (Payload items).

(** A result item with the profile of the record "Amna M.". *)
Definition amna_item : item :=
  Item (Some "https://www.linkedin.com/in/amna-mubarak-ab3302199")
       (Some "Amna Mubarak - Freelancer - Upwork") (Some "Lahore, Pakistan. Market research.").

(** A service that answers 429 twice and then returns that item. *)
Definition rate_limited_twice (n : nat) (q : string) : http_outcome :=
  match n with
  | 0 | 1 => Http_response 429 "Too Many Requests" (Raises "Expecting value")
  | _ => Http_response 200 "1 result" (Payload [amna_item])
  end.

(** * Properties *)

(** ** Substrings and prefixes *)

Lemma prefix_app (p s : string) :
  String.prefix p s = true <-> exists rest, s = p +:+ rest.
Proof.
  revert s. induction p as [|c p IH]; intros s.
  - destruct s; simpl; (split; [intros _; by eexists | by intros _]).
  - destruct s as [|d s]; simpl.
    + split; [by intros ? | intros [rest Hr]; discriminate].
    + destruct (ascii_dec c d) as [->|Hne].
      * rewrite IH. split; intros [rest Hr]; exists rest.
        -- by rewrite Hr.
        -- by injection Hr.
      * split; [by intros ? | intros [rest Hr]; by injection Hr].
Qed.

Lemma contains_spec (needle hay : string) :
  Py.contains needle hay = true <-> exists pre post, hay = pre +:+ needle +:+ post.
Proof.
  induction hay as [|c hay IH].
  - cbn [Py.contains]. rewrite orb_false_r, prefix_app. split.
    + intros [rest Hr]. by exists "", rest.
    + intros [pre [post Hp]]. destruct pre; simpl in Hp; [by exists post | discriminate].
  - cbn [Py.contains]. rewrite orb_true_iff, prefix_app, IH. split.
    + intros [[rest Hr] | [pre [post Hp]]].
      * by exists "", rest.
      * exists (String c pre), post. simpl. by rewrite Hp.
    + intros [pre [post Hp]]. destruct pre as [|d pre]; simpl in Hp.
      * left. by exists post.
      * right. exists pre, post. by injection Hp.
Qed.

Lemma contains_empty (hay : string) : Py.contains "" hay = true.
Proof. apply contains_spec. by exists "", hay. Qed.

(** ** The selection loop *)

Section SelectionLoop.

Variable score : candidate -> option Z.

Lemma select_keep (cands : list candidate) (b : option candidate) (s : Z) :
  (forall x t, x ∈ cands -> score x = Some t -> (t <= s)%Z) ->
  fold_left (select_step score) cands (b, s) = (b, s).
Proof.
  induction cands as [|x cands IH]; intros Hle; [done|]. simpl.
  destruct (score x) as [t|] eqn:Hx.
  - assert (t <= s)%Z as Ht by (eapply Hle; [left | done]).
    destruct (Z.gtb_spec t s); [lia|]. apply IH. intros y u Hy. apply Hle. by right.
  - apply IH. intros y u Hy. apply Hle. by right.
Qed.

Lemma select_below (cands : list candidate) (b : option candidate) (s0 s : Z) :
  (s0 < s)%Z ->
  (forall x t, x ∈ cands -> score x = Some t -> (t < s)%Z) ->
  exists b' s', fold_left (select_step score) cands (b, s0) = (b', s') /\ (s' < s)%Z.
Proof.
  revert b s0. induction cands as [|x cands IH]; intros b s0 Hs0 Hlt; simpl.
  - by exists b, s0.
  - assert (forall y u, y ∈ cands -> score y = Some u -> (u < s)%Z) as Hrest
      by (intros y u Hy; apply Hlt; by right).
    destruct (score x) as [t|] eqn:Hx; [|by apply IH].
    assert (t < s)%Z as Ht by (eapply Hlt; [left | done]).
    destruct (t >? s0)%Z; by apply IH.
Qed.

Lemma select_first_max (cands : list candidate) (cand : candidate) (s : Z) :
  first_max score cands cand s -> (0 < s)%Z ->
  fold_left (select_step score) cands (None, 0%Z) = (Some cand, s).
Proof.
  intros (pre & post & -> & Hc & Hpre & Hpost) Hs.
  rewrite fold_left_app.
  destruct (select_below pre None 0 s Hs Hpre) as (b' & s' & -> & Hs').
  simpl. rewrite Hc. destruct (Z.gtb_spec s s'); [|lia].
  by apply select_keep.
Qed.

(** What the loop has in hand after any list of candidates. *)
Lemma select_invariant (cands : list candidate) (b : option candidate) (s : Z) :
  fold_left (select_step score) cands (None, 0%Z) = (b, s) ->
  (b = None /\ s = 0%Z /\ forall x t, x ∈ cands -> score x = Some t -> (t <= 0)%Z)
  \/ (exists cand, b = Some cand /\ first_max score cands cand s /\ (0 < s)%Z).
Proof.
  revert b s. induction cands as [|x cands IH] using rev_ind; intros b s.
  - simpl. intros [= <- <-]. left. repeat split. intros x t Hx. by apply elem_of_nil in Hx.
  - rewrite fold_left_app. simpl.
    destruct (fold_left (select_step score) cands (None, 0%Z)) as [b0 s0] eqn:Hfold.
    specialize (IH b0 s0 eq_refl). simpl.
    destruct (score x) as [t|] eqn:Hx.
    + destruct (Z.gtb_spec t s0) as [Hgt|Hle]; intros [= <- <-].
      * right. exists x. split; [done|]. split.
        -- exists cands, []. repeat split; [done| |].
           ++ intros y u Hy Hu. destruct IH as [(_ & -> & H0) | (c & _ & Hfm & _)].
              ** specialize (H0 y u Hy Hu). lia.
              ** destruct Hfm as (pre & post & -> & Hc & Hpre & Hpost).
                 apply elem_of_app in Hy as [Hy|Hy].
                 --- specialize (Hpre y u Hy Hu). lia.
                 --- apply elem_of_cons in Hy as [->|Hy].
                     +++ rewrite Hc in Hu. injection Hu as <-. lia.
                     +++ specialize (Hpost y u Hy Hu). lia.
           ++ intros y u Hy. by apply elem_of_nil in Hy.
        -- destruct IH as [(_ & -> & _) | (c & _ & _ & H0)]; lia.
      * destruct IH as [(-> & -> & H0) | (c & -> & Hfm & Hpos)].
        -- left. repeat split. intros y u Hy Hu.
           apply elem_of_app in Hy as [Hy|Hy]; [by eapply H0|].
           apply list_elem_of_singleton in Hy as ->. rewrite Hx in Hu. injection Hu as <-. lia.
        -- right. exists c. repeat split; [|done].
           destruct Hfm as (pre & post & -> & Hc & Hpre & Hpost).
           exists pre, (post ++ [x]). repeat split; [by rewrite <- app_assoc |done|done|].
           intros y u Hy Hu. apply elem_of_app in Hy as [Hy|Hy]; [by eapply Hpost|].
           apply list_elem_of_singleton in Hy as ->. rewrite Hx in Hu. injection Hu as <-. lia.
    + intros [= <- <-].
      destruct IH as [(-> & -> & H0) | (c & -> & Hfm & Hpos)].
      * left. repeat split. intros y u Hy Hu.
        apply elem_of_app in Hy as [Hy|Hy]; [by eapply H0|].
        apply list_elem_of_singleton in Hy as ->. congruence.
      * right. exists c. repeat split; [|done].
        destruct Hfm as (pre & post & -> & Hc & Hpre & Hpost).
        exists pre, (post ++ [x]). repeat split; [by rewrite <- app_assoc |done|done|].
        intros y u Hy Hu. apply elem_of_app in Hy as [Hy|Hy]; [by eapply Hpost|].
        apply list_elem_of_singleton in Hy as ->. congruence.
Qed.

Lemma select_some (cands : list candidate) (cand : candidate) :
  select score cands = Some cand <-> exists s, first_max score cands cand s /\ (5 <= s)%Z.
Proof.
  unfold select. split.
  - destruct (fold_left (select_step score) cands (None, 0%Z)) as [b s] eqn:Hfold.
    destruct (Z.geb_spec s 5) as [Hge|Hlt]; [|done]. intros ->.
    apply select_invariant in Hfold as [(? & _) | (c & [= <-] & Hfm & _)]; [done|].
    by exists s.
  - intros (s & Hfm & Hs). rewrite (select_first_max cands cand s Hfm) by lia.
    by destruct (Z.geb_spec s 5); [|lia].
Qed.

Lemma select_none (cands : list candidate) :
  select score cands = None <-> forall x t, x ∈ cands -> score x = Some t -> (t < 5)%Z.
Proof.
  unfold select. split.
  - destruct (fold_left (select_step score) cands (None, 0%Z)) as [b s] eqn:Hfold.
    apply select_invariant in Hfold as [(-> & -> & H0) | (c & -> & Hfm & Hpos)].
    + intros _ x t Hx Ht. specialize (H0 x t Hx Ht). lia.
    + destruct (Z.geb_spec s 5) as [Hge|Hlt]; [done|]. intros _ x t Hx Ht.
      destruct Hfm as (pre & post & -> & Hc & Hpre & Hpost).
      apply elem_of_app in Hx as [Hx|Hx]; [specialize (Hpre x t Hx Ht); lia|].
      apply elem_of_cons in Hx as [->|Hx]; [|specialize (Hpost x t Hx Ht); lia].
      rewrite Hc in Ht. injection Ht as <-. lia.
  - intros Hall.
    destruct (fold_left (select_step score) cands (None, 0%Z)) as [b s] eqn:Hfold.
    apply select_invariant in Hfold as [(-> & -> & H0) | (c & -> & Hfm & Hpos)].
    + by destruct (0 >=? 5)%Z.
    + destruct (Z.geb_spec s 5) as [Hge|Hlt]; [|done].
      destruct Hfm as (pre & post & -> & Hc & _).
      assert (s < 5)%Z; [|lia]. apply (Hall c s); [|done].
      apply elem_of_app. right. by left.
Qed.

End SelectionLoop.

Lemma pick_candidate_select full_name first_name loc_tokens skill_tokens cands role_tokens :
  FindLinkedins.pick_candidate full_name first_name loc_tokens skill_tokens cands role_tokens
  = select (FindLinkedins.score_candidate full_name first_name loc_tokens skill_tokens role_tokens)
           cands.
Proof. reflexivity. Qed.

Lemma pick_best_linkedin_candidate_select
    full_name first_name loc_tokens skill_tokens cands role_tokens :
  FindLinkedinsCse.pick_best_linkedin_candidate
    full_name first_name loc_tokens skill_tokens cands role_tokens
  = select (FindLinkedinsCse.score_candidate full_name first_name loc_tokens skill_tokens
              role_tokens) cands.
Proof. reflexivity. Qed.

(** ** The candidate selector *)

Lemma score_candidate_gate full_name first_name loc_tokens skill_tokens role_tokens cand :
  (is_Some (FindLinkedins.score_candidate full_name first_name loc_tokens skill_tokens
              role_tokens cand) <-> gate first_name cand = true)
  /\ (is_Some (FindLinkedinsCse.score_candidate full_name first_name loc_tokens skill_tokens
                 role_tokens cand) <-> gate first_name cand = true).
Proof.
  unfold FindLinkedins.score_candidate, FindLinkedinsCse.score_candidate, gate.
  destruct (Py.contains _ _); split; split; intros H; try done; by destruct H.
Qed.

Lemma first_max_elem score cands cand s :
  first_max score cands cand s -> cand ∈ cands /\ score cand = Some s.
Proof.
  intros (pre & post & -> & Hc & _). split; [|done]. apply elem_of_app. right. by left.
Qed.

(** C1. Whatever the names, token lists and candidates, a candidate returned
    by [pick_candidate] or by [pick_best_linkedin_candidate] is one of the
    candidates given, and its lower-cased title contains the lower-cased first
    name as a substring; a candidate whose title does not is passed over by
    the loop body with the loop state unchanged and no score computed. *)
Theorem selector_first_name_gate
    (full_name first_name : string) (loc_tokens skill_tokens role_tokens : list string)
    (cands : list candidate) (cand : candidate) :
  FindLinkedins.pick_candidate full_name first_name loc_tokens skill_tokens cands role_tokens
    = Some cand
  \/ FindLinkedinsCse.pick_best_linkedin_candidate full_name first_name loc_tokens
       skill_tokens cands role_tokens = Some cand ->
  cand ∈ cands
  /\ Py.contains (Py.lower first_name) (Py.lower (Py.or_empty (title cand))) = true
  /\ (exists pre post,
        Py.lower (Py.or_empty (title cand)) = pre +:+ Py.lower first_name +:+ post)
  /\ (forall (x : candidate) (st : best),
        Py.contains (Py.lower first_name) (Py.lower (Py.or_empty (title x))) = false ->
        FindLinkedins.score_candidate full_name first_name loc_tokens skill_tokens
          role_tokens x = None
        /\ FindLinkedins.pick_step full_name first_name loc_tokens skill_tokens
             role_tokens st x = st
        /\ FindLinkedinsCse.score_candidate full_name first_name loc_tokens skill_tokens
             role_tokens x = None
        /\ FindLinkedinsCse.pick_step full_name first_name loc_tokens skill_tokens
             role_tokens st x = st).
Proof.
  intros Hpick.
  assert (cand ∈ cands /\ gate first_name cand = true) as [Hin Hgate].
  { destruct Hpick as [Hpick|Hpick].
    - rewrite pick_candidate_select in Hpick.
      apply select_some in Hpick as (s & Hfm & _).
      apply first_max_elem in Hfm as [Hin Hs]. split; [done|].
      apply (proj1 (score_candidate_gate full_name first_name loc_tokens skill_tokens
                      role_tokens cand)).
      by rewrite Hs.
    - rewrite pick_best_linkedin_candidate_select in Hpick.
      apply select_some in Hpick as (s & Hfm & _).
      apply first_max_elem in Hfm as [Hin Hs]. split; [done|].
      apply (proj2 (score_candidate_gate full_name first_name loc_tokens skill_tokens
                      role_tokens cand)).
      by rewrite Hs. }
  split; [done|]. split; [done|]. split; [by apply contains_spec|].
  intros x [b s] Hx.
  unfold FindLinkedins.pick_step, FindLinkedinsCse.pick_step,
    FindLinkedins.score_candidate, FindLinkedinsCse.score_candidate.
  by rewrite Hx.
Qed.

Lemma selector_first_name_gate_witness :
  amna_profile_hit ∈ [other_profile_hit; amna_profile_hit]
  /\ Py.contains "amna" "amna mubarak - freelancer - upwork" = true.
Proof.
  pose proof (selector_first_name_gate "Amna M." "Amna" ["Lahore"; "Pakistan"]
                ["Market"; "Research"] [] [other_profile_hit; amna_profile_hit]
                amna_profile_hit) as H.
  destruct H as (Hin & Hc & _).
  - left. vm_compute. reflexivity.
  - split; [exact Hin | exact Hc].
Defined.

(** C2. [pick_candidate] and [pick_best_linkedin_candidate] return a candidate
    exactly when it is the first candidate, in input order, to reach the
    highest score among the candidates that pass the first-name test, and that
    score is at least 5; they return none exactly when every such candidate
    scores below 5. *)
Theorem selector_returns_first_maximum
    (full_name first_name : string) (loc_tokens skill_tokens role_tokens : list string)
    (cands : list candidate) :
  (forall cand,
     FindLinkedins.pick_candidate full_name first_name loc_tokens skill_tokens cands
       role_tokens = Some cand
     <-> exists s,
           first_max (FindLinkedins.score_candidate full_name first_name loc_tokens
                        skill_tokens role_tokens) cands cand s
           /\ (5 <= s)%Z)
  /\ (FindLinkedins.pick_candidate full_name first_name loc_tokens skill_tokens cands
        role_tokens = None
      <-> forall x t, x ∈ cands ->
            FindLinkedins.score_candidate full_name first_name loc_tokens skill_tokens
              role_tokens x = Some t -> (t < 5)%Z)
  /\ (forall cand,
        FindLinkedinsCse.pick_best_linkedin_candidate full_name first_name loc_tokens
          skill_tokens cands role_tokens = Some cand
        <-> exists s,
              first_max (FindLinkedinsCse.score_candidate full_name first_name loc_tokens
                           skill_tokens role_tokens) cands cand s
              /\ (5 <= s)%Z)
  /\ (FindLinkedinsCse.pick_best_linkedin_candidate full_name first_name loc_tokens
        skill_tokens cands role_tokens = None
      <-> forall x t, x ∈ cands ->
            FindLinkedinsCse.score_candidate full_name first_name loc_tokens skill_tokens
              role_tokens x = Some t -> (t < 5)%Z).
Proof.
  rewrite pick_candidate_select, pick_best_linkedin_candidate_select.
  split; [intros cand; apply select_some|].
  split; [apply select_none|].
  split; [intros cand; apply select_some|apply select_none].
Qed.

(** C10. With [full_name] and [first_name] both empty the selectors still
    return a candidate: the empty first name is a substring of every title,
    which grants the 3 points of the name, and the points of the location
    (2), of the context (2) and of the URL (2, or 1 in
    [pick_best_linkedin_candidate]) reach the threshold without any name
    point. *)
Theorem selector_empty_name_fails_open :
  (forall cand : candidate, gate "" cand = true)
  /\ exists (loc_tokens : list string) (cand : candidate),
       FindLinkedins.pick_candidate "" "" loc_tokens [] [cand] [] = Some cand
       /\ FindLinkedins.score_candidate "" "" loc_tokens [] [] cand = Some (3 + 0 + 2 + 2 + 2)%Z
       /\ FindLinkedins.name_bonus "" (combined_text_of cand) = 0%Z
       /\ FindLinkedins.location_bonus loc_tokens (combined_text_of cand) = 2%Z
       /\ FindLinkedins.context_bonus (combined_text_of cand) = 2%Z
       /\ FindLinkedins.url_bonus "" "" (Py.lower (Py.or_empty (url cand))) = 2%Z
       /\ FindLinkedinsCse.pick_best_linkedin_candidate "" "" loc_tokens [] [cand] []
          = Some cand
       /\ FindLinkedinsCse.score_candidate "" "" loc_tokens [] [] cand
          = Some (3 + 0 + 2 + 2 + 1)%Z.
Proof.
  split; [intros cand; apply contains_empty|].
  exists ["Lahore"],
    (mk_candidate "https://www.linkedin.com/in/someone" "Freelancer in Lahore" "").
  repeat split; vm_compute; reflexivity.
Qed.

(** ** The points of the name and of the URL *)

Lemma score_candidate_sum full_name first_name loc_tokens skill_tokens role_tokens cand :
  gate first_name cand = true ->
  FindLinkedins.score_candidate full_name first_name loc_tokens skill_tokens role_tokens cand
  = Some (3 + FindLinkedins.name_bonus (Py.lower full_name) (combined_text_of cand)
            + FindLinkedins.location_bonus loc_tokens (combined_text_of cand)
            + FindLinkedins.context_bonus (combined_text_of cand)
            + FindLinkedins.url_bonus (Py.lower first_name) (Py.lower full_name)
                (Py.lower (Py.or_empty (url cand)))
            + FindLinkedins.support_bonus role_tokens (combined_text_of cand)
            + FindLinkedins.support_bonus skill_tokens (combined_text_of cand))%Z.
Proof.
  unfold gate, FindLinkedins.score_candidate, combined_text_of. by intros ->.
Qed.

Lemma score_candidate_cse_sum full_name first_name loc_tokens skill_tokens role_tokens cand :
  gate first_name cand = true ->
  FindLinkedinsCse.score_candidate full_name first_name loc_tokens skill_tokens role_tokens
    cand
  = Some (3 + FindLinkedinsCse.name_bonus (Py.lower full_name) (combined_text_of cand)
            + FindLinkedinsCse.location_bonus loc_tokens (combined_text_of cand)
            + FindLinkedinsCse.context_bonus (combined_text_of cand)
            + FindLinkedinsCse.url_bonus (Py.lower first_name) (Py.lower full_name)
                (Py.lower (Py.or_empty (url cand)))
            + FindLinkedinsCse.support_bonus role_tokens (combined_text_of cand)
            + FindLinkedinsCse.support_bonus skill_tokens (combined_text_of cand))%Z.
Proof.
  unfold gate, FindLinkedinsCse.score_candidate, combined_text_of. by intros ->.
Qed.

Lemma part_in_url_existsb full_name_lower url :
  existsb (fun part => Py.contains part url)
          (List.filter (fun part => (2 <? String.length part)%nat) (Py.split full_name_lower))
  = true <-> part_in_url full_name_lower url.
Proof.
  rewrite existsb_exists. unfold part_in_url. split.
  - intros (part & Hin & Hc). apply filter_In in Hin as [Hin Hlen].
    exists part. rewrite list_elem_of_In. by apply Nat.ltb_lt in Hlen.
  - intros (part & Hin & Hlen & Hc). exists part. split; [|done].
    apply filter_In. rewrite <- list_elem_of_In. split; [done|]. by apply Nat.ltb_lt.
Qed.

(** An input on which the name points differ from "+1 when exactly one part
    matches and that part is longer than 2": the full name "Bob X." and a
    title with "Bob" only. The one matching part, "bob", has length 3, the
    second part "x." has length 2, and no point is added; and with two
    matching parts the CSE selector adds 4. *)
Lemma name_bonus_counterexample :
  Py.split "bob x." = ["bob"; "x."]
  /\ matching_parts_of "bob x." "bob the builder " = ["bob"]
  /\ String.length "bob" = 3%nat
  /\ FindLinkedins.name_bonus "bob x." "bob the builder " = 0%Z
  /\ FindLinkedinsCse.name_bonus "bob x." "bob the builder " = 0%Z
  /\ FindLinkedins.score_candidate "Bob X." "Bob" [] [] []
       (mk_candidate "https://www.linkedin.com/in/zed" "Bob the Builder" "") = Some 3%Z
  /\ matching_parts_of "bob smith" "bob smith " = ["bob"; "smith"]
  /\ FindLinkedinsCse.name_bonus "bob smith" "bob smith " = 4%Z
  /\ FindLinkedinsCse.score_candidate "Bob Smith" "Bob" [] [] []
       (mk_candidate "https://www.linkedin.com/in/zed" "Bob Smith" "") = Some 7%Z.
Proof. repeat split; vm_compute; reflexivity. Qed.

(** C3, amended. For a candidate that passes the first-name test, the score
    is 3 plus the name points plus the other points; when the lower-cased full
    name has more than one part, the name points are: with at least two parts
    of length above 1 found in the combined text, 3 in [pick_candidate] and 4
    in [pick_best_linkedin_candidate]; with exactly one found, 1 in both when
    the second name part is longer than 2 characters and 0 when it is not;
    with none found, 0. *)
Theorem name_bonus_by_matching_parts
    (full_name first_name : string) (loc_tokens skill_tokens role_tokens : list string)
    (cand : candidate) :
  let full_name_lower := Py.lower full_name in
  let name_parts := Py.split full_name_lower in
  let text := combined_text_of cand in
  let matching := matching_parts_of full_name_lower text in
  gate first_name cand = true ->
  (1 < length name_parts)%nat ->
  FindLinkedins.score_candidate full_name first_name loc_tokens skill_tokens role_tokens cand
  = Some (3 + FindLinkedins.name_bonus full_name_lower text
            + FindLinkedins.location_bonus loc_tokens text
            + FindLinkedins.context_bonus text
            + FindLinkedins.url_bonus (Py.lower first_name) full_name_lower
                (Py.lower (Py.or_empty (url cand)))
            + FindLinkedins.support_bonus role_tokens text
            + FindLinkedins.support_bonus skill_tokens text)%Z
  /\ FindLinkedinsCse.score_candidate full_name first_name loc_tokens skill_tokens
       role_tokens cand
     = Some (3 + FindLinkedinsCse.name_bonus full_name_lower text
               + FindLinkedinsCse.location_bonus loc_tokens text
               + FindLinkedinsCse.context_bonus text
               + FindLinkedinsCse.url_bonus (Py.lower first_name) full_name_lower
                   (Py.lower (Py.or_empty (url cand)))
               + FindLinkedinsCse.support_bonus role_tokens text
               + FindLinkedinsCse.support_bonus skill_tokens text)%Z
  /\ ((2 <= length matching)%nat ->
      FindLinkedins.name_bonus full_name_lower text = 3%Z
      /\ FindLinkedinsCse.name_bonus full_name_lower text = 4%Z)
  /\ (length matching = 1%nat -> (2 < String.length (nth 1 name_parts ""))%nat ->
      FindLinkedins.name_bonus full_name_lower text = 1%Z
      /\ FindLinkedinsCse.name_bonus full_name_lower text = 1%Z)
  /\ (length matching = 1%nat -> (String.length (nth 1 name_parts "") <= 2)%nat ->
      FindLinkedins.name_bonus full_name_lower text = 0%Z
      /\ FindLinkedinsCse.name_bonus full_name_lower text = 0%Z)
  /\ (length matching = 0%nat ->
      FindLinkedins.name_bonus full_name_lower text = 0%Z
      /\ FindLinkedinsCse.name_bonus full_name_lower text = 0%Z).
Proof.
  intros full_name_lower name_parts text matching Hgate Hparts.
  split; [by apply score_candidate_sum|]. split; [by apply score_candidate_cse_sum|].
  unfold FindLinkedins.name_bonus, FindLinkedinsCse.name_bonus, Py.count.
  fold name_parts. subst matching. unfold matching_parts_of. fold name_parts.
  set (n := length (List.filter _ name_parts)).
  apply Nat.ltb_lt in Hparts. rewrite Hparts.
  split; [|split; [|split]].
  - intros Hm. by destruct (Z.geb_spec (Z.of_nat n) 2); [|lia].
  - intros Hm Hlen. apply Nat.ltb_lt in Hlen. by rewrite Hm, Hlen.
  - intros Hm Hlen. apply Nat.ltb_ge in Hlen. by rewrite Hm, Hlen.
  - intros Hm. by rewrite Hm.
Qed.

Lemma name_bonus_by_matching_parts_witness :
  FindLinkedins.name_bonus "amna mubarak" "amna mubarak - freelancer - upwork lahore" = 3%Z
  /\ FindLinkedinsCse.name_bonus "amna mubarak" "amna mubarak - freelancer - upwork lahore"
     = 4%Z.
Proof.
  pose proof (name_bonus_by_matching_parts "Amna Mubarak" "Amna" [] [] []
                (mk_candidate "https://www.linkedin.com/in/amna-mubarak"
                              "Amna Mubarak - Freelancer - Upwork" "Lahore")) as H.
  cbv zeta in H.
  destruct H as (_ & _ & H & _).
  - vm_compute. reflexivity.
  - vm_compute. lia.
  - apply H. vm_compute. lia.
Defined.

(** An input on which the URL points of [pick_best_linkedin_candidate] are
    not "+2 when the slug starts with the first name, else +1 when a name part
    occurs in the URL": for the name "Al Smith", a URL whose slug starts with
    "al" and holds no name part longer than 2 characters earns 1, and a URL
    whose slug does not start with "al" and holds "smith" earns 2. *)
Lemma url_bonus_counterexample :
  Py.startswith "https://www.linkedin.com/in/al-s" ("https://www.linkedin.com/in/" +:+ "al")
  = true
  /\ FindLinkedins.url_bonus "al" "al smith" "https://www.linkedin.com/in/al-s" = 2%Z
  /\ FindLinkedinsCse.url_bonus "al" "al smith" "https://www.linkedin.com/in/al-s" = 1%Z
  /\ Py.startswith "https://www.linkedin.com/in/john-smith"
       ("https://www.linkedin.com/in/" +:+ "al") = false
  /\ Py.contains "smith" "https://www.linkedin.com/in/john-smith" = true
  /\ FindLinkedins.url_bonus "al" "al smith" "https://www.linkedin.com/in/john-smith" = 1%Z
  /\ FindLinkedinsCse.url_bonus "al" "al smith" "https://www.linkedin.com/in/john-smith"
     = 2%Z
  /\ FindLinkedinsCse.score_candidate "Al Smith" "Al" [] [] []
       (mk_candidate "https://www.linkedin.com/in/al-s" "Al S" "") = Some 5%Z
  /\ FindLinkedins.score_candidate "Al Smith" "Al" [] [] []
       (mk_candidate "https://www.linkedin.com/in/al-s" "Al S" "") = Some 6%Z.
Proof. repeat split; vm_compute; reflexivity. Qed.

(** C4, amended. For a candidate that passes the first-name test the score
    is 3 plus the URL points plus the other points (see the sum above), and
    the URL points are: in [pick_candidate], 2 when the URL starts with
    [https://www.linkedin.com/in/] or [https://linkedin.com/in/] followed by
    the lower-cased first name, else 1 when a name part longer than 2
    characters occurs in the URL, else 0; in [pick_best_linkedin_candidate],
    2 when a name part longer than 2 characters occurs in the URL, else 1 when
    the URL starts with [https://www.linkedin.com/in/] followed by the
    lower-cased first name, else 0. *)
Theorem url_bonus_by_variant
    (full_name first_name : string) (loc_tokens skill_tokens role_tokens : list string)
    (cand : candidate) :
  let fn := Py.lower first_name in
  let full_name_lower := Py.lower full_name in
  let url := Py.lower (Py.or_empty (url cand)) in
  let text := combined_text_of cand in
  let slug_www := Py.startswith url ("https://www.linkedin.com/in/" +:+ fn) in
  let slug_bare := Py.startswith url ("https://linkedin.com/in/" +:+ fn) in
  gate first_name cand = true ->
  FindLinkedins.score_candidate full_name first_name loc_tokens skill_tokens role_tokens cand
  = Some (3 + FindLinkedins.name_bonus full_name_lower text
            + FindLinkedins.location_bonus loc_tokens text
            + FindLinkedins.context_bonus text
            + FindLinkedins.url_bonus fn full_name_lower url
            + FindLinkedins.support_bonus role_tokens text
            + FindLinkedins.support_bonus skill_tokens text)%Z
  /\ FindLinkedinsCse.score_candidate full_name first_name loc_tokens skill_tokens
       role_tokens cand
     = Some (3 + FindLinkedinsCse.name_bonus full_name_lower text
               + FindLinkedinsCse.location_bonus loc_tokens text
               + FindLinkedinsCse.context_bonus text
               + FindLinkedinsCse.url_bonus fn full_name_lower url
               + FindLinkedinsCse.support_bonus role_tokens text
               + FindLinkedinsCse.support_bonus skill_tokens text)%Z
  /\ (slug_www = true \/ slug_bare = true ->
      FindLinkedins.url_bonus fn full_name_lower url = 2%Z)
  /\ (slug_www = false -> slug_bare = false -> part_in_url full_name_lower url ->
      FindLinkedins.url_bonus fn full_name_lower url = 1%Z)
  /\ (slug_www = false -> slug_bare = false -> ~ part_in_url full_name_lower url ->
      FindLinkedins.url_bonus fn full_name_lower url = 0%Z)
  /\ (part_in_url full_name_lower url ->
      FindLinkedinsCse.url_bonus fn full_name_lower url = 2%Z)
  /\ (~ part_in_url full_name_lower url -> slug_www = true ->
      FindLinkedinsCse.url_bonus fn full_name_lower url = 1%Z)
  /\ (~ part_in_url full_name_lower url -> slug_www = false ->
      FindLinkedinsCse.url_bonus fn full_name_lower url = 0%Z).
Proof.
  intros fn full_name_lower url0 text slug_www slug_bare Hgate.
  split; [by apply score_candidate_sum|]. split; [by apply score_candidate_cse_sum|].
  unfold FindLinkedins.url_bonus, FindLinkedinsCse.url_bonus.
  fold slug_www slug_bare.
  pose proof (part_in_url_existsb full_name_lower url0) as Hp.
  destruct (existsb _ _).
  - assert (part_in_url full_name_lower url0) as Hin by by apply Hp.
    repeat split; try done.
    + by intros [-> | ->]; [|rewrite orb_true_r].
    + by intros -> ->.
  - assert (~ part_in_url full_name_lower url0) as Hnot.
    { intros Hin. apply Hp in Hin. discriminate. }
    repeat split; try done.
    + by intros [-> | ->]; [|rewrite orb_true_r].
    + by intros -> ->.
    + by intros _ ->.
    + by intros _ ->.
Qed.

Lemma url_bonus_by_variant_witness :
  FindLinkedins.url_bonus "amna" "amna m." "https://www.linkedin.com/in/amna-mubarak" = 2%Z.
Proof.
  pose proof (url_bonus_by_variant "Amna M." "Amna" [] [] []
                (mk_candidate "https://www.linkedin.com/in/amna-mubarak"
                              "Amna Mubarak - Freelancer - Upwork" "Lahore")) as H.
  cbv zeta in H.
  destruct H as (_ & _ & H & _).
  - vm_compute. reflexivity.
  - apply H. left. vm_compute. reflexivity.
Defined.

(** ** De-duplication and the cap *)

Lemma filter_unseen_drop (seen : gset string) (q : string) (l : list string) :
  q ∈ seen ->
  List.filter (unseen seen) (List.filter (fun x => negb (String.eqb x q)) l)
  = List.filter (unseen seen) l.
Proof.
  intros Hq. induction l as [|x l IH]; [done|]. simpl.
  destruct (String.eqb_spec x q) as [->|Hne]; simpl.
  - rewrite IH. unfold unseen at 2. by rewrite bool_decide_eq_false_2 by (by intros []).
  - by rewrite IH.
Qed.

Lemma filter_unseen_add (seen : gset string) (q : string) (l : list string) :
  List.filter (unseen ({[q]} ∪ seen)) l
  = List.filter (unseen seen) (List.filter (fun x => negb (String.eqb x q)) l).
Proof.
  induction l as [|x l IH]; [done|]. simpl.
  destruct (String.eqb_spec x q) as [->|Hne]; simpl.
  - unfold unseen at 1. rewrite bool_decide_eq_false_2; [done|]. intros []. set_solver.
  - rewrite <- IH. unfold unseen.
    destruct (decide (x ∈ seen)) as [Hin|Hnin].
    + by rewrite !bool_decide_eq_false_2 by (intros []; set_solver).
    + rewrite !bool_decide_eq_true_2 by set_solver. done.
Qed.

Lemma dedupe_fold (l : list string) (seen : gset string) (acc : list string) :
  fold_left dedupe_step l (seen, acc)
  = (seen ∪ list_to_set l, acc ++ List.filter (unseen seen) (first_occurrences l)).
Proof.
  revert seen acc. induction l as [|q l IH]; intros seen acc; simpl.
  - f_equal; [set_solver | by rewrite app_nil_r].
  - destruct (decide (q ∈ seen)) as [Hq|Hq]; rewrite IH.
    + f_equal; [set_solver|]. f_equal.
      unfold unseen at 2. rewrite bool_decide_eq_false_2 by (by intros []).
      by rewrite filter_unseen_drop.
    + f_equal; [set_solver|].
      unfold unseen at 2. rewrite bool_decide_eq_true_2 by done.
      rewrite <- app_assoc. simpl. by rewrite filter_unseen_add.
Qed.

Lemma filter_unseen_empty (l : list string) : List.filter (unseen ∅) l = l.
Proof.
  induction l as [|x l IH]; [done|]. simpl.
  unfold unseen at 1. rewrite bool_decide_eq_true_2 by set_solver. by rewrite IH.
Qed.

Lemma dedupe_first_occurrences (l : list string) : dedupe l = first_occurrences l.
Proof. unfold dedupe. rewrite dedupe_fold. simpl. apply filter_unseen_empty. Qed.

Lemma first_occurrences_elem (l : list string) (x : string) :
  x ∈ first_occurrences l <-> x ∈ l.
Proof.
  induction l as [|q l IH]; [done|]. simpl.
  rewrite !elem_of_cons, <- IH, !list_elem_of_In, filter_In.
  destruct (String.eqb_spec x q) as [->|Hne]; simpl; [tauto|]. tauto.
Qed.

Lemma NoDup_List_filter {A} (p : A -> bool) (l : list A) : NoDup l -> NoDup (List.filter p l).
Proof.
  induction 1 as [|x l Hx Hl IH]; simpl; [constructor|].
  destruct (p x); [|done]. constructor; [|done].
  rewrite list_elem_of_In, filter_In, <- list_elem_of_In. tauto.
Qed.

Lemma first_occurrences_NoDup (l : list string) : NoDup (first_occurrences l).
Proof.
  induction l as [|q l IH]; simpl; constructor.
  - rewrite list_elem_of_In, filter_In. intros [_ Hq]. by rewrite String.eqb_refl in Hq.
  - by apply NoDup_List_filter.
Qed.

(** The strings kept before the first occurrence of [x] are those that
    occur before it. *)
Lemma dedupe_app (l1 l2 : list string) :
  dedupe (l1 ++ l2)
  = dedupe l1 ++ List.filter (unseen (list_to_set l1)) (first_occurrences l2).
Proof.
  unfold dedupe. rewrite fold_left_app, (dedupe_fold l1). simpl.
  rewrite dedupe_fold. simpl. rewrite filter_unseen_empty. f_equal. f_equal.
  f_equal. set_solver.
Qed.

Lemma dedupe_first_occurrence (l1 l2 : list string) (x : string) :
  x ∉ l1 ->
  exists rest, dedupe (l1 ++ x :: l2) = dedupe l1 ++ x :: rest
               /\ forall y, y ∈ dedupe l1 <-> y ∈ l1.
Proof.
  intros Hx. rewrite dedupe_app. simpl.
  unfold unseen at 1. rewrite bool_decide_eq_true_2 by (by rewrite elem_of_list_to_set).
  eexists. split; [done|]. intros y. rewrite dedupe_first_occurrences.
  apply first_occurrences_elem.
Qed.

Lemma dedupe_capped (cap : nat) (l : list string) :
  NoDup (take cap (dedupe l))
  /\ (length (take cap (dedupe l)) <= cap)%nat
  /\ take cap (dedupe l) `prefix_of` dedupe l
  /\ (forall q, q ∈ take cap (dedupe l) -> q ∈ l).
Proof.
  repeat split.
  - assert (NoDup (dedupe l)) as Hnd
      by (rewrite dedupe_first_occurrences; apply first_occurrences_NoDup).
    rewrite <- (take_drop cap (dedupe l)) in Hnd.
    apply NoDup_app in Hnd. tauto.
  - rewrite length_take. lia.
  - apply prefix_take.
  - intros q Hq. apply first_occurrences_elem. rewrite <- dedupe_first_occurrences.
    apply elem_of_take in Hq as (i & Hi & _). by eapply list_elem_of_lookup_2.
Qed.

(** C6. Whatever the name, location, skills, role and country, the query
    list of [build_queries] (cap 8) and of [build_cse_queries] (cap 6) holds
    no string twice, is no longer than its cap, and is the start of the
    de-duplicated assembly, which keeps exactly the first occurrence of each
    assembled string, in assembly order: before the first occurrence of a
    string come the strings assembled before it, once each. *)
Theorem queries_distinct_ordered_capped
    (name location : string) (skills : list string) (role country primary_category : string) :
  let assembled := FindLinkedins.assemble_queries name location skills role country in
  let out := FindLinkedins.build_queries name location skills role country primary_category in
  let assembled_cse := FindLinkedinsCse.assemble_queries name location skills role country in
  let out_cse := FindLinkedinsCse.build_cse_queries name location skills role country in
  (NoDup out /\ (length out <= 8)%nat
   /\ out = take 8 (first_occurrences assembled)
   /\ (forall q, q ∈ out -> q ∈ assembled)
   /\ (forall q, q ∈ assembled -> q ∈ first_occurrences assembled)
   /\ (forall l1 x l2, assembled = l1 ++ x :: l2 -> x ∉ l1 ->
       exists rest, first_occurrences assembled = first_occurrences l1 ++ x :: rest
                    /\ forall y, y ∈ first_occurrences l1 <-> y ∈ l1))
  /\ (NoDup out_cse /\ (length out_cse <= 6)%nat
      /\ out_cse = take 6 (first_occurrences assembled_cse)
      /\ (forall q, q ∈ out_cse -> q ∈ assembled_cse)
      /\ (forall q, q ∈ assembled_cse -> q ∈ first_occurrences assembled_cse)
      /\ (forall l1 x l2, assembled_cse = l1 ++ x :: l2 -> x ∉ l1 ->
          exists rest, first_occurrences assembled_cse = first_occurrences l1 ++ x :: rest
                       /\ forall y, y ∈ first_occurrences l1 <-> y ∈ l1)).
Proof.
  intros assembled out assembled_cse out_cse.
  subst out out_cse. unfold FindLinkedins.build_queries, FindLinkedinsCse.build_cse_queries.
  fold assembled assembled_cse.
  split.
  - destruct (dedupe_capped 8 assembled) as (Hnd & Hlen & _ & Hin).
    repeat split; try done.
    + by rewrite dedupe_first_occurrences.
    + intros q. by rewrite first_occurrences_elem.
    + intros l1 x l2 -> Hx. rewrite <- !dedupe_first_occurrences.
      by apply dedupe_first_occurrence.
  - destruct (dedupe_capped 6 assembled_cse) as (Hnd & Hlen & _ & Hin).
    repeat split; try done.
    + by rewrite dedupe_first_occurrences.
    + intros q. by rewrite first_occurrences_elem.
    + intros l1 x l2 -> Hx. rewrite <- !dedupe_first_occurrences.
      by apply dedupe_first_occurrence.
Qed.

(** ** The empty name *)

(** C9. For the empty name both synthesizers return the empty list, and both
    orchestrators write a [not_found] row with no URL, no query and no
    candidates, leaving the world as it was: no search call and no sleep. *)
Theorem empty_name_not_found
    (provider : nat -> string -> response) (w : world)
    (id location role country primary_category : string) (skills : list string) :
  FindLinkedins.build_queries "" location skills role country primary_category = []
  /\ FindLinkedinsCse.build_cse_queries "" location skills role country = []
  /\ FindLinkedins.process_record provider
       (Profile id "" location role country primary_category skills) w
     = (w, Row id "" location "" not_found "" [])
  /\ FindLinkedinsCse.process_record provider
       (Profile id "" location role country primary_category skills) w
     = (w, Row id "" location "" not_found "" []).
Proof.
  assert (FindLinkedins.build_queries "" location skills role country primary_category = [])
    as H1 by reflexivity.
  assert (FindLinkedinsCse.build_cse_queries "" location skills role country = [])
    as H2 by reflexivity.
  split; [done|]. split; [done|]. split.
  - unfold FindLinkedins.process_record. cbn [p_name p_location p_role p_country p_skills
      p_primary_category p_external_id]. by rewrite H1.
  - unfold FindLinkedinsCse.process_record. cbn [p_name p_location p_role p_country p_skills
      p_primary_category p_external_id]. by rewrite H2.
Qed.

(** ** The record processors *)

(** One turn of the [while True] loop. *)
Lemma search_with_retries_unfold provider idn q attempts backoff w l :
  FindLinkedins.search_with_retries provider idn q attempts backoff w l
  = let w1 := World (S (calls w)) (trace w ++ [Search_call q (id_gl idn)]) in
    match provider (calls w) q with
    | Payload items =>
        (w1, on_payload (pick_for idn) (FindLinkedins.extract_candidates items) q l)
    | Raises msg =>
        if FindLinkedins.retryable msg && (S attempts <? 3)%nat then
          FindLinkedins.search_with_retries provider idn q (S attempts) (backoff * 2)
            (log (Backoff_sleep (Z.min 60 backoff)) w1) l
        else (w1, on_error q l)
    end.
Proof.
  rewrite FindLinkedins.search_with_retries_equation_1.
  unfold FindLinkedins.search_serper. cbv zeta.
  destruct (provider (calls w) q) as [items|msg]; simpl.
  - unfold on_payload, pick_for. by destruct (FindLinkedins.pick_candidate _ _ _ _ _ _).
  - unfold FindLinkedins.search_with_retries_unfold_clause_1_clause_2.
    destruct (FindLinkedins.retryable msg); simpl; [|by destruct (lt_dec _ _)].
    destruct (lt_dec (S attempts) 3) as [Hlt|Hge]; simpl.
    + by apply Nat.ltb_lt in Hlt as ->.
    + by apply Nat.ltb_nlt in Hge as ->.
Qed.

Lemma run_query_unfold provider idn q w l :
  FindLinkedinsCse.run_query provider idn q w l
  = let w1 := World (S (calls w)) (trace w ++ [Search_call q None]) in
    match provider (calls w) q with
    | Payload items =>
        (w1, on_payload (pick_cse_for idn)
               (FindLinkedinsCse.extract_linkedin_candidates items) q l)
    | Raises msg => (w1, on_error q l)
    end.
Proof.
  unfold FindLinkedinsCse.run_query, FindLinkedinsCse.search_google_cse. cbv zeta.
  destruct (provider (calls w) q) as [items|msg]; [|done].
  unfold on_payload, pick_cse_for.
  by destruct (FindLinkedinsCse.pick_best_linkedin_candidate _ _ _ _ _ _).
Qed.

Lemma on_payload_settles_or_keeps pick cands q l :
  settles_or_keeps l (on_payload pick cands q l).
Proof.
  unfold settles_or_keeps, on_payload. destruct (pick cands); simpl; tauto.
Qed.

Lemma search_with_retries_settles_or_keeps provider idn q attempts backoff w l :
  settles_or_keeps l (FindLinkedins.search_with_retries provider idn q attempts backoff w l).2.
Proof.
  remember (3 - attempts)%nat as n eqn:Hn.
  revert attempts backoff w Hn. induction n as [|n IH]; intros attempts backoff w Hn;
    rewrite search_with_retries_unfold; cbv zeta;
    destruct (provider (calls w) q) as [items|msg]; simpl;
    try apply on_payload_settles_or_keeps.
  - destruct (Nat.ltb_spec (S attempts) 3); [lia|]. rewrite andb_false_r.
    right. by left.
  - destruct (FindLinkedins.retryable msg && (S attempts <? 3)%nat) eqn:Hretry.
    + apply IH. apply andb_true_iff in Hretry as [_ Hlt]. apply Nat.ltb_lt in Hlt. lia.
    + right. by left.
Qed.

Lemma run_query_settles_or_keeps provider idn q w l :
  settles_or_keeps l (FindLinkedinsCse.run_query provider idn q w l).2.
Proof.
  rewrite run_query_unfold. cbv zeta. destruct (provider (calls w) q); simpl.
  - apply on_payload_settles_or_keeps.
  - right. by left.
Qed.

Lemma query_loop_not_found provider idn queries w l :
  match_status l = not_found -> query_used l = "" ->
  let l' := (FindLinkedins.query_loop provider idn queries w l).2 in
  (match_status l' = matched \/ match_status l' = error
   \/ (match_status l' = not_found /\ query_used l' = "")).
Proof.
  revert w l. induction queries as [|q queries IH]; intros w l Hs Hq; simpl.
  - right. right. done.
  - pose proof (search_with_retries_settles_or_keeps provider idn q 0 5
                  (log Politeness_sleep w) l) as Hk.
    destruct (FindLinkedins.search_with_retries _ _ _ _ _ _ _) as [w1 l1]. simpl in Hk.
    destruct Hk as [Hk | [Hk | [Hk1 Hk2]]].
    + rewrite Hk. simpl. by left.
    + rewrite Hk. simpl. right. by left.
    + rewrite Hk1, Hs. apply IH; congruence.
Qed.

Lemma query_loop_cse_not_found provider idn queries w l :
  match_status l = not_found -> query_used l = "" ->
  let l' := (FindLinkedinsCse.query_loop provider idn queries w l).2 in
  (match_status l' = matched \/ match_status l' = error
   \/ (match_status l' = not_found /\ query_used l' = "")).
Proof.
  revert w l. induction queries as [|q queries IH]; intros w l Hs Hq; simpl.
  - right. right. done.
  - pose proof (run_query_settles_or_keeps provider idn q (log Politeness_sleep w) l) as Hk.
    destruct (FindLinkedinsCse.run_query _ _ _ _ _) as [w1 l1]. simpl in Hk.
    destruct Hk as [Hk | [Hk | [Hk1 Hk2]]].
    + rewrite Hk. simpl. by left.
    + rewrite Hk. simpl. right. by left.
    + rewrite Hk1, Hs. apply IH; congruence.
Qed.

(** Every [needs_review] row carries the first query of the list: the loop
    never records which query produced the candidates. *)
Lemma needs_review_query_is_first provider r w :
  (row_match_status (FindLinkedins.process_record provider r w).2 = needs_review ->
   row_query_used (FindLinkedins.process_record provider r w).2
   = hd "" (FindLinkedins.build_queries (p_name r) (p_location r) (p_skills r) (p_role r)
              (p_country r) (p_primary_category r)))
  /\ (row_match_status (FindLinkedinsCse.process_record provider r w).2 = needs_review ->
      row_query_used (FindLinkedinsCse.process_record provider r w).2
      = hd "" (FindLinkedinsCse.build_cse_queries (p_name r) (p_location r) (p_skills r)
                 (p_role r) (p_country r))).
Proof.
  split.
  - unfold FindLinkedins.process_record.
    destruct (FindLinkedins.build_queries _ _ _ _ _ _) as [|q0 queries] eqn:Hqs;
      [simpl; discriminate|].
    cbn [is_nil].
    match goal with |- context [FindLinkedins.query_loop provider ?i ?qs ?w0 ?l0] =>
      pose proof (query_loop_not_found provider i qs w0 l0 eq_refl eq_refl) as Hl;
      destruct (FindLinkedins.query_loop provider i qs w0 l0) as [w1 l1] end.
    simpl in Hl. destruct Hl as [Hl | [Hl | [Hl Hq]]]; rewrite Hl; simpl.
    + by rewrite Hl.
    + by rewrite Hl.
    + destruct (is_nil (all_candidates l1)); simpl; [by rewrite Hl|]. by rewrite Hq.
  - unfold FindLinkedinsCse.process_record.
    destruct (FindLinkedinsCse.build_cse_queries _ _ _ _ _) as [|q0 queries] eqn:Hqs;
      [simpl; discriminate|].
    cbn [is_nil].
    match goal with |- context [FindLinkedinsCse.query_loop provider ?i ?qs ?w0 ?l0] =>
      pose proof (query_loop_cse_not_found provider i qs w0 l0 eq_refl eq_refl) as Hl;
      destruct (FindLinkedinsCse.query_loop provider i qs w0 l0) as [w1 l1] end.
    simpl in Hl. destruct Hl as [Hl | [Hl | [Hl Hq]]]; rewrite Hl; simpl.
    + by rewrite Hl.
    + by rewrite Hl.
    + destruct (is_nil (all_candidates l1)); simpl; [by rewrite Hl|]. by rewrite Hq.
Qed.

(** *** A record whose second query is the first to find candidates *)

(** C7, on the code. The record "Amna M." with a provider whose first
    answer holds no profile link and whose second holds one that the selector
    rejects: the row is [needs_review] and keeps that candidate list, and its
    [query_used] is the first query of the list, which found nothing, not the
    second, which found the candidates. Both files behave so. *)
Theorem needs_review_keeps_first_query :
  let queries :=
    FindLinkedins.build_queries "Amna M." "Lahore, Pakistan" ["Market Research"] ""
      "Pakistan" "" in
  let first_query := Py.quoted "Amna" +:+ " freelancer Lahore, Pakistan site:linkedin.com/in" in
  let second_query := Py.quoted "Amna" +:+ " Lahore, Pakistan site:linkedin.com/in" in
  let run := FindLinkedins.process_record second_call_finds amna (World 0 []) in
  let run_cse := FindLinkedinsCse.process_record second_call_finds amna (World 0 []) in
  nth 0 queries "" = first_query
  /\ nth 1 queries "" = second_query
  /\ FindLinkedins.extract_candidates [] = []
  /\ FindLinkedins.extract_candidates [zed_item] = [zed]
  /\ take 4 (trace run.1)
     = [Politeness_sleep; Search_call first_query (Some "pk");
        Politeness_sleep; Search_call second_query (Some "pk")]
  /\ row_match_status run.2 = needs_review
  /\ candidates_json run.2 = [zed]
  /\ row_query_used run.2 = first_query
  /\ take 4 (trace run_cse.1)
     = [Politeness_sleep; Search_call first_query None;
        Politeness_sleep; Search_call second_query None]
  /\ row_match_status run_cse.2 = needs_review
  /\ candidates_json run_cse.2 = [zed]
  /\ row_query_used run_cse.2 = first_query.
Proof. cbv zeta. repeat split; vm_compute; reflexivity. Qed.

(** *** Failed calls *)

(** C8. Inputs on which the code leaves the retry policy it is meant to
    have ("call with retries for 429/5xx"). In [find_linkedins.py] an answer
    with status 500 is tried three times, with sleeps of 5 and 10 seconds,
    before the record ends as [error]; but an answer with status 501, a
    server error too, ends the record as [error] after one call and no
    sleep, because the test looks for five codes in the text of the
    exception; and for the same reason an answer with status 400 whose body
    holds "500" is tried three times. In [find_linkedins_cse.py] a
    rate-limited call is not tried again: the first 429 ends the record as
    [error] after one call. *)
Theorem retry_test_divergence :
  let first_query :=
    Py.quoted "Amna" +:+ " freelancer Lahore, Pakistan site:linkedin.com/in" in
  let search := Search_call first_query (Some "pk") in
  let error_row := Row "u1" "Amna M." "Lahore, Pakistan" "" error first_query [] in
  FindLinkedins.retryable "Serper error 500: Internal Server Error" = true
  /\ FindLinkedins.process_record always_500 amna (World 0 [])
     = (World 3 [Politeness_sleep; search; Backoff_sleep 5; search; Backoff_sleep 10; search],
        error_row)
  /\ FindLinkedins.retryable "Serper error 501: Not Implemented" = false
  /\ FindLinkedins.process_record always_501 amna (World 0 [])
     = (World 1 [Politeness_sleep; search], error_row)
  /\ FindLinkedins.retryable "Serper error 400: at most 500 characters per query" = true
  /\ FindLinkedins.process_record always_400 amna (World 0 [])
     = (World 3 [Politeness_sleep; search; Backoff_sleep 5; search; Backoff_sleep 10; search],
        error_row)
  /\ FindLinkedinsCse.process_record always_429 amna (World 0 [])
     = (World 1 [Politeness_sleep; Search_call first_query None], error_row).
Proof. cbv zeta. repeat split; vm_compute; reflexivity. Qed.

Lemma records_loop_length provider records w out_rows cnt :
  length (FindLinkedins.records_loop provider records w out_rows cnt).1.2
  = (length out_rows + length records)%nat.
Proof.
  revert w out_rows cnt. induction records as [|r records IH]; intros w out_rows cnt; simpl.
  - lia.
  - destruct (FindLinkedins.process_record provider r w) as [w1 out].
    rewrite IH, length_app. simpl. lia.
Qed.

Lemma records_loop_cse_length provider records w out_rows cnt :
  length (FindLinkedinsCse.records_loop provider records w out_rows cnt).1.2
  = (length out_rows + length records)%nat.
Proof.
  revert w out_rows cnt. induction records as [|r records IH]; intros w out_rows cnt; simpl.
  - lia.
  - destruct (FindLinkedinsCse.process_record provider r w) as [w1 out].
    rewrite IH, length_app. simpl. lia.
Qed.

(** A query that ends in [error] ends the query loop. *)
Lemma query_loop_error provider idn q queries w l w1 l1 :
  FindLinkedins.search_with_retries provider idn q 0 5 (log Politeness_sleep w) l = (w1, l1) ->
  match_status l1 = error ->
  FindLinkedins.query_loop provider idn (q :: queries) w l = (w1, l1).
Proof. intros Hs He. simpl. by rewrite Hs, He. Qed.

Lemma query_loop_cse_error provider idn q queries w l w1 l1 :
  FindLinkedinsCse.run_query provider idn q (log Politeness_sleep w) l = (w1, l1) ->
  match_status l1 = error ->
  FindLinkedinsCse.query_loop provider idn (q :: queries) w l = (w1, l1).
Proof. intros Hs He. simpl. by rewrite Hs, He. Qed.

(** What the code does when the call for query [q] raises an exception:
    - in [find_linkedins_cse.py] the query ends at once as [error], after
      that one call;
    - in [find_linkedins.py], when the message holds none of 429, 500, 502,
      503, 504, the query ends at once as [error], after that one call;
    - when it holds one, the same query is called again after a sleep of 5
      seconds, and, if that call raises such a message too, a third time
      after a sleep of 10 seconds; a third exception, whatever its message,
      ends the query as [error] after three calls; an answer to the second or
      third call is handled as any answer;
    - in both files an [error] ends the query loop of the record, with
      [query_used] the query that failed;
    - both [process_records] return one row for every record of the range. *)
Theorem failed_call_policy
    (provider : nat -> string -> response) (idn : identity) (q : string)
    (w : world) (l : locals) (m0 : string) :
  provider (calls w) q = Raises m0 ->
  let search := Search_call q (id_gl idn) in
  let retries := FindLinkedins.search_with_retries provider idn q 0 5 w l in
  FindLinkedinsCse.run_query provider idn q w l
  = (World (S (calls w)) (trace w ++ [Search_call q None]), on_error q l)
  /\ (FindLinkedins.retryable m0 = false ->
      retries = (World (S (calls w)) (trace w ++ [search]), on_error q l))
  /\ (FindLinkedins.retryable m0 = true ->
      (forall items, provider (S (calls w)) q = Payload items ->
         retries
         = (World (S (S (calls w))) (trace w ++ [search; Backoff_sleep 5; search]),
            on_payload (pick_for idn) (FindLinkedins.extract_candidates items) q l))
      /\ (forall m1, provider (S (calls w)) q = Raises m1 ->
          (FindLinkedins.retryable m1 = false ->
           retries
           = (World (S (S (calls w))) (trace w ++ [search; Backoff_sleep 5; search]),
              on_error q l))
          /\ (FindLinkedins.retryable m1 = true ->
              (forall items, provider (S (S (calls w))) q = Payload items ->
                 retries
                 = (World (S (S (S (calls w))))
                      (trace w ++ [search; Backoff_sleep 5; search; Backoff_sleep 10; search]),
                    on_payload (pick_for idn) (FindLinkedins.extract_candidates items) q l))
              /\ (forall m2, provider (S (S (calls w))) q = Raises m2 ->
                  retries
                  = (World (S (S (S (calls w))))
                       (trace w ++ [search; Backoff_sleep 5; search; Backoff_sleep 10; search]),
                     on_error q l)))))
  /\ match_status (on_error q l) = error /\ query_used (on_error q l) = q
  /\ (forall queries w0 w1 l1,
        FindLinkedins.search_with_retries provider idn q 0 5 (log Politeness_sleep w0) l
        = (w1, l1) ->
        match_status l1 = error ->
        FindLinkedins.query_loop provider idn (q :: queries) w0 l = (w1, l1))
  /\ (forall queries w0 w1 l1,
        FindLinkedinsCse.run_query provider idn q (log Politeness_sleep w0) l = (w1, l1) ->
        match_status l1 = error ->
        FindLinkedinsCse.query_loop provider idn (q :: queries) w0 l = (w1, l1))
  /\ (forall records start limit w0,
        length (FindLinkedins.process_records provider records start limit w0).1.2
        = length (record_range records start limit)
        /\ length (FindLinkedinsCse.process_records provider records start limit w0).1.2
           = length (record_range records start limit)).
Proof.
  intros H0 search retries.
  split. { rewrite run_query_unfold. cbv zeta. by rewrite H0. }
  subst retries. rewrite search_with_retries_unfold. cbv zeta. rewrite H0.
  split. { by intros ->. }
  split.
  { intros ->. simpl.
    split.
    - intros items H1. rewrite search_with_retries_unfold. cbv zeta. simpl.
      rewrite H1. by rewrite <- !app_assoc.
    - intros m1 H1. rewrite search_with_retries_unfold. cbv zeta. simpl. rewrite H1.
      split. { intros ->. simpl. by rewrite <- !app_assoc. }
      intros ->. simpl. split.
      + intros items H2. rewrite search_with_retries_unfold. cbv zeta. simpl.
        rewrite H2. by rewrite <- !app_assoc.
      + intros m2 H2. rewrite search_with_retries_unfold. cbv zeta. simpl.
        rewrite H2, andb_false_r. by rewrite <- !app_assoc. }
  split; [done|]. split; [done|].
  split. { intros queries w0 w1 l1. apply query_loop_error. }
  split. { intros queries w0 w1 l1. apply query_loop_cse_error. }
  intros records start limit w0.
  unfold FindLinkedins.process_records, FindLinkedinsCse.process_records.
  by rewrite records_loop_length, records_loop_cse_length.
Qed.

Lemma failed_call_policy_witness :
  FindLinkedins.search_with_retries always_429 amna_identity "q" 0 5 (World 0 [])
    (Locals "" not_found "" [])
  = (World 3 [Search_call "q" (Some "pk"); Backoff_sleep 5; Search_call "q" (Some "pk");
              Backoff_sleep 10; Search_call "q" (Some "pk")],
     Locals "" error "q" []).
Proof.
  pose proof (failed_call_policy always_429 amna_identity "q" (World 0 [])
                (Locals "" not_found "" []) "Google CSE error 429: quota exceeded" eq_refl)
    as H.
  cbv zeta in H. destruct H as (_ & _ & H & _).
  destruct (H eq_refl) as [_ H1].
  destruct (H1 "Google CSE error 429: quota exceeded" eq_refl) as [_ H2].
  destruct (H2 eq_refl) as [_ H3].
  exact (H3 "Google CSE error 429: quota exceeded" eq_refl).
Defined.

(** ** Words, joins and normalized names *)

Lemma string_app_cons (x : ascii) (a b : string) : String x a +:+ b = String x (a +:+ b).
Proof. reflexivity. Qed.

Lemma string_app_nil_l (a : string) : "" +:+ a = a.
Proof. reflexivity. Qed.

Ltac string_app := rewrite ?string_app_cons, ?string_app_nil_l in *.

Lemma string_app_assoc (a b c : string) : (a +:+ b) +:+ c = a +:+ b +:+ c.
Proof. induction a as [|x a IH]; string_app; [done | by f_equal]. Qed.

Lemma string_app_nil_r (a : string) : a +:+ "" = a.
Proof. induction a as [|x a IH]; string_app; [done | by f_equal]. Qed.

Lemma truthy_app_l (a b : string) : Py.truthy a = true -> Py.truthy (a +:+ b) = true.
Proof. by destruct a. Qed.

Lemma words_aux_words (s : string) :
  spaceless (Py.words_aux Py.is_space s).1 = true
  /\ Forall word (Py.words_aux Py.is_space s).2.
Proof.
  induction s as [|c s [IHw IHws]]; simpl; [by split|].
  destruct (Py.words_aux Py.is_space s) as [w ws]. simpl in *.
  destruct (Py.is_space c) eqn:Hc; simpl.
  - split; [done|]. unfold Py.cons_word. destruct (Py.truthy w) eqn:Hw; [|done].
    by constructor.
  - split; [|done]. by rewrite Hc.
Qed.

Lemma split_words (s : string) : Forall word (Py.split s).
Proof.
  unfold Py.split. pose proof (words_aux_words s) as [Hw Hws].
  destruct (Py.words_aux Py.is_space s) as [w ws]. simpl in *.
  unfold Py.cons_word. destruct (Py.truthy w) eqn:Ht; [|done]. by constructor.
Qed.

Lemma words_aux_starts_space (s : string) :
  starts_space s = true -> (Py.words_aux Py.is_space s).1 = "".
Proof.
  destruct s as [|c s]; [done|]. simpl. intros ->.
  by destruct (Py.words_aux Py.is_space s).
Qed.

Lemma words_aux_starts_word (c : ascii) (s : string) :
  Py.is_space c = false -> Py.truthy (Py.words_aux Py.is_space (String c s)).1 = true.
Proof. simpl. intros ->. by destruct (Py.words_aux Py.is_space s). Qed.

Lemma split_cons_space (c : ascii) (s : string) :
  Py.is_space c = true -> Py.split (String c s) = Py.split s.
Proof.
  unfold Py.split. simpl. intros ->. by destruct (Py.words_aux Py.is_space s).
Qed.

Lemma split_cons_word (c : ascii) (s : string) :
  Py.is_space c = false ->
  Py.split (String c s)
  = String c (Py.words_aux Py.is_space s).1 :: (Py.words_aux Py.is_space s).2.
Proof.
  unfold Py.split. simpl. intros ->. by destruct (Py.words_aux Py.is_space s).
Qed.

Lemma join_cons (sep w : string) (ws : list string) :
  Py.join sep (w :: ws) = w +:+ (if is_nil ws then "" else sep +:+ Py.join sep ws).
Proof. destruct ws; simpl; [by rewrite string_app_nil_r | done]. Qed.

Lemma join_words_truthy (ws : list string) :
  Forall word ws -> Py.truthy (Py.join " " ws) = negb (is_nil ws).
Proof.
  destruct 1 as [|w ws [Hw _] _]; [done|]. rewrite join_cons. simpl.
  by apply truthy_app_l.
Qed.

Lemma join_words_starts (ws : list string) :
  Forall word ws -> starts_space (Py.join " " ws) = false.
Proof.
  destruct 1 as [|w ws [Hw Hs] _]; [done|]. rewrite join_cons.
  destruct w as [|c w]; [done|]. simpl in *. by destruct (Py.is_space c).
Qed.

(** The joined words of [c :: s] from those of [s], for a word character. *)
Lemma join_split_cons_word (c : ascii) (s : string) :
  Py.is_space c = false ->
  Py.join " " (Py.split (String c s))
  = String c ((if starts_space s && Py.truthy (Py.join " " (Py.split s)) then " " else "")
              +:+ Py.join " " (Py.split s)).
Proof.
  intros Hc. rewrite split_cons_word by done. rewrite join_cons, string_app_cons. f_equal.
  pose proof (split_words s) as Hsplit.
  rewrite (join_words_truthy _ Hsplit).
  pose proof (words_aux_starts_space s) as Hsp.
  unfold Py.split in *.
  destruct s as [|d s]; [done|].
  pose proof (words_aux_starts_word d s) as Hwd.
  cbn [starts_space] in *.
  destruct (Py.words_aux Py.is_space (String d s)) as [w ws]. cbn [fst snd] in *.
  destruct (Py.is_space d) eqn:Hd.
  - rewrite (Hsp eq_refl). unfold Py.cons_word. cbn [Py.truthy]. string_app.
    by destruct ws.
  - rewrite <- (Hwd eq_refl) at 1. unfold Py.cons_word. rewrite (Hwd eq_refl).
    cbn [andb]. string_app. by rewrite join_cons.
Qed.

Lemma re_sub_spaces_cons_space (c : ascii) (s : string) :
  Py.is_space c = true ->
  Py.re_sub_spaces (String c s)
  = if starts_space s then Py.re_sub_spaces s else String " " (Py.re_sub_spaces s).
Proof. simpl. intros ->. by destruct s. Qed.

(** Stripping the right end of the collapsed text leaves the joined words,
    after one space when the text starts with whitespace. *)
Lemma rstrip_re_sub_spaces (s : string) :
  Py.rstrip (Py.re_sub_spaces s)
  = (if starts_space s && Py.truthy (Py.join " " (Py.split s)) then " " else "")
    +:+ Py.join " " (Py.split s).
Proof.
  induction s as [|c s IH]; [done|].
  destruct (Py.is_space c) eqn:Hc.
  - rewrite re_sub_spaces_cons_space, split_cons_space by done.
    cbn [starts_space]. rewrite Hc. simpl.
    destruct (starts_space s) eqn:Hs; simpl in *.
    + exact IH.
    + rewrite IH. string_app. by destruct (Py.join " " (Py.split s)).
  - rewrite join_split_cons_word by done. cbn [starts_space]. rewrite Hc.
    cbn [Py.re_sub_spaces]. rewrite Hc. cbn [Py.rstrip]. rewrite Hc. cbn [andb].
    string_app. by rewrite IH.
Qed.

Lemma lstrip_no_space (s : string) : starts_space s = false -> Py.lstrip s = s.
Proof. destruct s as [|c s]; [done|]. simpl. by intros ->. Qed.

(** [normalize_whitespace] joins the words of its argument with one space. *)
Lemma normalize_whitespace_join (s : string) :
  normalize_whitespace s = Py.join " " (Py.split s).
Proof.
  unfold normalize_whitespace, Py.strip. rewrite rstrip_re_sub_spaces.
  pose proof (join_words_starts _ (split_words s)) as Hj.
  destruct (starts_space s && _); simpl; by apply lstrip_no_space.
Qed.

Lemma split_on_space_hd (t rest : string) :
  spaceless t = true ->
  hd "" (Py.split_on " "%char (t +:+ String " " rest)) = t
  /\ hd "" (Py.split_on " "%char t) = t.
Proof.
  induction t as [|c t IH]; simpl; [done|].
  intros [Hc Ht]%andb_true_iff. destruct (IH Ht) as [IH1 IH2].
  destruct (Ascii.eqb_spec c " "%char) as [->|Hne]; [done|].
  split.
  - destruct (Py.split_on " "%char (t +:+ String " " rest)); simpl in *; by subst.
  - destruct (Py.split_on " "%char t); simpl in *; by subst.
Qed.

(** [first_name_from] is the first word. *)
Lemma first_name_from_hd (s : string) : first_name_from s = hd "" (Py.split s).
Proof.
  unfold first_name_from. rewrite normalize_whitespace_join.
  pose proof (split_words s) as Hw. rewrite (join_words_truthy _ Hw).
  destruct Hw as [|t ts [Ht Hs] Hts]; [done|]. cbn [is_nil negb hd].
  rewrite join_cons. destruct ts as [|u ts]; cbn [is_nil].
  - rewrite string_app_nil_r. by apply (split_on_space_hd t "").
  - by apply split_on_space_hd.
Qed.

(** ** Truncated names *)














(** * Further properties *)

(** ** The text normalizer *)

Lemma words_aux_append_word (sep : ascii -> bool) (w s : string) :
  string_forall (fun c => negb (sep c)) w = true ->
  Py.words_aux sep (w +:+ s) = (w +:+ (Py.words_aux sep s).1, (Py.words_aux sep s).2).
Proof.
  induction w as [|c w IH]; string_app; intros Hw.
  - by destruct (Py.words_aux sep s).
  - simpl in Hw. apply andb_true_iff in Hw as [Hc Hw].
    cbn [Py.words_aux]. rewrite (IH Hw). apply negb_true_iff in Hc. by rewrite Hc.
Qed.

Lemma spaceless_string_forall (t : string) :
  spaceless t = string_forall (fun c => negb (Py.is_space c)) t.
Proof. induction t as [|c t IH]; simpl; [done | by rewrite IH]. Qed.

Lemma split_fields (s : string) : Py.split s = fields Py.is_space s.
Proof. reflexivity. Qed.

(** Splitting the joined words gives the words back. *)
Lemma split_join_words (ws : list string) :
  Forall word ws -> Py.split (Py.join " " ws) = ws.
Proof.
  induction 1 as [|w ws [Hw Hs] Hws IH]; [done|].
  rewrite join_cons. rewrite spaceless_string_forall in Hs.
  unfold Py.split in *. rewrite words_aux_append_word by done.
  destruct ws as [|u ws]; cbn [is_nil].
  - simpl. rewrite string_app_nil_r. unfold Py.cons_word. by rewrite Hw.
  - set (j := Py.join " " (u :: ws)) in *. string_app. cbn [Py.words_aux].
    change (Py.is_space " ") with true. cbv iota.
    destruct (Py.words_aux Py.is_space j) as [w' ws']. cbn [fst snd].
    rewrite string_app_nil_r, IH. unfold Py.cons_word. by rewrite Hw.
Qed.

Lemma rstrip_spaceless (w : string) : spaceless w = true -> Py.rstrip w = w.
Proof.
  induction w as [|c w IH]; [done|]. simpl. intros [Hc Hw]%andb_true_iff.
  apply negb_true_iff in Hc. by rewrite Hc, IH.
Qed.

Lemma rstrip_app (a b : string) :
  Py.truthy (Py.rstrip b) = true -> Py.rstrip (a +:+ b) = a +:+ Py.rstrip b.
Proof.
  intros Hb. induction a as [|c a IH]; string_app; [done|].
  cbn [Py.rstrip]. rewrite IH.
  destruct a; string_app; [by rewrite Hb, andb_false_r | by rewrite andb_false_r].
Qed.

Lemma rstrip_join_words (ws : list string) :
  Forall word ws -> Py.rstrip (Py.join " " ws) = Py.join " " ws.
Proof.
  induction 1 as [|w ws [Hw Hs] Hws IH]; [done|]. rewrite join_cons.
  destruct ws as [|u ws]; cbn [is_nil].
  - rewrite string_app_nil_r. by apply rstrip_spaceless.
  - assert (Py.truthy (Py.join " " (u :: ws)) = true) as Ht
      by (by rewrite (join_words_truthy _ Hws)).
    rewrite rstrip_app; rewrite rstrip_app; rewrite IH; done.
Qed.

(** X1. [normalize_whitespace] returns the words of its argument (the
    maximal runs of non-whitespace characters) joined by single spaces: the
    result has the same words as the argument, and neither starts nor ends
    with whitespace. *)
Theorem normalize_whitespace_words (s : string) :
  normalize_whitespace s = Py.join " " (Py.split s)
  /\ Forall word (Py.split s)
  /\ Py.split (normalize_whitespace s) = Py.split s
  /\ Py.lstrip (normalize_whitespace s) = normalize_whitespace s
  /\ Py.rstrip (normalize_whitespace s) = normalize_whitespace s.
Proof.
  pose proof (split_words s) as Hw.
  rewrite normalize_whitespace_join.
  split; [done|]. split; [done|]. split; [by apply split_join_words|].
  split; [by apply lstrip_no_space, join_words_starts | by apply rstrip_join_words].
Qed.

(** X2. Normalizing twice is normalizing once. *)
Theorem normalize_whitespace_idempotent (s : string) :
  normalize_whitespace (normalize_whitespace s) = normalize_whitespace s.
Proof.
  rewrite !normalize_whitespace_join. rewrite split_join_words; [done|].
  apply split_words.
Qed.

(** X3. [first_name_from] returns the first word of the name, which is
    non-empty and without whitespace, and the empty string exactly when the
    name has no word (it is empty or all whitespace); the normalized name
    starts with it. *)
Theorem first_name_from_first_word (name : string) :
  first_name_from name = hd "" (Py.split name)
  /\ spaceless (first_name_from name) = true
  /\ (first_name_from name = "" <-> Py.split name = [])
  /\ (first_name_from name = "" <-> normalize_whitespace name = "")
  /\ Py.startswith (normalize_whitespace name) (first_name_from name) = true.
Proof.
  rewrite first_name_from_hd, normalize_whitespace_join.
  pose proof (split_words name) as Hw.
  destruct Hw as [|w ws [Hw Hs] Hws]; cbn [hd].
  - repeat split; done.
  - rewrite join_cons. split; [done|]. split; [done|].
    split; [split; [by intros ->|done]|].
    split.
    + split; [by intros ->|]. intros H. destruct w; [done|]. by string_app.
    + apply prefix_app. eexists. reflexivity.
Qed.

(** ** The tokenizers *)

Lemma words_aux_fields (sep : ascii -> bool) (s : string) :
  string_forall (fun c => negb (sep c)) (Py.words_aux sep s).1 = true
  /\ Forall (field_of sep) (Py.words_aux sep s).2.
Proof.
  induction s as [|c s [IHw IHws]]; simpl; [by split|].
  destruct (Py.words_aux sep s) as [w ws]. simpl in *.
  destruct (sep c) eqn:Hc; simpl.
  - split; [done|]. unfold Py.cons_word. destruct (Py.truthy w) eqn:Hw; [|done].
    by constructor.
  - split; [|done]. by rewrite Hc.
Qed.

Lemma fields_are_fields (sep : ascii -> bool) (s : string) :
  Forall (field_of sep) (fields sep s).
Proof.
  unfold fields. pose proof (words_aux_fields sep s) as [Hw Hws].
  destruct (Py.words_aux sep s) as [w ws]. simpl in *.
  unfold Py.cons_word. destruct (Py.truthy w) eqn:Ht; [|done]. by constructor.
Qed.

Lemma filter_truthy_cons_word (w : string) (ps : list string) :
  List.filter Py.truthy (w :: ps) = Py.cons_word w (List.filter Py.truthy ps).
Proof. simpl. unfold Py.cons_word. by destruct (Py.truthy w). Qed.

(** The pieces of [re.split] without the empty ones are the fields. *)
Lemma re_split_go_fields (sep : ascii -> bool) (s : string) :
  (exists ps, Py.re_split_go sep false s = (Py.words_aux sep s).1 :: ps
              /\ List.filter Py.truthy ps = (Py.words_aux sep s).2)
  /\ List.filter Py.truthy (Py.re_split_go sep true s) = fields sep s.
Proof.
  unfold fields.
  induction s as [|c s [(ps & Hps & Hf) IH2]]; cbn [Py.re_split_go Py.words_aux].
  - split; [by exists []|done].
  - destruct (Py.words_aux sep s) as [w ws]. cbn [fst snd] in *.
    destruct (sep c).
    + split; [by exists (Py.re_split_go sep true s)|]. by rewrite IH2.
    + rewrite Hps. split; [by exists ps|]. simpl. by rewrite Hf.
Qed.

Lemma re_split_fields (sep : ascii -> bool) (s : string) :
  List.filter Py.truthy (Py.re_split sep s) = fields sep s.
Proof.
  unfold Py.re_split, fields.
  destruct (re_split_go_fields sep s) as [(ps & -> & Hf) _].
  rewrite filter_truthy_cons_word, Hf. by destruct (Py.words_aux sep s).
Qed.

Lemma words_aux_lstrip (sep : ascii -> bool) (s : string) :
  (forall c, Py.is_space c = true -> sep c = true) ->
  fields sep (Py.lstrip s) = fields sep s.
Proof.
  intros Hsep. unfold fields. induction s as [|c s IH]; [done|]. cbn [Py.lstrip].
  destruct (Py.is_space c) eqn:Hc; [|done].
  rewrite IH. cbn [Py.words_aux]. rewrite (Hsep c Hc).
  destruct (Py.words_aux sep s) as [w ws]. done.
Qed.

Lemma words_aux_rstrip (sep : ascii -> bool) (s : string) :
  (forall c, Py.is_space c = true -> sep c = true) ->
  Py.words_aux sep (Py.rstrip s) = Py.words_aux sep s.
Proof.
  intros Hsep. induction s as [|c s IH]; [done|]. cbn [Py.rstrip].
  destruct (Py.is_space c && negb (Py.truthy (Py.rstrip s))) eqn:Hb.
  - apply andb_true_iff in Hb as [Hc Hr]. apply negb_true_iff in Hr.
    cbn [Py.words_aux]. rewrite <- IH, (Hsep c Hc).
    by destruct (Py.rstrip s).
  - cbn [Py.words_aux]. by rewrite IH.
Qed.

Lemma words_aux_starts_sep (sep : ascii -> bool) (s : string) :
  (forall c, Py.is_space c = true -> sep c = true) ->
  starts_space s = true ->
  Py.words_aux sep s = ("", fields sep s).
Proof.
  intros Hsep. destruct s as [|c s]; [done|]. simpl. intros Hc. unfold fields.
  cbn [Py.words_aux]. rewrite (Hsep c Hc). by destruct (Py.words_aux sep s).
Qed.

Lemma words_aux_re_sub_spaces (sep : ascii -> bool) (s : string) :
  (forall c, Py.is_space c = true -> sep c = true) ->
  Py.words_aux sep (Py.re_sub_spaces s) = Py.words_aux sep s.
Proof.
  intros Hsep. induction s as [|c s IH]; [done|].
  destruct (Py.is_space c) eqn:Hc.
  - rewrite re_sub_spaces_cons_space by done.
    cbn [Py.words_aux]. rewrite (Hsep c Hc).
    destruct (starts_space s) eqn:Hs.
    + rewrite IH, (words_aux_starts_sep sep s Hsep Hs). unfold fields.
      rewrite (words_aux_starts_sep sep s Hsep Hs). done.
    + cbn [Py.words_aux]. rewrite (Hsep " "%char eq_refl), IH. done.
  - cbn [Py.re_sub_spaces]. rewrite Hc. cbn [Py.words_aux]. by rewrite IH.
Qed.

(** Normalizing does not change the fields, when whitespace separates. *)
Lemma fields_normalize_whitespace (sep : ascii -> bool) (s : string) :
  (forall c, Py.is_space c = true -> sep c = true) ->
  fields sep (normalize_whitespace s) = fields sep s.
Proof.
  intros Hsep. unfold normalize_whitespace, Py.strip.
  rewrite words_aux_lstrip by done. unfold fields.
  by rewrite words_aux_rstrip, words_aux_re_sub_spaces.
Qed.

Lemma filter_long_truthy (l : list string) :
  List.filter (fun t => (2 <=? String.length t)%nat) (List.filter Py.truthy l)
  = List.filter (fun t => (2 <=? String.length t)%nat) l.
Proof.
  induction l as [|t l IH]; [done|]. destruct t as [|c t].
  - cbn [List.filter Py.truthy]. rewrite IH. done.
  - cbn [List.filter Py.truthy]. by rewrite IH.
Qed.

Lemma filter_truthy_fields (sep : ascii -> bool) (s : string) :
  List.filter Py.truthy (fields sep s) = fields sep s.
Proof.
  pose proof (fields_are_fields sep s) as H.
  induction H as [|t l [Ht _] _ IH]; [done|]. simpl. by rewrite Ht, IH.
Qed.

(** X4. [tokenize_skill] returns the words of the skill text, as
    [str.split()] does: non-empty, without whitespace, in order; the
    normalization and the filter before and after [re.split] change
    nothing. *)
Theorem tokenize_skill_words (skill : string) :
  tokenize_skill skill = Py.split skill
  /\ Forall word (tokenize_skill skill)
  /\ Py.join " " (tokenize_skill skill) = normalize_whitespace skill.
Proof.
  assert (tokenize_skill skill = Py.split skill) as ->.
  { unfold tokenize_skill. rewrite re_split_fields.
    rewrite (fields_normalize_whitespace Py.is_space) by done.
    rewrite normalize_whitespace_join, (join_words_truthy _ (split_words skill)), negb_involutive.
    rewrite split_fields. by destruct (fields Py.is_space skill). }
  split; [done|]. split; [apply split_words|]. by rewrite normalize_whitespace_join.
Qed.

(** X5. [tokenize_location] returns, in order, the maximal runs of
    characters that are neither whitespace nor commas and have length at
    least 2: every token has at least two characters and holds no
    whitespace and no comma, and a location without such a run gives no
    token. *)
Theorem tokenize_location_fields (loc : string) :
  tokenize_location loc
  = List.filter (fun t => (2 <=? String.length t)%nat) (fields is_space_or_comma loc)
  /\ Forall (fun t => (2 <= String.length t)%nat
                      /\ string_forall (fun c => negb (Py.is_space c)) t = true
                      /\ string_forall (fun c => negb (Ascii.eqb c ","%char)) t = true)
            (tokenize_location loc).
Proof.
  assert (forall c, Py.is_space c = true -> is_space_or_comma c = true) as Hsep
    by (intros c Hc; unfold is_space_or_comma; by rewrite Hc).
  assert (tokenize_location loc
          = List.filter (fun t => (2 <=? String.length t)%nat) (fields is_space_or_comma loc))
    as ->.
  { unfold tokenize_location.
    rewrite <- filter_long_truthy, re_split_fields.
    rewrite (fields_normalize_whitespace is_space_or_comma) by done.
    destruct (Py.truthy (normalize_whitespace loc)) eqn:Hn; [done|]. simpl.
    rewrite <- (fields_normalize_whitespace is_space_or_comma loc Hsep).
    by destruct (normalize_whitespace loc). }
  split; [done|].
  apply Forall_forall. intros t Ht. apply list_elem_of_In, filter_In in Ht as [Ht Hlen].
  apply Nat.leb_le in Hlen. split; [done|].
  pose proof (fields_are_fields is_space_or_comma loc) as Hf.
  rewrite Forall_forall in Hf. apply list_elem_of_In, Hf in Ht as [_ Ht].
  clear -Ht. induction t as [|c t IH]; [done|]. simpl in *.
  apply andb_true_iff in Ht as [Hc Ht]. destruct (IH Ht) as [-> ->].
  unfold is_space_or_comma in Hc. apply negb_true_iff, orb_false_iff in Hc as [-> ->].
  done.
Qed.

(** ** The query synthesizers *)

Lemma site_restricted_app (a q : string) : site_restricted q -> site_restricted (a +:+ q).
Proof. intros [body ->]. exists (a +:+ body). by rewrite string_app_assoc. Qed.

Lemma site_restricted_suffix : site_restricted site_suffix.
Proof. by exists "". Qed.

Create HintDb site.

#[local] Hint Resolve site_restricted_app site_restricted_suffix : site.

Ltac list_cases H :=
  repeat (apply elem_of_app in H as [H|H]);
  repeat match type of H with
         | _ ∈ (if ?b then _ else _) => destruct b
         | _ ∈ _ ++ _ => apply elem_of_app in H as [H|H]
         | _ ∈ _ :: _ => apply elem_of_cons in H as [->|H]
         | _ ∈ [] => by apply elem_of_nil in H
         end.

Lemma assembled_site_restricted name location skills role country q :
  q ∈ FindLinkedins.assemble_queries name location skills role country
  \/ q ∈ FindLinkedinsCse.assemble_queries name location skills role country ->
  site_restricted q.
Proof.
  unfold FindLinkedins.assemble_queries, FindLinkedinsCse.assemble_queries,
    FindLinkedins.truncated_stage, FindLinkedinsCse.truncated_stage,
    FindLinkedins.full_name_stage, FindLinkedinsCse.full_name_stage.
  intros [H|H]; list_cases H; auto 10 with site.
Qed.

(** X6. Every query of [build_queries] and of [build_cse_queries] ends
    with the site restriction [ site:linkedin.com/in]. *)
Theorem queries_site_restricted
    (name location : string) (skills : list string) (role country primary_category : string) :
  Forall site_restricted
    (FindLinkedins.build_queries name location skills role country primary_category)
  /\ Forall site_restricted
       (FindLinkedinsCse.build_cse_queries name location skills role country).
Proof.
  split; apply Forall_forall; intros q Hq.
  - apply (assembled_site_restricted name location skills role country). left.
    by apply (dedupe_capped 8).
  - apply (assembled_site_restricted name location skills role country). right.
    by apply (dedupe_capped 6).
Qed.

Lemma truthy_quoted (s : string) : Py.truthy (Py.quoted s) = true.
Proof. reflexivity. Qed.

Lemma take_dedupe_nil (cap : nat) (l : list string) :
  take (S cap) (dedupe l) = [] -> l = [].
Proof.
  rewrite dedupe_first_occurrences. by destruct l.
Qed.

(** X7. The query list is empty exactly when the name is the empty string:
    any other name, even one of whitespace only, gives at least one query,
    so that a search is made. *)
Theorem queries_empty_iff_name_empty
    (name location : string) (skills : list string) (role country primary_category : string) :
  (FindLinkedins.build_queries name location skills role country primary_category = []
   <-> name = "")
  /\ (FindLinkedinsCse.build_cse_queries name location skills role country = []
      <-> name = "").
Proof.
  split; split.
  - intros H. apply take_dedupe_nil in H. destruct name as [|c name]; [done|].
    exfalso. revert H. unfold FindLinkedins.assemble_queries, name_q_of.
    cbn [Py.truthy]. rewrite truthy_quoted. cbn [andb].
    intros H. by apply app_eq_nil in H as [_ H].
  - by intros ->.
  - intros H. apply take_dedupe_nil in H. destruct name as [|c name]; [done|].
    exfalso. revert H. unfold FindLinkedinsCse.assemble_queries, name_q_of.
    cbn [Py.truthy]. rewrite truthy_quoted.
    intros H. apply app_eq_nil in H as [_ H]. apply app_eq_nil in H as [_ H].
    by apply app_eq_nil in H as [_ H].
  - by intros ->.
Qed.


(** ** The candidate extractors *)

Lemma hd_split_on (c : ascii) (s : string) : hd "" (Py.split_on c s) = before c s.
Proof.
  induction s as [|d s IH]; [done|]. simpl.
  destruct (Ascii.eqb d c); [done|].
  destruct (Py.split_on c s); simpl in *; by rewrite <- IH.
Qed.

Lemma before_forall (p : ascii -> bool) (c : ascii) (s : string) :
  string_forall p s = true -> string_forall p (before c s) = true.
Proof.
  induction s as [|d s IH]; [done|]. simpl. intros [Hd Hs]%andb_true_iff.
  destruct (Ascii.eqb d c); [done|]. simpl. by rewrite Hd, IH.
Qed.

Lemma before_free (c : ascii) (s : string) :
  string_forall (fun d => negb (Ascii.eqb d c)) (before c s) = true.
Proof.
  induction s as [|d s IH]; [done|]. simpl.
  destruct (Ascii.eqb d c) eqn:Hd; [done|]. simpl. by rewrite Hd, IH.
Qed.

Lemma lower_char_idempotent (c : ascii) : Py.lower_char (Py.lower_char c) = Py.lower_char c.
Proof. by destruct c as [[] [] [] [] [] [] [] []]. Qed.

Lemma lower_forall (s : string) :
  string_forall (fun c => Ascii.eqb (Py.lower_char c) c) (Py.lower s) = true.
Proof.
  induction s as [|c s IH]; [done|]. simpl.
  by rewrite lower_char_idempotent, Ascii.eqb_refl, IH.
Qed.

Lemma lower_fixed (s : string) :
  string_forall (fun c => Ascii.eqb (Py.lower_char c) c) s = true -> Py.lower s = s.
Proof.
  induction s as [|c s IH]; [done|]. simpl. intros [Hc Hs]%andb_true_iff.
  apply Ascii.eqb_eq in Hc. by rewrite Hc, IH.
Qed.

Lemma canonical_link_clean (link : string) :
  Py.lower (canonical_link link) = canonical_link link
  /\ string_forall (fun c => negb (Ascii.eqb c "?"%char)) (canonical_link link) = true
  /\ string_forall (fun c => negb (Ascii.eqb c "#"%char)) (canonical_link link) = true.
Proof.
  unfold canonical_link. repeat split.
  - apply lower_fixed. do 2 apply before_forall. apply lower_forall.
  - apply before_forall, before_free.
  - apply before_free.
Qed.

Lemma candidate_of_clean (prefixes : list string) (it : item) (cand : candidate) :
  candidate_of prefixes it = Some cand ->
  exists u t s, cand = mk_candidate u t s /\ clean_profile_url prefixes u.
Proof.
  unfold candidate_of. destruct (existsb _ _) eqn:He; [|done]. intros [= <-].
  eexists _, _, _. split; [done|].
  destruct (canonical_link_clean (Py.or_empty (i_link it))) as (Hl & Hq & Hh).
  repeat split; try done.
  apply existsb_exists in He as (p & Hp & Hs). exists p. by rewrite list_elem_of_In.
Qed.

Lemma take_five_full {A} (l rest : list A) (x : A) :
  (length l < 5)%nat ->
  (if (5 <=? length (l ++ [x]))%nat then l ++ [x] else take 5 ((l ++ [x]) ++ rest))
  = take 5 (l ++ x :: rest).
Proof.
  intros Hlen. rewrite (cons_middle x l rest), app_assoc.
  destruct (Nat.leb_spec 5 (length (l ++ [x]))) as [Hge|Hlt]; [|done].
  rewrite take_app_le by done. rewrite take_ge; [done|].
  rewrite length_app in *. simpl in *. lia.
Qed.

Lemma extract_loop_spec (cands : list candidate) (org : list item) :
  (length cands < 5)%nat ->
  FindLinkedins.extract_loop cands org
  = take 5 (cands ++ omap (candidate_of profile_prefixes) org).
Proof.
  revert cands. induction org as [|it org IH]; intros cands Hlen.
  - simpl. rewrite app_nil_r. by rewrite take_ge by lia.
  - cbn [FindLinkedins.extract_loop omap list_omap]. rewrite !hd_split_on.
    fold (canonical_link (Py.or_empty (i_link it))).
    unfold candidate_of at 1. cbn [existsb profile_prefixes].
    rewrite orb_false_r, !orb_assoc.
    destruct (_ || _ || _ || _); cbn [negb]; [|by apply IH].
    rewrite <- take_five_full by done.
    destruct (Nat.leb_spec 5 (length (cands ++ [mk_candidate
      (canonical_link (Py.or_empty (i_link it))) (Py.or_empty (i_title it))
      (Py.or_empty (i_snippet it))]))) as [Hge|Hlt]; [done|].
    by apply IH.
Qed.

Lemma extract_loop_cse_spec (cands : list candidate) (items : list item) :
  (length cands < 5)%nat ->
  FindLinkedinsCse.extract_loop cands items
  = take 5 (cands ++ omap (candidate_of profile_prefixes_cse) items).
Proof.
  revert cands. induction items as [|it items IH]; intros cands Hlen.
  - simpl. rewrite app_nil_r. by rewrite take_ge by lia.
  - cbn [FindLinkedinsCse.extract_loop omap list_omap]. rewrite !hd_split_on.
    fold (canonical_link (Py.or_empty (i_link it))).
    unfold candidate_of at 1. cbn [existsb profile_prefixes_cse].
    rewrite orb_false_r.
    destruct (_ || _); cbn [negb]; [|by apply IH].
    rewrite <- take_five_full by done.
    destruct (Nat.leb_spec 5 (length (cands ++ [mk_candidate
      (canonical_link (Py.or_empty (i_link it))) (Py.or_empty (i_title it))
      (Py.or_empty (i_snippet it))]))) as [Hge|Hlt]; [done|].
    by apply IH.
Qed.

(** X9. Both extractors return the first five qualifying items, in the
    order of the payload: the loop with its [break] is the first five of the
    list of candidates of the items whose cleaned link starts with a profile
    prefix ([/in/] and [/pub/] in [find_linkedins.py], [/in/] only in
    [find_linkedins_cse.py]); so never more than five, and a payload
    without items gives none. *)
Theorem extractors_first_five (org : list item) :
  FindLinkedins.extract_candidates org = take 5 (omap (candidate_of profile_prefixes) org)
  /\ FindLinkedinsCse.extract_linkedin_candidates org
     = take 5 (omap (candidate_of profile_prefixes_cse) org)
  /\ (length (FindLinkedins.extract_candidates org) <= 5)%nat
  /\ (length (FindLinkedinsCse.extract_linkedin_candidates org) <= 5)%nat.
Proof.
  unfold FindLinkedins.extract_candidates, FindLinkedinsCse.extract_linkedin_candidates.
  rewrite extract_loop_spec, extract_loop_cse_spec by (simpl; lia). cbn [app].
  rewrite !length_take. repeat split; lia.
Qed.

Lemma omap_candidate_of_clean (prefixes : list string) (org : list item) (cand : candidate) :
  cand ∈ take 5 (omap (candidate_of prefixes) org) ->
  exists u t s, cand = mk_candidate u t s /\ clean_profile_url prefixes u.
Proof.
  intros Hin. apply elem_of_take in Hin as (i & Hi & _).
  apply list_elem_of_lookup_2 in Hi. apply list_elem_of_omap in Hi as (it & _ & Hit).
  by eapply candidate_of_clean.
Qed.

(** X10. Every candidate of the extractors carries a cleaned profile URL:
    lower case, without question mark or hash, starting with one of the
    profile prefixes of its extractor. *)
Theorem extracted_urls_clean (org : list item) :
  Forall (fun cand => exists u, url cand = Some u /\ clean_profile_url profile_prefixes u)
         (FindLinkedins.extract_candidates org)
  /\ Forall (fun cand => exists u,
               url cand = Some u /\ clean_profile_url profile_prefixes_cse u)
            (FindLinkedinsCse.extract_linkedin_candidates org).
Proof.
  unfold FindLinkedins.extract_candidates, FindLinkedinsCse.extract_linkedin_candidates.
  rewrite extract_loop_spec, extract_loop_cse_spec by (simpl; lia). cbn [app].
  split; apply Forall_forall; intros cand Hin;
    apply omap_candidate_of_clean in Hin as (u & t & s & -> & Hu); by exists u.
Qed.

(** ** The country hint *)

Lemma is_space_lower_char (c : ascii) : Py.is_space (Py.lower_char c) = Py.is_space c.
Proof. by destruct c as [[] [] [] [] [] [] [] []]. Qed.

Lemma lower_idempotent (s : string) : Py.lower (Py.lower s) = Py.lower s.
Proof.
  induction s as [|c s IH]; [done|]. simpl. by rewrite lower_char_idempotent, IH.
Qed.

Lemma truthy_lower (s : string) : Py.truthy (Py.lower s) = Py.truthy s.
Proof. by destruct s. Qed.

Lemma lstrip_lower (s : string) : Py.lstrip (Py.lower s) = Py.lower (Py.lstrip s).
Proof.
  induction s as [|c s IH]; [done|]. simpl. rewrite is_space_lower_char.
  by destruct (Py.is_space c).
Qed.

Lemma rstrip_lower (s : string) : Py.rstrip (Py.lower s) = Py.lower (Py.rstrip s).
Proof.
  induction s as [|c s IH]; [done|]. simpl.
  rewrite is_space_lower_char, IH, truthy_lower.
  by destruct (Py.is_space c && negb (Py.truthy (Py.rstrip s))).
Qed.

Lemma strip_lower (s : string) : Py.strip (Py.lower s) = Py.lower (Py.strip s).
Proof. unfold Py.strip. by rewrite rstrip_lower, lstrip_lower. Qed.

Lemma lstrip_idempotent (s : string) : Py.lstrip (Py.lstrip s) = Py.lstrip s.
Proof.
  induction s as [|c s IH]; [done|]. simpl.
  destruct (Py.is_space c) eqn:Hc; [done|]. simpl. by rewrite Hc.
Qed.

Lemma rstrip_idempotent (s : string) : Py.rstrip (Py.rstrip s) = Py.rstrip s.
Proof.
  induction s as [|c s IH]; [done|]. simpl.
  destruct (Py.is_space c && negb (Py.truthy (Py.rstrip s))) eqn:Hb; [done|].
  simpl. by rewrite IH, Hb.
Qed.

Lemma rstrip_lstrip_fixed (x : string) :
  Py.rstrip x = x -> Py.rstrip (Py.lstrip x) = Py.lstrip x.
Proof.
  induction x as [|c x IH]; [done|]. intros Hx. cbn [Py.lstrip].
  destruct (Py.is_space c) eqn:Hc; [|done].
  apply IH. simpl in Hx. rewrite Hc in Hx.
  destruct (negb (Py.truthy (Py.rstrip x))); simpl in Hx; [done|]. by injection Hx.
Qed.

Lemma strip_idempotent (s : string) : Py.strip (Py.strip s) = Py.strip s.
Proof.
  unfold Py.strip.
  rewrite (rstrip_lstrip_fixed (Py.rstrip s)) by apply rstrip_idempotent.
  apply lstrip_idempotent.
Qed.

Lemma gl_mapping_codes (k g : string) :
  FindLinkedins.gl_mapping !! k = Some g ->
  g ∈ ["us"; "pk"; "in"; "ng"; "ph"; "bd"; "ca"; "ma"; "al"; "ve"; "gb"].
Proof.
  unfold FindLinkedins.gl_mapping. intros H. apply elem_of_list_to_map_2 in H.
  repeat (apply elem_of_cons in H as [[= -> ->]|H];
          [rewrite !elem_of_cons; tauto|]).
  by apply elem_of_nil in H.
Qed.

(** X11. [country_to_gl] answers for the stripped, lower-cased country:
    the answer does not change when the country is replaced by that form,
    so case and surrounding whitespace do not matter; a blank country has no
    hint, and a hint is always one of the eleven two-letter codes of the
    table. *)
Theorem country_to_gl_normalizes (country : string) :
  FindLinkedins.country_to_gl (Py.lower (Py.strip country))
  = FindLinkedins.country_to_gl country
  /\ (Py.strip country = "" -> FindLinkedins.country_to_gl country = None)
  /\ (forall g, FindLinkedins.country_to_gl country = Some g ->
        g ∈ ["us"; "pk"; "in"; "ng"; "ph"; "bd"; "ca"; "ma"; "al"; "ve"; "gb"]
        /\ FindLinkedins.gl_mapping !! Py.lower (Py.strip country) = Some g).
Proof.
  unfold FindLinkedins.country_to_gl. split; [|split].
  - by rewrite strip_lower, strip_idempotent, lower_idempotent.
  - by intros ->.
  - intros g. destruct (Py.truthy _); [|done]. simpl. intros H.
    split; [by eapply gl_mapping_codes | done].
Qed.

(** ** The range of the score *)

Lemma name_bonus_range full_name_lower combined_text :
  (0 <= FindLinkedins.name_bonus full_name_lower combined_text <= 3)%Z
  /\ (0 <= FindLinkedinsCse.name_bonus full_name_lower combined_text <= 4)%Z.
Proof.
  unfold FindLinkedins.name_bonus, FindLinkedinsCse.name_bonus.
  repeat match goal with |- context [if ?b then _ else _] => destruct b end; lia.
Qed.

Lemma location_bonus_range loc_tokens combined_text :
  (0 <= FindLinkedins.location_bonus loc_tokens combined_text <= 4)%Z
  /\ FindLinkedinsCse.location_bonus loc_tokens combined_text
     = FindLinkedins.location_bonus loc_tokens combined_text.
Proof.
  split; [|done]. unfold FindLinkedins.location_bonus, Py.count.
  destruct (_ >? 0)%Z eqn:H; lia.
Qed.

Lemma context_bonus_range combined_text :
  (0 <= FindLinkedins.context_bonus combined_text <= 2)%Z
  /\ (0 <= FindLinkedinsCse.context_bonus combined_text <= 2)%Z.
Proof.
  unfold FindLinkedins.context_bonus, FindLinkedinsCse.context_bonus.
  repeat match goal with |- context [if ?b then _ else _] => destruct b end; lia.
Qed.

Lemma url_bonus_range fn full_name_lower url :
  (0 <= FindLinkedins.url_bonus fn full_name_lower url <= 2)%Z
  /\ (0 <= FindLinkedinsCse.url_bonus fn full_name_lower url <= 2)%Z.
Proof.
  unfold FindLinkedins.url_bonus, FindLinkedinsCse.url_bonus.
  repeat match goal with |- context [if ?b then _ else _] => destruct b end; lia.
Qed.

Lemma support_bonus_range tokens combined_text :
  (0 <= FindLinkedins.support_bonus tokens combined_text <= 1)%Z
  /\ FindLinkedinsCse.support_bonus tokens combined_text
     = FindLinkedins.support_bonus tokens combined_text.
Proof.
  split; [|done]. unfold FindLinkedins.support_bonus.
  destruct (_ && _); lia.
Qed.

(** X12. A candidate whose title holds the first name is scored by both
    selectors, between 3 and 16 points in find_linkedins.py and between 3
    and 17 in find_linkedins_cse.py: the 3 points of the first name, and
    at most 3 (4) for the name, 4 for the location, 2 for the context, 2
    for the URL and 1 each for the role and the skills. *)
Theorem score_candidate_range
    (full_name first_name : string) (loc_tokens skill_tokens role_tokens : list string)
    (cand : candidate) :
  gate first_name cand = true ->
  exists s s',
    FindLinkedins.score_candidate full_name first_name loc_tokens skill_tokens role_tokens cand
    = Some s
    /\ FindLinkedinsCse.score_candidate full_name first_name loc_tokens skill_tokens
         role_tokens cand = Some s'
    /\ (3 <= s <= 16)%Z /\ (3 <= s' <= 17)%Z.
Proof.
  intros Hg. eexists _, _.
  split; [by apply score_candidate_sum|]. split; [by apply score_candidate_cse_sum|].
  pose proof (name_bonus_range (Py.lower full_name) (combined_text_of cand)) as [? ?].
  pose proof (location_bonus_range loc_tokens (combined_text_of cand)) as [? Hl].
  pose proof (context_bonus_range (combined_text_of cand)) as [? ?].
  pose proof (url_bonus_range (Py.lower first_name) (Py.lower full_name)
                (Py.lower (Py.or_empty (url cand)))) as [? ?].
  pose proof (support_bonus_range role_tokens (combined_text_of cand)) as [? Hr].
  pose proof (support_bonus_range skill_tokens (combined_text_of cand)) as [? Hs].
  rewrite Hl, Hr, Hs. lia.
Qed.

Lemma score_candidate_range_witness :
  gate "Amna" amna_profile_hit = true
  /\ exists s s',
       FindLinkedins.score_candidate "Amna M." "Amna" ["Lahore"; "Pakistan"]
         ["Market"; "Research"] [] amna_profile_hit = Some s
       /\ FindLinkedinsCse.score_candidate "Amna M." "Amna" ["Lahore"; "Pakistan"]
            ["Market"; "Research"] [] amna_profile_hit = Some s'
       /\ (3 <= s <= 16)%Z /\ (3 <= s' <= 17)%Z.
Proof.
  split; [reflexivity|].
  apply (score_candidate_range "Amna M." "Amna" ["Lahore"; "Pakistan"]
           ["Market"; "Research"] [] amna_profile_hit).
  reflexivity.
Defined.

(** ** The record processors as instances of one loop *)

Lemma query_loop_query_loop_of provider idn queries w l :
  FindLinkedins.query_loop provider idn queries w l
  = query_loop_of (fun q w l => FindLinkedins.search_with_retries provider idn q 0 5 w l)
      queries w l.
Proof.
  revert w l. induction queries as [|q queries IH]; intros w l; [done|]. simpl.
  destruct (FindLinkedins.search_with_retries _ _ _ _ _ _ _) as [w1 l1].
  by destruct (match_status l1).
Qed.

Lemma query_loop_cse_query_loop_of provider idn queries w l :
  FindLinkedinsCse.query_loop provider idn queries w l
  = query_loop_of (FindLinkedinsCse.run_query provider idn) queries w l.
Proof.
  revert w l. induction queries as [|q queries IH]; intros w l; [done|]. simpl.
  destruct (FindLinkedinsCse.run_query _ _ _ _ _) as [w1 l1].
  by destruct (match_status l1).
Qed.

Lemma process_record_process_record_of provider r w :
  FindLinkedins.process_record provider r w
  = process_record_of
      (fun q w l => FindLinkedins.search_with_retries provider (identity_of r) q 0 5 w l)
      (queries_of r) r w.
Proof.
  unfold FindLinkedins.process_record, process_record_of, queries_of.
  by rewrite query_loop_query_loop_of.
Qed.

Lemma process_record_cse_process_record_of provider r w :
  FindLinkedinsCse.process_record provider r w
  = process_record_of (FindLinkedinsCse.run_query provider (identity_cse_of r))
      (queries_cse_of r) r w.
Proof.
  unfold FindLinkedinsCse.process_record, process_record_of, queries_cse_of.
  by rewrite query_loop_cse_query_loop_of.
Qed.

Lemma records_loop_records_loop_of provider records w out_rows cnt :
  FindLinkedins.records_loop provider records w out_rows cnt
  = records_loop_of (FindLinkedins.process_record provider) 100 records w out_rows cnt.
Proof.
  revert w out_rows cnt. induction records as [|r records IH]; intros w out_rows cnt; [done|].
  cbn [FindLinkedins.records_loop records_loop_of].
  destruct (FindLinkedins.process_record provider r w) as [w1 out]. apply IH.
Qed.

Lemma records_loop_cse_records_loop_of provider records w out_rows cnt :
  FindLinkedinsCse.records_loop provider records w out_rows cnt
  = records_loop_of (FindLinkedinsCse.process_record provider) 50 records w out_rows cnt.
Proof.
  revert w out_rows cnt. induction records as [|r records IH]; intros w out_rows cnt; [done|].
  cbn [FindLinkedinsCse.records_loop records_loop_of].
  destruct (FindLinkedinsCse.process_record provider r w) as [w1 out]. apply IH.
Qed.

(** ** One query *)

Lemma search_with_retries_outcome provider idn q attempts backoff w l :
  exists k,
    (1 <= k <= Nat.max 1 (3 - attempts))%nat
    /\ (FindLinkedins.search_with_retries provider idn q attempts backoff w l).1
       = World (calls w + k) (trace w ++ attempts_trace q (id_gl idn) backoff k)
    /\ ((exists msg,
           provider (calls w + k - 1)%nat q = Raises msg
           /\ (FindLinkedins.search_with_retries provider idn q attempts backoff w l).2
              = on_error q l)
        \/ (exists items,
              provider (calls w + k - 1)%nat q = Payload items
              /\ (FindLinkedins.search_with_retries provider idn q attempts backoff w l).2
                 = on_payload (pick_for idn) (FindLinkedins.extract_candidates items) q l)).
Proof.
  remember (3 - attempts)%nat as n eqn:Hn.
  revert attempts backoff w Hn.
  induction n as [n IH] using lt_wf_ind; intros attempts backoff w Hn.
  rewrite search_with_retries_unfold. cbv zeta.
  assert (calls w + 1 - 1 = calls w)%nat as Hone by lia.
  destruct (provider (calls w) q) as [items|msg] eqn:Hp.
  - exists 1%nat. split; [lia|]. simpl. rewrite Hone, Nat.add_1_r.
    split; [done|]. right. by exists items.
  - destruct (FindLinkedins.retryable msg && (S attempts <? 3)%nat) eqn:Hr.
    + apply andb_true_iff in Hr as [_ Hlt]. apply Nat.ltb_lt in Hlt.
      destruct (IH (3 - S attempts)%nat ltac:(lia) (S attempts) (backoff * 2)%Z
                  (log (Backoff_sleep (Z.min 60 backoff))
                     (World (S (calls w)) (trace w ++ [Search_call q (id_gl idn)])))
                  eq_refl) as (k & Hk & Hw & Hl).
      exists (S k). split; [lia|]. simpl calls in *. simpl trace in *.
      replace (calls w + S k)%nat with (S (calls w) + k)%nat by lia.
      replace (calls w + S k - 1)%nat with (S (calls w) + k - 1)%nat by lia.
      split; [|done]. rewrite Hw. f_equal.
      destruct k as [|k]; [lia|]. rewrite <- !app_assoc. done.
    + exists 1%nat. split; [lia|]. simpl. rewrite Hone, Nat.add_1_r.
      split; [done|]. left. by exists msg.
Qed.

Lemma run_query_outcome provider idn q w l :
  (FindLinkedinsCse.run_query provider idn q w l).1
  = World (calls w + 1) (trace w ++ attempts_trace q None 5 1)
  /\ ((exists msg,
         provider (calls w + 1 - 1)%nat q = Raises msg
         /\ (FindLinkedinsCse.run_query provider idn q w l).2 = on_error q l)
      \/ (exists items,
            provider (calls w + 1 - 1)%nat q = Payload items
            /\ (FindLinkedinsCse.run_query provider idn q w l).2
               = on_payload (pick_cse_for idn)
                   (FindLinkedinsCse.extract_linkedin_candidates items) q l)).
Proof.
  rewrite run_query_unfold. cbv zeta.
  assert (calls w + 1 - 1 = calls w)%nat as -> by lia.
  rewrite Nat.add_1_r. simpl.
  destruct (provider (calls w) q) as [items|msg] eqn:Hp.
  - split; [done|]. right. by exists items.
  - split; [done|]. left. by exists msg.
Qed.

(** ** The query loop and the record body *)

Lemma last_attempts_trace q gl backoff k :
  last (attempts_trace q gl backoff (S k)) = Some (Search_call q gl).
Proof.
  revert backoff. induction k as [|k IH]; intros backoff; [done|].
  change (attempts_trace q gl backoff (S (S k)))
    with (Search_call q gl :: Backoff_sleep (Z.min 60 backoff)
            :: attempts_trace q gl (backoff * 2) (S k)).
  rewrite !last_cons, IH. done.
Qed.

Lemma record_trace_nil_r gl queries : record_trace gl queries [] = [].
Proof. by destruct queries. Qed.

Lemma record_trace_cons gl q queries k ks :
  record_trace gl (q :: queries) (k :: ks)
  = Politeness_sleep :: attempts_trace q gl 5 k ++ record_trace gl queries ks.
Proof. done. Qed.

Lemma on_payload_cands_ok prefixes pick cands q l :
  cands_ok prefixes cands -> cands_ok prefixes (all_candidates l) ->
  cands_ok prefixes (all_candidates (on_payload pick cands q l)).
Proof.
  intros Hc Hl. unfold on_payload.
  destruct (pick cands); simpl; by destruct (is_nil (all_candidates l) && negb (is_nil cands)).
Qed.

Section QueryLoopOutcome.

Variable provider : nat -> string -> response.
Variable gl : option string.
Variable pick : list candidate -> option candidate.
Variable extract : list item -> list candidate.
Variable run : string -> world -> locals -> world * locals.
Variable kmax : nat.
Variable prefixes : list string.

Hypothesis run_outcome : forall q w l,
  exists k,
    (1 <= k <= kmax)%nat
    /\ (run q w l).1 = World (calls w + k) (trace w ++ attempts_trace q gl 5 k)
    /\ ((exists msg, provider (calls w + k - 1)%nat q = Raises msg
                     /\ (run q w l).2 = on_error q l)
        \/ (exists items, provider (calls w + k - 1)%nat q = Payload items
                          /\ (run q w l).2 = on_payload pick (extract items) q l)).

Hypothesis pick_sound : forall cands cand, pick cands = Some cand -> cand ∈ cands.

Hypothesis extract_ok : forall items, cands_ok prefixes (extract items).

Lemma query_loop_of_outcome queries w l :
  match_status l = not_found -> best_url l = "" -> query_used l = "" ->
  cands_ok prefixes (all_candidates l) ->
  exists ks,
    (length ks <= length queries)%nat
    /\ Forall (fun k => (1 <= k <= kmax)%nat) ks
    /\ (query_loop_of run queries w l).1
       = World (calls w + sum_list ks) (trace w ++ record_trace gl queries ks)
    /\ cands_ok prefixes (all_candidates (query_loop_of run queries w l).2)
    /\ let w' := (query_loop_of run queries w l).1 in
       let l' := (query_loop_of run queries w l).2 in
       match match_status l' with
       | matched =>
           (exists items cand,
              last (trace w') = Some (Search_call (query_used l') gl)
              /\ provider (calls w' - 1)%nat (query_used l') = Payload items
              /\ pick (extract items) = Some cand
              /\ url cand = Some (best_url l'))
           /\ clean_profile_url prefixes (best_url l')
           /\ query_used l' ∈ queries /\ all_candidates l' <> []
       | error =>
           (exists msg,
              last (trace w') = Some (Search_call (query_used l') gl)
              /\ provider (calls w' - 1)%nat (query_used l') = Raises msg)
           /\ query_used l' ∈ queries /\ best_url l' = ""
       | not_found =>
           length ks = length queries /\ best_url l' = "" /\ query_used l' = ""
       | needs_review => False
       end.
Proof.
  revert w l. induction queries as [|q queries IH]; intros w l Hs Hu Hq Hc.
  - exists []. simpl. rewrite Hs, Nat.add_0_r, app_nil_r. by destruct w.
  - cbn [query_loop_of].
    destruct (run_outcome q (log Politeness_sleep w) l) as (k & Hk & Hw & Hl).
    destruct (run q (log Politeness_sleep w) l) as [w1 l1] eqn:Hrun.
    simpl in Hw, Hl. destruct k as [|k]; [lia|].
    assert (last (trace w1) = Some (Search_call q gl)) as Hlast.
    { rewrite Hw. cbn [trace]. by rewrite last_app, last_attempts_trace. }
    assert (calls w1 - 1 = calls w + S k - 1)%nat as Hidx by (rewrite Hw; simpl; lia).
    assert (w1 = World (calls w + sum_list [S k])
                   (trace w ++ record_trace gl (q :: queries) [S k])) as Hone.
    { rewrite Hw, record_trace_cons, record_trace_nil_r, app_nil_r.
      cbn [log trace calls sum_list sum_list_with]. rewrite <- app_assoc. f_equal; unfold id; lia. }
    destruct Hl as [(msg & Hp & ->)|(items & Hp & ->)].
    + simpl. exists [S k]. split; [simpl; lia|]. split; [by apply Forall_singleton|].
      split; [done|]. split; [done|]. rewrite Hidx.
      split; [by exists msg|]. split; [by left|done].
    + pose proof (on_payload_cands_ok prefixes pick (extract items) q l
                    (extract_ok items) Hc) as Hc1.
      unfold on_payload in *. destruct (pick (extract items)) as [cand|] eqn:Hpick.
      * simpl. exists [S k]. split; [simpl; lia|]. split; [by apply Forall_singleton|].
        split; [done|]. split; [done|]. rewrite Hidx.
        apply pick_sound in Hpick as Hin.
        destruct (extract_ok items) as [Hall _].
        rewrite Forall_forall in Hall.
        destruct (Hall cand Hin) as (u & Hurl & Hclean). rewrite Hurl. cbn [Py.or_empty].
        split; [by exists items, cand|].
        split; [done|]. split; [by left|].
        destruct (extract items) as [|c cs]; [by apply elem_of_nil in Hin|].
        by destruct (all_candidates l).
      * simpl. rewrite Hs.
        destruct (IH w1 (Locals (best_url l) (match_status l) (query_used l)
                           (if is_nil (all_candidates l) && negb (is_nil (extract items))
                            then extract items else all_candidates l)))
          as (ks & Hlen & Hks & Hw' & Hc' & Hout); [done..|].
        rewrite Hs in *.
        exists (S k :: ks). split; [simpl; lia|]. split; [by constructor|].
        split.
        { rewrite Hw', Hw, record_trace_cons.
          cbn [log trace calls sum_list sum_list_with]. rewrite <- !app_assoc. f_equal; unfold id; lia. }
        split; [done|]. cbv zeta in *.
        destruct (match_status (query_loop_of run queries w1 _).2).
        -- destruct Hout as (? & ? & ? & ?).
           split; [done|]. split; [done|]. split; [by right|done].
        -- done.
        -- destruct Hout as (? & ? & ?). split; [simpl; lia|done].
        -- destruct Hout as (? & ? & ?). split; [done|]. split; [by right|done].
Qed.

Lemma process_record_of_outcome queries r w :
  exists ks,
    (length ks <= length queries)%nat
    /\ Forall (fun k => (1 <= k <= kmax)%nat) ks
    /\ (process_record_of run queries r w).1
       = World (calls w + sum_list ks) (trace w ++ record_trace gl queries ks)
    /\ (match row_match_status (process_record_of run queries r w).2 with
        | matched | error => True
        | _ => length ks = length queries
        end)
    /\ justified provider gl pick extract (process_record_of run queries r w).1
         (process_record_of run queries r w).2
    /\ row_consistent prefixes queries (process_record_of run queries r w).2
    /\ cands_ok prefixes (candidates_json (process_record_of run queries r w).2)
    /\ row_external_id (process_record_of run queries r w).2 = p_external_id r
    /\ row_name (process_record_of run queries r w).2 = p_name r
    /\ row_location (process_record_of run queries r w).2 = p_location r.
Proof.
  unfold process_record_of.
  destruct queries as [|q0 queries].
  - exists []. simpl. rewrite Nat.add_0_r, app_nil_r.
    split; [done|]. split; [done|]. split; [by destruct w|].
    split_and!; try done. split; [done | simpl; lia].
  - cbn [is_nil].
    destruct (query_loop_of_outcome (q0 :: queries) w (Locals "" not_found "" []))
      as (ks & Hlen & Hks & Hw & [Hall Hfive] & Hout); [done.. | by split; [constructor|simpl; lia] |].
    exists ks. cbv zeta in Hout.
    destruct (query_loop_of run (q0 :: queries) w (Locals "" not_found "" []))
      as [w' l'] eqn:Hloop.
    simpl in Hw, Hall, Hfive, Hout.
    assert (take 5 (all_candidates l') = all_candidates l') as Htake
      by (by apply take_ge).
    destruct (match_status l') eqn:Hst.
    + unfold justified, row_consistent. simpl. rewrite ?Hst, ?Htake.
      destruct Hout as (Hj & Hclean & Hq & Hne). split_and!; (done || by split).
    + done.
    + destruct Hout as (Hn & Hu & Hq).
      destruct (all_candidates l') as [|c cs] eqn:Hcs.
      * unfold justified, row_consistent. simpl. rewrite ?Hst, ?Hcs.
        split_and!; (done || by split).
      * unfold justified, row_consistent. simpl. rewrite Hq. simpl.
        change (c :: take 4 cs) with (take 5 (c :: cs)). rewrite Htake.
        split_and!; (done || by split).
    + unfold justified, row_consistent. simpl. rewrite ?Hst, ?Htake.
      destruct Hout as (Hj & Hq & Hu). split_and!; (done || by split).
Qed.

End QueryLoopOutcome.

(** ** One record *)

Lemma pick_for_sound idn cands cand : pick_for idn cands = Some cand -> cand ∈ cands.
Proof.
  unfold pick_for. rewrite pick_candidate_select. intros H.
  apply select_some in H as (s & Hfm & _). by apply first_max_elem in Hfm as [? _].
Qed.

Lemma pick_cse_for_sound idn cands cand : pick_cse_for idn cands = Some cand -> cand ∈ cands.
Proof.
  unfold pick_cse_for. rewrite pick_best_linkedin_candidate_select. intros H.
  apply select_some in H as (s & Hfm & _). by apply first_max_elem in Hfm as [? _].
Qed.

Lemma extract_candidates_ok items :
  cands_ok profile_prefixes (FindLinkedins.extract_candidates items).
Proof.
  unfold FindLinkedins.extract_candidates. rewrite extract_loop_spec by (simpl; lia).
  rewrite app_nil_l. split.
  - apply Forall_forall. intros c Hc.
    apply omap_candidate_of_clean in Hc as (u & t & s & -> & Hu). by exists u.
  - rewrite length_take. lia.
Qed.

Lemma extract_linkedin_candidates_ok items :
  cands_ok profile_prefixes_cse (FindLinkedinsCse.extract_linkedin_candidates items).
Proof.
  unfold FindLinkedinsCse.extract_linkedin_candidates.
  rewrite extract_loop_cse_spec by (simpl; lia).
  rewrite app_nil_l. split.
  - apply Forall_forall. intros c Hc.
    apply omap_candidate_of_clean in Hc as (u & t & s & -> & Hu). by exists u.
  - rewrite length_take. lia.
Qed.

Lemma search_with_retries_run_outcome provider idn q w l :
  exists k,
    (1 <= k <= 3)%nat
    /\ (FindLinkedins.search_with_retries provider idn q 0 5 w l).1
       = World (calls w + k) (trace w ++ attempts_trace q (id_gl idn) 5 k)
    /\ ((exists msg,
           provider (calls w + k - 1)%nat q = Raises msg
           /\ (FindLinkedins.search_with_retries provider idn q 0 5 w l).2 = on_error q l)
        \/ (exists items,
              provider (calls w + k - 1)%nat q = Payload items
              /\ (FindLinkedins.search_with_retries provider idn q 0 5 w l).2
                 = on_payload (pick_for idn) (FindLinkedins.extract_candidates items) q l)).
Proof.
  destruct (search_with_retries_outcome provider idn q 0 5 w l) as (k & Hk & H).
  exists k. split; [simpl in Hk; lia | done].
Qed.

Lemma run_query_run_outcome provider idn q w l :
  id_gl idn = None ->
  exists k,
    (1 <= k <= 1)%nat
    /\ (FindLinkedinsCse.run_query provider idn q w l).1
       = World (calls w + k) (trace w ++ attempts_trace q (id_gl idn) 5 k)
    /\ ((exists msg,
           provider (calls w + k - 1)%nat q = Raises msg
           /\ (FindLinkedinsCse.run_query provider idn q w l).2 = on_error q l)
        \/ (exists items,
              provider (calls w + k - 1)%nat q = Payload items
              /\ (FindLinkedinsCse.run_query provider idn q w l).2
                 = on_payload (pick_cse_for idn)
                     (FindLinkedinsCse.extract_linkedin_candidates items) q l)).
Proof.
  intros ->. exists 1%nat. split; [lia|]. apply run_query_outcome.
Qed.

Lemma sum_list_bounds (m : nat) (ks : list nat) :
  Forall (fun k => (1 <= k <= m)%nat) ks ->
  (length ks <= sum_list ks <= m * length ks)%nat.
Proof.
  induction 1 as [|k ks Hk _ IH]; simpl; lia.
Qed.

Lemma all_ones (ks : list nat) :
  Forall (fun k => (1 <= k <= 1)%nat) ks -> ks = replicate (length ks) 1%nat.
Proof.
  induction 1 as [|k ks Hk _ IH]; [done|]. simpl. rewrite <- IH. f_equal. lia.
Qed.

Lemma queries_of_length r :
  (length (queries_of r) <= 8)%nat /\ (length (queries_cse_of r) <= 6)%nat.
Proof.
  unfold queries_of, queries_cse_of, FindLinkedins.build_queries,
    FindLinkedinsCse.build_cse_queries.
  rewrite !length_take. lia.
Qed.

Lemma process_record_outcome provider r w :
  let gl := FindLinkedins.country_to_gl (p_country r) in
  let run := FindLinkedins.process_record provider r w in
  exists ks,
    (length ks <= length (queries_of r))%nat
    /\ Forall (fun k => (1 <= k <= 3)%nat) ks
    /\ run.1 = World (calls w + sum_list ks) (trace w ++ record_trace gl (queries_of r) ks)
    /\ (match row_match_status run.2 with
        | matched | error => True
        | _ => length ks = length (queries_of r)
        end)
    /\ justified provider gl (pick_for (identity_of r)) FindLinkedins.extract_candidates
         run.1 run.2
    /\ row_consistent profile_prefixes (queries_of r) run.2
    /\ cands_ok profile_prefixes (candidates_json run.2)
    /\ row_external_id run.2 = p_external_id r
    /\ row_name run.2 = p_name r
    /\ row_location run.2 = p_location r.
Proof.
  cbv zeta. rewrite process_record_process_record_of.
  apply (process_record_of_outcome provider (id_gl (identity_of r)) (pick_for (identity_of r))
           FindLinkedins.extract_candidates _ 3 profile_prefixes).
  - intros q w0 l. apply search_with_retries_run_outcome.
  - apply pick_for_sound.
  - apply extract_candidates_ok.
Qed.

Lemma process_record_cse_outcome provider r w :
  let run := FindLinkedinsCse.process_record provider r w in
  exists ks,
    (length ks <= length (queries_cse_of r))%nat
    /\ Forall (fun k => (1 <= k <= 1)%nat) ks
    /\ run.1 = World (calls w + sum_list ks)
                 (trace w ++ record_trace None (queries_cse_of r) ks)
    /\ (match row_match_status run.2 with
        | matched | error => True
        | _ => length ks = length (queries_cse_of r)
        end)
    /\ justified provider None (pick_cse_for (identity_cse_of r))
         FindLinkedinsCse.extract_linkedin_candidates run.1 run.2
    /\ row_consistent profile_prefixes_cse (queries_cse_of r) run.2
    /\ cands_ok profile_prefixes_cse (candidates_json run.2)
    /\ row_external_id run.2 = p_external_id r
    /\ row_name run.2 = p_name r
    /\ row_location run.2 = p_location r.
Proof.
  cbv zeta. rewrite process_record_cse_process_record_of.
  apply (process_record_of_outcome provider (id_gl (identity_cse_of r))
           (pick_cse_for (identity_cse_of r))
           FindLinkedinsCse.extract_linkedin_candidates _ 1 profile_prefixes_cse).
  - intros q w0 l. by apply run_query_run_outcome.
  - apply pick_cse_for_sound.
  - apply extract_linkedin_candidates_ok.
Qed.

(** X13. The calls and events of one record. [process_record] of
    find_linkedins.py tries the queries of [build_queries] in order, each
    with one politeness sleep and then one to three calls (with the country
    hint of the record) separated by backoff sleeps; it makes at most 24
    calls, and when the row is neither matched nor error every query has
    been tried. In find_linkedins_cse.py each tried query has one sleep
    and one call, at most 6 calls in all. *)
Theorem process_record_trace (provider : nat -> string -> response) (r : profile) (w : world) :
  (exists ks,
     (length ks <= length (queries_of r))%nat
     /\ Forall (fun k => (1 <= k <= 3)%nat) ks
     /\ (FindLinkedins.process_record provider r w).1
        = World (calls w + sum_list ks)
            (trace w ++ record_trace (FindLinkedins.country_to_gl (p_country r))
                          (queries_of r) ks)
     /\ (sum_list ks <= 24)%nat
     /\ match row_match_status (FindLinkedins.process_record provider r w).2 with
        | matched | error => True
        | _ => length ks = length (queries_of r)
        end)
  /\ (exists n,
        (n <= length (queries_cse_of r))%nat
        /\ (FindLinkedinsCse.process_record provider r w).1
           = World (calls w + n)
               (trace w ++ record_trace None (queries_cse_of r) (replicate n 1%nat))
        /\ (n <= 6)%nat
        /\ match row_match_status (FindLinkedinsCse.process_record provider r w).2 with
           | matched | error => True
           | _ => n = length (queries_cse_of r)
           end).
Proof.
  pose proof (queries_of_length r) as [H8 H6]. split.
  - destruct (process_record_outcome provider r w) as (ks & Hlen & Hks & Hw & Hall & _).
    exists ks. pose proof (sum_list_bounds 3 ks Hks).
    split; [done|]. split; [done|]. split; [done|]. split; [lia|done].
  - destruct (process_record_cse_outcome provider r w) as (ks & Hlen & Hks & Hw & Hall & _).
    exists (length ks). pose proof (sum_list_bounds 1 ks Hks).
    rewrite <- (all_ones ks Hks).
    replace (length ks) with (sum_list ks) at 2 by lia.
    split; [done|]. split; [done|]. split; [lia|done].
Qed.

(** X14. What a row rests on. A matched row of either file rests on the
    last search call made: it was made for the row's [query_used], it
    returned a payload, and [linkedin_url] is the URL of the candidate the
    selector picks among the candidates extracted from that payload. An
    error row rests on a last call, for its [query_used], that raised. *)
Theorem row_justified_by_last_call
    (provider : nat -> string -> response) (r : profile) (w : world) :
  justified provider (FindLinkedins.country_to_gl (p_country r)) (pick_for (identity_of r))
    FindLinkedins.extract_candidates
    (FindLinkedins.process_record provider r w).1
    (FindLinkedins.process_record provider r w).2
  /\ justified provider None (pick_cse_for (identity_cse_of r))
       FindLinkedinsCse.extract_linkedin_candidates
       (FindLinkedinsCse.process_record provider r w).1
       (FindLinkedinsCse.process_record provider r w).2.
Proof.
  split.
  - by destruct (process_record_outcome provider r w) as (ks & _ & _ & _ & _ & H & _).
  - by destruct (process_record_cse_outcome provider r w) as (ks & _ & _ & _ & _ & H & _).
Qed.

(** X15. How the fields of a row go together. In both files: a matched
    row has a cleaned profile URL, a [query_used] among the record's
    queries and candidates; a needs_review row has a blank URL, the first
    query and candidates; a not_found row has a blank URL, a blank query
    and no candidates; an error row has a blank URL and a [query_used]
    among the queries. [candidates_json] holds at most five candidates,
    each with a cleaned profile URL. *)
Theorem row_fields_consistent
    (provider : nat -> string -> response) (r : profile) (w : world) :
  row_consistent profile_prefixes (queries_of r) (FindLinkedins.process_record provider r w).2
  /\ cands_ok profile_prefixes (candidates_json (FindLinkedins.process_record provider r w).2)
  /\ row_consistent profile_prefixes_cse (queries_cse_of r)
       (FindLinkedinsCse.process_record provider r w).2
  /\ cands_ok profile_prefixes_cse
       (candidates_json (FindLinkedinsCse.process_record provider r w).2).
Proof.
  destruct (process_record_outcome provider r w) as (ks & _ & _ & _ & _ & _ & H1 & H2 & _).
  destruct (process_record_cse_outcome provider r w)
    as (ks' & _ & _ & _ & _ & _ & H3 & H4 & _).
  done.
Qed.

(** ** Traces *)

Lemma ncalls_app t1 t2 : ncalls (t1 ++ t2) = (ncalls t1 + ncalls t2)%nat.
Proof. unfold ncalls. by rewrite List.filter_app, length_app. Qed.

Lemma paced_from_weaken b t : paced_from false t = true -> paced_from b t = true.
Proof.
  destruct t as [|e t]; [done|]. simpl. destruct (is_call e); [done|]. by destruct b.
Qed.

Lemma paced_from_app b t1 t2 :
  paced_from b t1 = true -> paced_from false t2 = true -> paced_from b (t1 ++ t2) = true.
Proof.
  revert b. induction t1 as [|e t1 IH]; intros b H1 H2; simpl.
  - by apply paced_from_weaken.
  - simpl in H1. apply andb_true_iff in H1 as [-> H1]. by apply IH.
Qed.

Lemma attempts_trace_facts q gl backoff k :
  ncalls (attempts_trace q gl backoff k) = k
  /\ paced_from true (attempts_trace q gl backoff k) = true
  /\ (site_restricted q -> Forall restricted_call (attempts_trace q gl backoff k))
  /\ omap checkpoint_rows (attempts_trace q gl backoff k) = [].
Proof.
  revert backoff. induction k as [|k IH]; intros backoff; [by repeat split|].
  destruct k as [|k].
  { split; [done|]. split; [done|]. split; [|done]. intros Hq. by repeat constructor. }
  destruct (IH (backoff * 2)%Z) as (Hn & Hp & Hf & Ho).
  change (attempts_trace q gl backoff (S (S k)))
    with (Search_call q gl :: Backoff_sleep (Z.min 60 backoff)
            :: attempts_trace q gl (backoff * 2) (S k)).
  split; [|split; [|split]].
  - unfold ncalls in *. cbn [List.filter is_call length]. by rewrite Hn.
  - cbn [paced_from is_call is_sleep andb]. exact Hp.
  - intros Hq. constructor; [exact Hq|]. constructor; [exact I|]. by apply Hf.
  - cbn [omap checkpoint_rows]. exact Ho.
Qed.

Lemma record_trace_facts gl queries ks :
  Forall site_restricted queries -> (length ks <= length queries)%nat ->
  ncalls (record_trace gl queries ks) = sum_list ks
  /\ paced (record_trace gl queries ks) = true
  /\ Forall restricted_call (record_trace gl queries ks)
  /\ omap checkpoint_rows (record_trace gl queries ks) = [].
Proof.
  intros Hq. revert ks. induction Hq as [|q queries Hq _ IH]; intros ks Hlen.
  - destruct ks; [|simpl in Hlen; lia]. by repeat split.
  - destruct ks as [|k ks]; [by repeat split|].
    rewrite record_trace_cons. simpl in Hlen.
    destruct (IH ks ltac:(lia)) as (Hn & Hp & Hf & Ho).
    destruct (attempts_trace_facts q gl 5 k) as (Hn1 & Hp1 & Hf1 & Ho1).
    split; [|split; [|split]].
    + change (Politeness_sleep :: attempts_trace q gl 5 k ++ record_trace gl queries ks)
        with ([Politeness_sleep] ++ attempts_trace q gl 5 k ++ record_trace gl queries ks).
      rewrite !ncalls_app, Hn, Hn1. done.
    + unfold paced. cbn [paced_from is_call is_sleep andb]. by apply paced_from_app.
    + constructor; [done|]. apply Forall_app. split; [by apply Hf1 | done].
    + change (Politeness_sleep :: attempts_trace q gl 5 k ++ record_trace gl queries ks)
        with ([Politeness_sleep] ++ attempts_trace q gl 5 k ++ record_trace gl queries ks).
      by rewrite !omap_app, Ho1, Ho.
Qed.

(** ** The loop over the records *)

Lemma count_status_fields s c :
  processed (count_status s (count_processed c)) = S (processed c)
  /\ n_matched (count_status s (count_processed c))
     = (n_matched c + if status_eqb s matched then 1 else 0)%nat
  /\ n_needs_review (count_status s (count_processed c))
     = (n_needs_review c + if status_eqb s needs_review then 1 else 0)%nat
  /\ n_not_found (count_status s (count_processed c))
     = (n_not_found c + if status_eqb s not_found then 1 else 0)%nat
  /\ n_error (count_status s (count_processed c))
     = (n_error c + if status_eqb s error then 1 else 0)%nat.
Proof. destruct s; simpl; repeat split; lia. Qed.

Lemma rows_with_snoc s rows out :
  rows_with s (rows ++ [out])
  = (rows_with s rows + if status_eqb (row_match_status out) s then 1 else 0)%nat.
Proof.
  unfold rows_with. rewrite List.filter_app, length_app. simpl.
  by destruct (status_eqb (row_match_status out) s).
Qed.

Lemma counts_agree_snoc cnt rows out :
  counts_agree cnt rows ->
  counts_agree (count_status (row_match_status out) (count_processed cnt)) (rows ++ [out]).
Proof.
  intros (Hp & Hm & Hr & Hn & He & Hsum).
  destruct (count_status_fields (row_match_status out) cnt) as (Hp' & Hm' & Hr' & Hn' & He').
  unfold counts_agree. rewrite Hp', Hm', Hr', Hn', He', !rows_with_snoc, length_app.
  simpl. destruct (row_match_status out); simpl; lia.
Qed.

Section RecordsLoopOutcome.

Variable process : profile -> world -> world * row.
Variable period : nat.
Variable budget : nat.
Variable Q : profile -> row -> Prop.

Hypothesis process_trace : forall r w,
  exists t,
    (process r w).1 = World (calls w + ncalls t) (trace w ++ t)
    /\ paced t = true /\ (ncalls t <= budget)%nat
    /\ Forall restricted_call t /\ omap checkpoint_rows t = [].

Hypothesis process_row : forall r w, Q r (process r w).2.

Lemma records_loop_of_outcome records w out_rows cnt :
  counts_agree cnt out_rows ->
  exists t rows,
    (records_loop_of process period records w out_rows cnt).1.2 = out_rows ++ rows
    /\ Forall2 Q records rows
    /\ counts_agree (records_loop_of process period records w out_rows cnt).2
         (out_rows ++ rows)
    /\ (records_loop_of process period records w out_rows cnt).1.1
       = World (calls w + ncalls t) (trace w ++ t)
    /\ paced t = true
    /\ (ncalls t <= budget * length records)%nat
    /\ Forall restricted_call t
    /\ omap checkpoint_rows t
       = List.filter (fun m => (m mod period =? 0)%nat)
           (seq (S (length out_rows)) (length records)).
Proof.
  revert w out_rows cnt. induction records as [|r records IH]; intros w out_rows cnt Hcnt.
  - exists [], []. simpl. rewrite !app_nil_r, Nat.add_0_r.
    split_and!; first [done | by destruct w | by constructor | (unfold ncalls; simpl; lia)].
  - cbn [records_loop_of].
    destruct (process_trace r w) as (t1 & Hw1 & Hp1 & Hb1 & Hf1 & Ho1).
    pose proof (process_row r w) as Hrow.
    destruct (process r w) as [w1 out]. simpl in Hw1, Hrow.
    pose proof (counts_agree_snoc cnt out_rows out Hcnt) as Hcnt1.
    set (cnt1 := count_status (row_match_status out) (count_processed cnt)) in *.
    assert (processed cnt1 = S (length out_rows)) as Hproc.
    { destruct Hcnt1 as [-> _]. rewrite length_app. simpl. lia. }
    rewrite Hproc.
    set (c := if (S (length out_rows) mod period =? 0)%nat
              then [Save_checkpoint (length (out_rows ++ [out]))] else []).
    set (w2 := if (S (length out_rows) mod period =? 0)%nat
               then log (Save_checkpoint (length (out_rows ++ [out]))) w1 else w1).
    assert (w2 = World (calls w + ncalls (t1 ++ c)) (trace w ++ t1 ++ c)) as Hw2.
    { subst w2 c w1. rewrite ncalls_app.
      destruct (S (length out_rows) mod period =? 0)%nat; unfold log; simpl.
      - rewrite <- app_assoc. f_equal. unfold ncalls. simpl. lia.
      - rewrite app_nil_r. f_equal. unfold ncalls. simpl. lia. }
    destruct (IH w2 (out_rows ++ [out]) cnt1 Hcnt1)
      as (t & rows & Hrows & HQ & Hagree & Hw' & Hp & Hb & Hf & Ho).
    exists (t1 ++ c ++ t), (out :: rows).
    replace (out_rows ++ out :: rows) with ((out_rows ++ [out]) ++ rows)
      by (by rewrite <- app_assoc).
    split; [done|]. split; [by constructor|]. split; [done|].
    assert (ncalls c = 0%nat /\ paced c = true /\ Forall restricted_call c) as (Hc0 & Hcp & Hcf).
    { subst c. destruct (S (length out_rows) mod period =? 0)%nat;
        repeat split; by repeat constructor. }
    split.
    { rewrite Hw', Hw2. simpl. rewrite !ncalls_app, <- !app_assoc. f_equal. lia. }
    split; [by repeat apply paced_from_app|].
    split; [rewrite !ncalls_app; simpl; lia|].
    split; [by rewrite !Forall_app|].
    rewrite !omap_app, Ho1, Ho, length_app. cbn [length seq List.filter app].
    replace (length out_rows + 1)%nat with (S (length out_rows)) by lia.
    subst c. rewrite length_app, Nat.add_1_r.
    by destruct (S (length out_rows) mod period =? 0)%nat.
Qed.

End RecordsLoopOutcome.

(** ** The batch *)

Lemma queries_of_site_restricted r :
  Forall site_restricted (queries_of r) /\ Forall site_restricted (queries_cse_of r).
Proof.
  split; apply Forall_forall; intros q Hq.
  - apply (assembled_site_restricted (p_name r) (p_location r) (p_skills r) (p_role r)
             (p_country r)). left. by apply (dedupe_capped 8).
  - apply (assembled_site_restricted (p_name r) (p_location r) (p_skills r) (p_role r)
             (p_country r)). right. by apply (dedupe_capped 6).
Qed.

Lemma process_record_events provider r w :
  exists t,
    (FindLinkedins.process_record provider r w).1
    = World (calls w + ncalls t) (trace w ++ t)
    /\ paced t = true /\ (ncalls t <= 24)%nat
    /\ Forall restricted_call t /\ omap checkpoint_rows t = [].
Proof.
  destruct (process_record_outcome provider r w) as (ks & Hlen & Hks & Hw & _).
  destruct (queries_of_site_restricted r) as [Hq _].
  destruct (record_trace_facts (FindLinkedins.country_to_gl (p_country r)) (queries_of r) ks
              Hq Hlen) as (Hn & Hp & Hf & Ho).
  pose proof (sum_list_bounds 3 ks Hks). pose proof (queries_of_length r) as [H8 _].
  eexists. rewrite Hn. split; [exact Hw|]. split; [done|]. split; [lia|done].
Qed.

Lemma process_record_cse_events provider r w :
  exists t,
    (FindLinkedinsCse.process_record provider r w).1
    = World (calls w + ncalls t) (trace w ++ t)
    /\ paced t = true /\ (ncalls t <= 6)%nat
    /\ Forall restricted_call t /\ omap checkpoint_rows t = [].
Proof.
  destruct (process_record_cse_outcome provider r w) as (ks & Hlen & Hks & Hw & _).
  destruct (queries_of_site_restricted r) as [_ Hq].
  destruct (record_trace_facts None (queries_cse_of r) ks Hq Hlen) as (Hn & Hp & Hf & Ho).
  pose proof (sum_list_bounds 1 ks Hks). pose proof (queries_of_length r) as [_ H6].
  eexists. rewrite Hn. split; [exact Hw|]. split; [done|]. split; [lia|done].
Qed.

Lemma process_record_row provider r w :
  row_of_record profile_prefixes queries_of r (FindLinkedins.process_record provider r w).2.
Proof.
  destruct (process_record_outcome provider r w)
    as (ks & _ & _ & _ & _ & _ & H1 & H2 & H3 & H4 & H5).
  unfold row_of_record. by split_and!.
Qed.

Lemma process_record_cse_row provider r w :
  row_of_record profile_prefixes_cse queries_cse_of r
    (FindLinkedinsCse.process_record provider r w).2.
Proof.
  destruct (process_record_cse_outcome provider r w)
    as (ks & _ & _ & _ & _ & _ & H1 & H2 & H3 & H4 & H5).
  unfold row_of_record. by split_and!.
Qed.

Lemma counts_agree_zero : counts_agree (Counts 0 0 0 0 0) [].
Proof. unfold counts_agree. by split_and!. Qed.

Lemma process_records_outcome provider records start limit w :
  let range := record_range records start limit in
  let res := FindLinkedins.process_records provider records start limit w in
  exists t,
    Forall2 (row_of_record profile_prefixes queries_of) range res.1.2
    /\ counts_agree res.2 res.1.2
    /\ res.1.1 = World (calls w + ncalls t) (trace w ++ t)
    /\ paced t = true
    /\ (ncalls t <= 24 * length range)%nat
    /\ Forall restricted_call t
    /\ omap checkpoint_rows t
       = List.filter (fun m => (m mod 100 =? 0)%nat) (seq 1 (length range)).
Proof.
  cbv zeta. unfold FindLinkedins.process_records.
  rewrite records_loop_records_loop_of.
  destruct (records_loop_of_outcome (FindLinkedins.process_record provider) 100 24
              (row_of_record profile_prefixes queries_of)
              (process_record_events provider) (process_record_row provider)
              (record_range records start limit) w [] (Counts 0 0 0 0 0) counts_agree_zero)
    as (t & rows & Hrows & HQ & Hc & Hw & Hp & Hb & Hf & Ho).
  exists t. rewrite Hrows in *. by rewrite app_nil_l in *.
Qed.

Lemma process_records_cse_outcome provider records start limit w :
  let range := record_range records start limit in
  let res := FindLinkedinsCse.process_records provider records start limit w in
  exists t,
    Forall2 (row_of_record profile_prefixes_cse queries_cse_of) range res.1.2
    /\ counts_agree res.2 res.1.2
    /\ res.1.1 = World (calls w + ncalls t) (trace w ++ t)
    /\ paced t = true
    /\ (ncalls t <= 6 * length range)%nat
    /\ Forall restricted_call t
    /\ omap checkpoint_rows t
       = List.filter (fun m => (m mod 50 =? 0)%nat) (seq 1 (length range)).
Proof.
  cbv zeta. unfold FindLinkedinsCse.process_records.
  rewrite records_loop_cse_records_loop_of.
  destruct (records_loop_of_outcome (FindLinkedinsCse.process_record provider) 50 6
              (row_of_record profile_prefixes_cse queries_cse_of)
              (process_record_cse_events provider) (process_record_cse_row provider)
              (record_range records start limit) w [] (Counts 0 0 0 0 0) counts_agree_zero)
    as (t & rows & Hrows & HQ & Hc & Hw & Hp & Hb & Hf & Ho).
  exists t. rewrite Hrows in *. by rewrite app_nil_l in *.
Qed.

(** X16. [process_records] of both files returns one row per record of
    the range, in the order of the records: each row carries the
    identifier, name and location of its record and fields that go
    together; and the counters agree with the rows: [processed] is the
    number of rows, each status counter is the number of rows with that
    status, and the four status counters add up to [processed]. *)
Theorem process_records_rows_and_counts
    (provider : nat -> string -> response) (records : list profile) (start : nat)
    (limit : option Z) (w : world) :
  Forall2 (row_of_record profile_prefixes queries_of) (record_range records start limit)
    (FindLinkedins.process_records provider records start limit w).1.2
  /\ counts_agree (FindLinkedins.process_records provider records start limit w).2
       (FindLinkedins.process_records provider records start limit w).1.2
  /\ Forall2 (row_of_record profile_prefixes_cse queries_cse_of)
       (record_range records start limit)
       (FindLinkedinsCse.process_records provider records start limit w).1.2
  /\ counts_agree (FindLinkedinsCse.process_records provider records start limit w).2
       (FindLinkedinsCse.process_records provider records start limit w).1.2.
Proof.
  destruct (process_records_outcome provider records start limit w) as (t & H1 & H2 & _).
  destruct (process_records_cse_outcome provider records start limit w) as (t' & H3 & H4 & _).
  done.
Qed.

(** X17. The search calls of a batch. What [process_records] adds to the
    trace makes the call counter grow by the number of its search calls,
    at most 24 per record of the range in find_linkedins.py and at most 6
    in find_linkedins_cse.py; every search call comes directly after a
    sleep, and every query sent ends with the site restriction. *)
Theorem process_records_calls_paced
    (provider : nat -> string -> response) (records : list profile) (start : nat)
    (limit : option Z) (w : world) :
  (exists t,
     (FindLinkedins.process_records provider records start limit w).1.1
     = World (calls w + ncalls t) (trace w ++ t)
     /\ paced t = true
     /\ (ncalls t <= 24 * length (record_range records start limit))%nat
     /\ Forall restricted_call t)
  /\ (exists t,
        (FindLinkedinsCse.process_records provider records start limit w).1.1
        = World (calls w + ncalls t) (trace w ++ t)
        /\ paced t = true
        /\ (ncalls t <= 6 * length (record_range records start limit))%nat
        /\ Forall restricted_call t).
Proof.
  destruct (process_records_outcome provider records start limit w)
    as (t & _ & _ & Hw & Hp & Hb & Hf & _).
  destruct (process_records_cse_outcome provider records start limit w)
    as (t' & _ & _ & Hw' & Hp' & Hb' & Hf' & _).
  split; [by exists t | by exists t'].
Qed.

(** X18. Checkpoints. [process_records] saves a checkpoint exactly after
    every 100th record of the range in find_linkedins.py, and after every
    50th in find_linkedins_cse.py, each time with all the rows built so
    far: the checkpoints it adds to the trace are those of the multiples of
    the period up to the number of records, in order. *)
Theorem process_records_checkpoints
    (provider : nat -> string -> response) (records : list profile) (start : nat)
    (limit : option Z) (w : world) :
  omap checkpoint_rows
    (trace (FindLinkedins.process_records provider records start limit w).1.1)
  = omap checkpoint_rows (trace w)
    ++ List.filter (fun m => (m mod 100 =? 0)%nat)
         (seq 1 (length (record_range records start limit)))
  /\ omap checkpoint_rows
       (trace (FindLinkedinsCse.process_records provider records start limit w).1.1)
     = omap checkpoint_rows (trace w)
       ++ List.filter (fun m => (m mod 50 =? 0)%nat)
            (seq 1 (length (record_range records start limit))).
Proof.
  destruct (process_records_outcome provider records start limit w)
    as (t & _ & _ & Hw & _ & _ & _ & Ho).
  destruct (process_records_cse_outcome provider records start limit w)
    as (t' & _ & _ & Hw' & _ & _ & _ & Ho').
  rewrite Hw, Hw'. simpl. by rewrite !omap_app, Ho, Ho'.
Qed.

(** ** The answer of the search service *)

Lemma retry_status_retryable (o : http_outcome) :
  retry_status o = true ->
  exists msg, serper_answer o = Raises msg /\ FindLinkedins.retryable msg = true.
Proof.
  destruct o as [msg|status_code text json]; [done|]. intros H.
  apply existsb_exists in H as (c & Hin & ->%Nat.eqb_eq).
  assert (exists code,
            code ∈ ["429"; "500"; "502"; "503"; "504"]
            /\ serper_answer (Http_response c text json)
               = Raises ("Serper error " +:+ code +:+ ": " +:+ substring 0 200 text))
    as (code & Hcode & ->).
  { simpl in Hin.
    repeat (destruct Hin as [<-|Hin];
            [eexists; split; [|reflexivity]; rewrite !elem_of_cons; tauto|]).
    done. }
  eexists. split; [done|].
  unfold FindLinkedins.retryable. apply existsb_exists. exists code. split.
  - by apply list_elem_of_In.
  - apply contains_spec. by exists "Serper error ", (": " +:+ substring 0 200 text).
Qed.

Lemma retry_status_raises (o : http_outcome) :
  retry_status o = true -> exists msg, google_cse_answer o = Raises msg.
Proof.
  destruct o as [msg|status_code text json]; [done|]. intros H.
  apply existsb_exists in H as (c & Hin & ->%Nat.eqb_eq). simpl in Hin.
  repeat (destruct Hin as [<-|Hin]; [by eexists|]). done.
Qed.

(** X19. The statuses the orchestrator of [find_linkedins.py] retries, with
    [search_serper] as the provider. A response with status 429, 500, 502,
    503 or 504 makes [search_serper] raise a message that passes the retry
    test, whatever its body. So when the service answers a query with such
    a status [k] times, [k] below 3, and then with a status below 400 and a
    payload, the query makes [k + 1] calls, with the backoff sleeps between
    them, and the payload is handled as that of a first call: no error is
    recorded. When it answers three times with such a status, the query
    ends as [error] after three calls and sleeps of 5 and 10 seconds. In
    [find_linkedins_cse.py], with [search_google_cse] as the provider, one
    such answer ends the query as [error] after one call. *)
Theorem answer_status_retry
    (http : nat -> string -> http_outcome) (idn : identity) (q : string)
    (w : world) (l : locals) :
  let provider := fun n q => serper_answer (http n q) in
  let search := Search_call q (id_gl idn) in
  (forall o, retry_status o = true ->
     exists msg, serper_answer o = Raises msg /\ FindLinkedins.retryable msg = true)
  /\ (forall k items,
        (k < 3)%nat ->
        (forall n, (n < k)%nat -> retry_status (http (calls w + n)%nat q) = true) ->
        ok_answer items (http (calls w + k)%nat q) ->
        FindLinkedins.search_with_retries provider idn q 0 5 w l
        = (World (calls w + S k) (trace w ++ attempts_trace q (id_gl idn) 5 (S k)),
           on_payload (pick_for idn) (FindLinkedins.extract_candidates items) q l))
  /\ ((forall n, (n < 3)%nat -> retry_status (http (calls w + n)%nat q) = true) ->
      FindLinkedins.search_with_retries provider idn q 0 5 w l
      = (World (calls w + 3)
           (trace w ++ [search; Backoff_sleep 5; search; Backoff_sleep 10; search]),
         on_error q l))
  /\ (retry_status (http (calls w) q) = true ->
      FindLinkedinsCse.run_query (fun n q => google_cse_answer (http n q)) idn q w l
      = (World (calls w + 1) (trace w ++ [Search_call q None]), on_error q l)).
Proof.
  intros provider search.
  assert (forall n, retry_status (http n q) = true ->
            exists msg, provider n q = Raises msg /\ FindLinkedins.retryable msg = true)
    as Hretry by (intros n; apply retry_status_retryable).
  assert (forall n items, ok_answer items (http n q) -> provider n q = Payload items)
    as Hok.
  { intros n items (s & t & Hs & Ho). unfold provider. rewrite Ho. unfold serper_answer.
    apply Nat.leb_gt in Hs. by rewrite Hs. }
  replace (calls w + 3)%nat with (S (S (S (calls w)))) by lia.
  split; [apply retry_status_retryable|]. split; [|split].
  - intros k items Hk Hfail Hlast. apply Hok in Hlast.
    replace (calls w + S k)%nat with (S (calls w + k)) by lia.
    rewrite search_with_retries_unfold. cbv zeta.
    destruct k as [|k].
    { rewrite Nat.add_0_r in *. by rewrite Hlast. }
    destruct (Hretry (calls w)) as (m0 & -> & ->).
    { rewrite <- (Nat.add_0_r (calls w)). apply Hfail. lia. }
    cbn [andb Nat.ltb Nat.leb]. rewrite search_with_retries_unfold. cbv zeta.
    cbn [log calls trace].
    destruct k as [|k].
    { replace (calls w + 1)%nat with (S (calls w)) in * by lia. rewrite Hlast.
      by rewrite <- !app_assoc. }
    destruct (Hretry (S (calls w))) as (m1 & -> & ->).
    { replace (S (calls w)) with (calls w + 1)%nat by lia. apply Hfail. lia. }
    cbn [andb Nat.ltb Nat.leb]. rewrite search_with_retries_unfold. cbv zeta.
    cbn [log calls trace].
    destruct k as [|k]; [|lia].
    replace (calls w + 2)%nat with (S (S (calls w))) in * by lia. rewrite Hlast.
    by rewrite <- !app_assoc.
  - intros Hfail.
    rewrite search_with_retries_unfold. cbv zeta.
    destruct (Hretry (calls w)) as (m0 & -> & ->).
    { rewrite <- (Nat.add_0_r (calls w)). apply Hfail. lia. }
    cbn [andb Nat.ltb Nat.leb]. rewrite search_with_retries_unfold. cbv zeta.
    cbn [log calls trace].
    destruct (Hretry (S (calls w))) as (m1 & -> & ->).
    { replace (S (calls w)) with (calls w + 1)%nat by lia. apply Hfail. lia. }
    cbn [andb Nat.ltb Nat.leb]. rewrite search_with_retries_unfold. cbv zeta.
    cbn [log calls trace].
    destruct (Hretry (S (S (calls w)))) as (m2 & -> & ->).
    { replace (S (S (calls w))) with (calls w + 2)%nat by lia. apply Hfail. lia. }
    cbn [andb Nat.ltb Nat.leb]. by rewrite <- !app_assoc.
  - intros Hfail. apply retry_status_raises in Hfail as [msg Hmsg].
    rewrite run_query_unfold. cbv zeta. rewrite Hmsg. by rewrite Nat.add_1_r.
Qed.

(** The service answers 429 twice and then returns the profile of the
    record: three calls, two backoff sleeps, and the record is matched. *)
Lemma answer_status_retry_witness :
  FindLinkedins.search_with_retries (fun n q => serper_answer (rate_limited_twice n q))
    amna_identity "q" 0 5 (World 0 []) (Locals "" not_found "" [])
  = (World 3 [Search_call "q" (Some "pk"); Backoff_sleep 5; Search_call "q" (Some "pk");
              Backoff_sleep 10; Search_call "q" (Some "pk")],
     Locals "https://www.linkedin.com/in/amna-mubarak-ab3302199" matched "q"
       [amna_profile_hit]).
Proof.
  pose proof (answer_status_retry rate_limited_twice amna_identity "q" (World 0 [])
                (Locals "" not_found "" [])) as H.
  cbv zeta in H. destruct H as (_ & H & _).
  refine (eq_trans (H 2%nat [amna_item] _ _ _) _).
  - lia.
  - intros n Hn. destruct n as [|[|n]]; [reflexivity | reflexivity | lia].
  - exists 200%nat, "1 result". split; [lia | reflexivity].
  - vm_compute. reflexivity.
Defined.

(** ** The fields of a record *)

Lemma starts_space_lstrip (s : string) : starts_space (Py.lstrip s) = false.
Proof.
  induction s as [|c s IH]; [done|]. simpl.
  destruct (Py.is_space c) eqn:Hc; [done|]. simpl. by rewrite Hc.
Qed.

Lemma strip_stripped (s : string) : stripped (Py.strip s).
Proof.
  split; [apply starts_space_lstrip|].
  unfold Py.strip. apply rstrip_lstrip_fixed, rstrip_idempotent.
Qed.

Lemma stripped_strip (s : string) : stripped s -> Py.strip s = s.
Proof. intros [H1 H2]. unfold Py.strip. rewrite H2. by apply lstrip_no_space. Qed.

Lemma rstrip_app_blank (a b : string) :
  Py.rstrip b = "" -> Py.rstrip (a +:+ b) = Py.rstrip a.
Proof.
  intros Hb. induction a as [|c a IH]; string_app; [done|].
  cbn [Py.rstrip]. by rewrite IH.
Qed.

Lemma truthy_app_r (a b : string) : Py.truthy b = true -> Py.truthy (a +:+ b) = true.
Proof. by destruct a. Qed.

Lemma stripped_app (a sep b : string) :
  stripped a -> Py.truthy a = true -> stripped b -> Py.truthy b = true ->
  stripped (a +:+ sep +:+ b).
Proof.
  intros [Ha1 Ha2] Ha [Hb1 Hb2] Hb. split.
  - destruct a; [done|]. by string_app.
  - assert (Py.rstrip (sep +:+ b) = sep +:+ b) as Hsb
      by (by rewrite rstrip_app; rewrite Hb2).
    rewrite rstrip_app; rewrite Hsb; [done|]. by apply truthy_app_r.
Qed.

Lemma stripped_join (sep : string) (parts : list string) :
  Forall (fun p => stripped p /\ Py.truthy p = true) parts ->
  stripped (Py.join sep parts).
Proof.
  induction 1 as [|w ws [Hw Ht] Hws IH]; [done|]. rewrite join_cons.
  destruct ws as [|u ws]; cbn [is_nil].
  - by rewrite string_app_nil_r.
  - apply stripped_app; try done.
    rewrite join_cons. apply truthy_app_l.
    by apply Forall_inv in Hws as [_ ?].
Qed.

Lemma strip_first_last (first last : string) :
  stripped first -> stripped last ->
  Py.strip (first +:+ " " +:+ last) = Py.join " " (List.filter Py.truthy [first; last]).
Proof.
  intros Hf Hl.
  destruct first as [|c f], last as [|d l]; cbn [List.filter Py.truthy Py.join].
  - reflexivity.
  - string_app. destruct Hl as [Hl1 Hl2]. unfold Py.strip.
    change (Py.rstrip (String " " (String d l)))
      with (if Py.is_space " " && negb (Py.truthy (Py.rstrip (String d l)))
            then "" else String " " (Py.rstrip (String d l))).
    rewrite Hl2. cbn [Py.truthy negb andb Py.is_space]. simpl.
    simpl in Hl1. by rewrite Hl1.
  - rewrite string_app_nil_r. destruct Hf as [Hf1 Hf2]. unfold Py.strip.
    rewrite rstrip_app_blank by done. rewrite Hf2. by apply lstrip_no_space.
  - by apply stripped_strip, stripped_app.
Qed.

Lemma filter_stripped_truthy (l : list string) :
  Forall stripped l ->
  Forall (fun p => stripped p /\ Py.truthy p = true) (List.filter Py.truthy l).
Proof.
  induction 1 as [|x l Hx _ IH]; [done|]. simpl.
  destruct (Py.truthy x) eqn:Ht; [by constructor | done].
Qed.

(** X20. The text fields [process_records] derives from a record: the
    name, location, role, country and (in find_linkedins.py) primary
    category are all left unchanged by [strip()], that is, they carry no
    leading or trailing whitespace; and a name built from the first and
    last name fields is the two joined by one space when both are there,
    and the one that is there otherwise. *)
Theorem derived_fields_stripped (str_list : list value -> string) (r : gmap string value) :
  let p := derive_fields str_list r in
  Py.strip (p_name p) = p_name p
  /\ Py.strip (p_location p) = p_location p
  /\ Py.strip (p_role p) = p_role p
  /\ Py.strip (p_country p) = p_country p
  /\ Py.strip (p_primary_category p) = p_primary_category p
  /\ p_name p
     = (let name := field3 str_list r "name" "full_name" "Short Name" in
        if Py.truthy name then name
        else Py.join " " (List.filter Py.truthy
                            [field3 str_list r "First Name" "first_name" "first";
                             field3 str_list r "Last Name" "last_name" "last"])).
Proof.
  cbv zeta. unfold derive_fields. cbn [p_name p_location p_role p_country p_primary_category].
  assert (derive_name str_list r
          = if Py.truthy (field3 str_list r "name" "full_name" "Short Name")
            then field3 str_list r "name" "full_name" "Short Name"
            else Py.join " " (List.filter Py.truthy
                                [field3 str_list r "First Name" "first_name" "first";
                                 field3 str_list r "Last Name" "last_name" "last"]))
    as Hname.
  { unfold derive_name. cbv zeta.
    destruct (Py.truthy (field3 str_list r "name" "full_name" "Short Name")); [done|].
    cbn [negb]. apply strip_first_last; apply strip_stripped. }
  split_and!; try apply strip_idempotent; [| | done].
  - unfold derive_name. cbv zeta. destruct (negb _); apply strip_idempotent.
  - unfold derive_location. cbv zeta. destruct (negb _); [|apply strip_idempotent].
    apply stripped_strip, stripped_join, filter_stripped_truthy.
    repeat constructor; apply strip_stripped.
Qed.

Lemma split_on_free (sep : ascii) (s : string) :
  Forall (fun w => string_forall (fun c => negb (Ascii.eqb c sep)) w = true)
         (Py.split_on sep s).
Proof.
  induction s as [|c s IH]; [by repeat constructor|]. cbn [Py.split_on].
  destruct (Ascii.eqb c sep) eqn:Hc; [by constructor|].
  destruct (Py.split_on sep s) as [|w ws].
  - repeat constructor. simpl. by rewrite Hc.
  - apply Forall_cons in IH as [Hw Hws]. constructor; [|done]. simpl. by rewrite Hc, Hw.
Qed.

Lemma string_forall_lstrip (p : ascii -> bool) (s : string) :
  string_forall p s = true -> string_forall p (Py.lstrip s) = true.
Proof.
  induction s as [|c s IH]; [done|]. intros H. cbn [Py.lstrip].
  destruct (Py.is_space c); [|done]. apply IH. simpl in H.
  by apply andb_true_iff in H as [_ ?].
Qed.

Lemma string_forall_rstrip (p : ascii -> bool) (s : string) :
  string_forall p s = true -> string_forall p (Py.rstrip s) = true.
Proof.
  induction s as [|c s IH]; [done|]. intros H. cbn [Py.rstrip].
  simpl in H. apply andb_true_iff in H as [Hc Hs].
  destruct (Py.is_space c && negb (Py.truthy (Py.rstrip s))); [done|].
  simpl. by rewrite Hc, IH.
Qed.

Lemma Forall_map_filter {A B} (P : B -> Prop) (Q : A -> Prop) (f : A -> B) (g : A -> bool)
    (l : list A) :
  Forall Q l -> (forall x, Q x -> g x = true -> P (f x)) ->
  Forall P (map f (List.filter g l)).
Proof.
  intros Hl HP. induction Hl as [|x l Hx _ IH]; [done|]. simpl.
  destruct (g x) eqn:Hg; [|done]. constructor; [by apply HP | done].
Qed.

Lemma split_on_cons_char (sep c : ascii) (s : string) :
  Ascii.eqb c sep = false ->
  exists w ws, Py.split_on sep s = w :: ws /\ Py.split_on sep (String c s) = String c w :: ws.
Proof.
  intros Hc. cbn [Py.split_on]. rewrite Hc.
  destruct s as [|d s]; [by exists "", []|].
  cbn [Py.split_on]. destruct (Ascii.eqb d sep); [by eexists _, _|].
  destruct (Py.split_on sep s); by eexists _, _.
Qed.

Lemma split_on_not_nil (sep : ascii) (s : string) : is_nil (Py.split_on sep s) = false.
Proof.
  destruct s as [|c s]; [done|]. cbn [Py.split_on].
  destruct (Ascii.eqb c sep); [done|]. by destruct (Py.split_on sep s).
Qed.

(** Joining the pieces with the separator gives the string back. *)
Lemma join_split_on (sep : ascii) (s : string) :
  Py.join (String sep "") (Py.split_on sep s) = s.
Proof.
  induction s as [|c s IH]; [done|].
  destruct (Ascii.eqb c sep) eqn:Hc.
  - cbn [Py.split_on]. rewrite Hc. apply Ascii.eqb_eq in Hc as ->.
    rewrite join_cons, split_on_not_nil, IH. by string_app.
  - destruct (split_on_cons_char sep c s Hc) as (w & ws & Hs & ->).
    rewrite Hs in IH. rewrite join_cons in *. string_app. by rewrite IH.
Qed.

Lemma map_filter_truthy {A} (f : A -> string) (l : list A) :
  map f (List.filter (fun x => Py.truthy (f x)) l) = List.filter Py.truthy (map f l).
Proof.
  induction l as [|x l IH]; [done|]. simpl.
  destruct (Py.truthy (f x)); simpl; by rewrite IH.
Qed.

(** X21. The skills [process_records] derives from a record. From a
    string, they are the pieces between the delimiters (the semicolon
    when the string has one, the comma otherwise), stripped, the blank
    ones dropped, in order: the pieces hold no delimiter and, joined by the
    delimiter, give the string back; the skills are the non-empty ones
    among the stripped pieces; so every skill is non-empty, carries no
    leading or trailing whitespace and holds no delimiter. From a list,
    they are the [str()] of its truthy items; from anything else, there
    are none. *)
Theorem derived_skills_clean (str_list : list value -> string) (r : gmap string value) :
  match or_else (record_get r "skills") (record_get r "Skills") with
  | VStr s =>
      let delim := skills_delim s in
      let pieces := Py.split_on delim s in
      Py.join (String delim "") pieces = s
      /\ Forall (fun p => string_forall (fun c => negb (Ascii.eqb c delim)) p = true) pieces
      /\ derive_skills str_list r = List.filter Py.truthy (map Py.strip pieces)
      /\ Forall (fun k => Py.truthy k = true /\ Py.strip k = k
                          /\ string_forall (fun c => negb (Ascii.eqb c delim)) k = true)
                (derive_skills str_list r)
  | VList items =>
      derive_skills str_list r = map (py_str str_list) (List.filter value_truthy items)
  | _ => derive_skills str_list r = []
  end.
Proof.
  unfold derive_skills. cbv zeta.
  destruct (or_else (record_get r "skills") (record_get r "Skills")) as [|s|items|b t];
    try done.
  split; [apply join_split_on|]. split; [apply split_on_free|].
  destruct (Py.truthy s) eqn:Hs.
  - split; [apply map_filter_truthy|].
    eapply Forall_map_filter; [apply split_on_free|].
    intros x Hx Ht. cbv beta in *. split; [done|]. split; [apply strip_idempotent|].
    unfold Py.strip. by apply string_forall_lstrip, string_forall_rstrip.
  - destruct s; [|done]. by split.
Qed.

(** The identity used in the scenarios is the one the loop body derives. *)
Lemma amna_identity_derived : amna_identity = identity_of amna.
Proof. reflexivity. Qed.
